(** * hp-link-sentinel: the crawler of [server.js]

    A shallow embedding of the [Crawler] class (constructor, [start],
    [reportBroken], [processExternalQueue], [checkExternalLink]) and of the
    helpers [normalizeUrl] and [isSameOrigin], and of the socket handlers
    of a connection ([start-crawl], [stop-crawl], [disconnect]).

    The class is asynchronous: [start] and every [checkExternalLink] call are
    coroutines that run until their next [await] and are resumed by the event
    loop.  The embedding keeps the fields of [this] in one record together
    with the suspension point of [start], the suspended [checkExternalLink]
    calls and the sequence of observable actions (socket emissions, HTTP
    requests, timers).  One transition of the machine is one run of JavaScript
    between two suspension points. *)

From stdpp Require Import gmap strings list sorting.
From Stdlib Require Import ZArith QArith Qround Lia Lqa Ascii.

Local Open Scope Z_scope.

(** ** JavaScript string primitives used by the source *)

Module Js.

(** [s.startsWith(p)] *)
Definition startsWith (p s : string) : bool := String.prefix p s.

(** [s.endsWith(p)] *)
Definition endsWith (p s : string) : bool :=
  String.prefix (String.rev p) (String.rev s).

(** [s.includes(p)] *)
Definition includes (p s : string) : bool :=
  match String.index 0 p s with Some _ => true | None => false end.

(** Numbers are rationals: a budget arrives as a JSON number, which need
    not be whole. *)

(** [x || d] on an optional number: [undefined] and [0] are falsy. *)
Definition or_default (x : option Q) (d : Q) : Q :=
  match x with
  | None => d
  | Some n => if Qeq_bool n 0 then d else n
  end.

(** [x < y] and [x >= y] on numbers. *)
Definition lt (x y : Q) : bool := negb (Qle_bool y x).

Definition ge (x y : Q) : bool := Qle_bool y x.

Arguments lt : simpl never.
Arguments ge : simpl never.

(** [arr.some(p)] *)
Definition some {A} (p : A -> bool) (arr : list A) : bool := existsb p arr.

End Js.

(** ** The WHATWG [URL] class

    [URL] is a built-in of the runtime, not code of the repository; the
    crawler is parametric in it.  A constructor that throws is [None]. *)

Class UrlLib := {
  parsed : Type;
  URL_new : string -> option parsed;                 (* new URL(s) *)
  URL_new_base : string -> string -> option parsed;  (* new URL(href, base) *)
  URL_clear_hash : parsed -> parsed;                 (* p.hash = '' *)
  URL_toString : parsed -> string;
  URL_hostname : parsed -> string;
  URL_origin : parsed -> string
}.

Section Helpers.
Context {U : UrlLib}.

Definition normalizeUrl (url : string) : option string :=
  match URL_new url with
  | Some p => Some (URL_toString (URL_clear_hash p))
  | None => None
  end.

Definition isSameOrigin (baseUrl targetUrl : string) : bool :=
  match URL_new baseUrl, URL_new targetUrl with
  | Some b, Some t => bool_decide (URL_origin b = URL_origin t)
  | _, _ => false
  end.

End Helpers.

(** ** Data *)

(** The [status] field of a broken-link record: a number or ['Error']. *)
Inductive status :=
| Code (n : Z)
| ErrorMarker.

Record broken := { b_url : string; b_status : status; b_source : string }.

Record target := { url : string; depth : Z }.

Record ext_item := { e_url : string; e_source : string }.

Inductive logmsg :=
| LogStart (u : string) (maxDepth : Q)
| LogCrawling (d : Z) (u : string)
| LogDone
| LogStopped.

Inductive errmsg :=
| ErrInvalidStart
| ErrFetch (u : string).

(** What the crawler does to the outside world, in order. *)
Inductive action :=
| Emit_error (e : errmsg)
| Emit_log (m : logmsg)
| Emit_progress (u : string) (count queueSize d : Z)
| Emit_broken (b : broken)
| Emit_finished (bs : list broken)
| Page_get (u : string)          (* axios.get(currentUrl), 10 s *)
| Link_head (u : string)         (* axios.head(url), 5 s *)
| Link_get (u : string)          (* axios.get(url), 5 s *)
| Html_load (u : string) (d : Z) (* cheerio.load(response.data) *)
| Sleep (ms : Z).                (* setTimeout(r, ms) *)

(** Outcome of an axios call made with [validateStatus: () => true]:
    any status resolves, only a transport failure rejects. *)
Inductive http_result :=
| Response (st : Z)
| Failure.

(** A page fetch also delivers the content type (the empty string when
    the header is absent) and the [href] attribute of every anchor of the
    body, [None] for an anchor without one. *)
Inductive page_result :=
| Page (st : Z) (contentType : string) (hrefs : list (option string))
| PageFailure.

(** Where [start] is suspended. *)
Inductive main_pc :=
| Created                        (* not suspended yet *)
| AtFetch (u : string) (d : Z)   (* await axios.get(currentUrl) *)
| AtDelay                        (* await of the politeness delay *)
| AtDrain                        (* await of the drain-wait poll *)
| Returned                       (* after the finished event *)
| Rejected.                      (* returned on an invalid start URL *)

(** Where a [checkExternalLink] call is suspended; [Settled] is the
    promise resolved and its [finally] callback not yet run. *)
Inductive check_pc := AtHead | AtGet | Settled.

Record task := { t_url : string; t_source : string; t_pc : check_pc }.

Record state := {
  queue : list target;
  visited : gset string;
  checkedLinks : gset string;
  brokenLinks : list broken;
  isRunning : bool;
  maxPages : Q;
  maxDepth : Q;
  allowedDomains : list string;
  domainsIsArray : bool;
  crawledCount : Z;
  activeRequests : Z;
  maxConcurrency : Z;
  externalCheckQueue : list ext_item;
  isProcessingExternal : bool;
  pc : main_pc;
  tasks : list task;
  trace : list action
}.

(** Field updates ([this.f = v]). *)

Definition set_queue v (s : state) : state :=
  {| queue := v; visited := visited s; checkedLinks := checkedLinks s;
     brokenLinks := brokenLinks s; isRunning := isRunning s;
     maxPages := maxPages s; maxDepth := maxDepth s;
     allowedDomains := allowedDomains s; crawledCount := crawledCount s;
     domainsIsArray := domainsIsArray s;
     activeRequests := activeRequests s; maxConcurrency := maxConcurrency s;
     externalCheckQueue := externalCheckQueue s;
     isProcessingExternal := isProcessingExternal s; pc := pc s;
     tasks := tasks s; trace := trace s |}.

Definition set_visited v (s : state) : state :=
  {| queue := queue s; visited := v; checkedLinks := checkedLinks s;
     brokenLinks := brokenLinks s; isRunning := isRunning s;
     maxPages := maxPages s; maxDepth := maxDepth s;
     allowedDomains := allowedDomains s; crawledCount := crawledCount s;
     domainsIsArray := domainsIsArray s;
     activeRequests := activeRequests s; maxConcurrency := maxConcurrency s;
     externalCheckQueue := externalCheckQueue s;
     isProcessingExternal := isProcessingExternal s; pc := pc s;
     tasks := tasks s; trace := trace s |}.

Definition set_checkedLinks v (s : state) : state :=
  {| queue := queue s; visited := visited s; checkedLinks := v;
     brokenLinks := brokenLinks s; isRunning := isRunning s;
     maxPages := maxPages s; maxDepth := maxDepth s;
     allowedDomains := allowedDomains s; crawledCount := crawledCount s;
     domainsIsArray := domainsIsArray s;
     activeRequests := activeRequests s; maxConcurrency := maxConcurrency s;
     externalCheckQueue := externalCheckQueue s;
     isProcessingExternal := isProcessingExternal s; pc := pc s;
     tasks := tasks s; trace := trace s |}.

Definition set_brokenLinks v (s : state) : state :=
  {| queue := queue s; visited := visited s; checkedLinks := checkedLinks s;
     brokenLinks := v; isRunning := isRunning s; maxPages := maxPages s;
     maxDepth := maxDepth s; allowedDomains := allowedDomains s;
     domainsIsArray := domainsIsArray s;
     crawledCount := crawledCount s; activeRequests := activeRequests s;
     maxConcurrency := maxConcurrency s;
     externalCheckQueue := externalCheckQueue s;
     isProcessingExternal := isProcessingExternal s; pc := pc s;
     tasks := tasks s; trace := trace s |}.

Definition set_isRunning v (s : state) : state :=
  {| queue := queue s; visited := visited s; checkedLinks := checkedLinks s;
     brokenLinks := brokenLinks s; isRunning := v; maxPages := maxPages s;
     maxDepth := maxDepth s; allowedDomains := allowedDomains s;
     domainsIsArray := domainsIsArray s;
     crawledCount := crawledCount s; activeRequests := activeRequests s;
     maxConcurrency := maxConcurrency s;
     externalCheckQueue := externalCheckQueue s;
     isProcessingExternal := isProcessingExternal s; pc := pc s;
     tasks := tasks s; trace := trace s |}.

Definition set_crawledCount v (s : state) : state :=
  {| queue := queue s; visited := visited s; checkedLinks := checkedLinks s;
     brokenLinks := brokenLinks s; isRunning := isRunning s;
     maxPages := maxPages s; maxDepth := maxDepth s;
     allowedDomains := allowedDomains s; crawledCount := v;
     domainsIsArray := domainsIsArray s;
     activeRequests := activeRequests s; maxConcurrency := maxConcurrency s;
     externalCheckQueue := externalCheckQueue s;
     isProcessingExternal := isProcessingExternal s; pc := pc s;
     tasks := tasks s; trace := trace s |}.

Definition set_activeRequests v (s : state) : state :=
  {| queue := queue s; visited := visited s; checkedLinks := checkedLinks s;
     brokenLinks := brokenLinks s; isRunning := isRunning s;
     maxPages := maxPages s; maxDepth := maxDepth s;
     allowedDomains := allowedDomains s; crawledCount := crawledCount s;
     domainsIsArray := domainsIsArray s;
     activeRequests := v; maxConcurrency := maxConcurrency s;
     externalCheckQueue := externalCheckQueue s;
     isProcessingExternal := isProcessingExternal s; pc := pc s;
     tasks := tasks s; trace := trace s |}.

Definition set_externalCheckQueue v (s : state) : state :=
  {| queue := queue s; visited := visited s; checkedLinks := checkedLinks s;
     brokenLinks := brokenLinks s; isRunning := isRunning s;
     maxPages := maxPages s; maxDepth := maxDepth s;
     allowedDomains := allowedDomains s; crawledCount := crawledCount s;
     domainsIsArray := domainsIsArray s;
     activeRequests := activeRequests s; maxConcurrency := maxConcurrency s;
     externalCheckQueue := v; isProcessingExternal := isProcessingExternal s;
     pc := pc s; tasks := tasks s; trace := trace s |}.

Definition set_isProcessingExternal v (s : state) : state :=
  {| queue := queue s; visited := visited s; checkedLinks := checkedLinks s;
     brokenLinks := brokenLinks s; isRunning := isRunning s;
     maxPages := maxPages s; maxDepth := maxDepth s;
     allowedDomains := allowedDomains s; crawledCount := crawledCount s;
     domainsIsArray := domainsIsArray s;
     activeRequests := activeRequests s; maxConcurrency := maxConcurrency s;
     externalCheckQueue := externalCheckQueue s; isProcessingExternal := v;
     pc := pc s; tasks := tasks s; trace := trace s |}.

Definition set_pc v (s : state) : state :=
  {| queue := queue s; visited := visited s; checkedLinks := checkedLinks s;
     brokenLinks := brokenLinks s; isRunning := isRunning s;
     maxPages := maxPages s; maxDepth := maxDepth s;
     allowedDomains := allowedDomains s; crawledCount := crawledCount s;
     domainsIsArray := domainsIsArray s;
     activeRequests := activeRequests s; maxConcurrency := maxConcurrency s;
     externalCheckQueue := externalCheckQueue s;
     isProcessingExternal := isProcessingExternal s; pc := v;
     tasks := tasks s; trace := trace s |}.

Definition set_tasks v (s : state) : state :=
  {| queue := queue s; visited := visited s; checkedLinks := checkedLinks s;
     brokenLinks := brokenLinks s; isRunning := isRunning s;
     maxPages := maxPages s; maxDepth := maxDepth s;
     allowedDomains := allowedDomains s; crawledCount := crawledCount s;
     domainsIsArray := domainsIsArray s;
     activeRequests := activeRequests s; maxConcurrency := maxConcurrency s;
     externalCheckQueue := externalCheckQueue s;
     isProcessingExternal := isProcessingExternal s; pc := pc s; tasks := v;
     trace := trace s |}.

Definition set_trace v (s : state) : state :=
  {| queue := queue s; visited := visited s; checkedLinks := checkedLinks s;
     brokenLinks := brokenLinks s; isRunning := isRunning s;
     maxPages := maxPages s; maxDepth := maxDepth s;
     allowedDomains := allowedDomains s; crawledCount := crawledCount s;
     domainsIsArray := domainsIsArray s;
     activeRequests := activeRequests s; maxConcurrency := maxConcurrency s;
     externalCheckQueue := externalCheckQueue s;
     isProcessingExternal := isProcessingExternal s; pc := pc s;
     tasks := tasks s; trace := v |}.

(** ** The methods of [Crawler] *)

Definition emit (a : action) (s : state) : state :=
  set_trace (trace s ++ [a]) s.

Definition reportBroken (u : string) (st : status) (src : string)
    (s : state) : state :=
  let item := {| b_url := u; b_status := st; b_source := src |} in
  emit (Emit_broken item) (set_brokenLinks (brokenLinks s ++ [item]) s).

(** *** [checkExternalLink]

    The call itself runs up to [await axios.head]: the request is issued
    and the call is suspended. *)
Definition checkExternalLink (u src : string) (s : state) : state :=
  let t := {| t_url := u; t_source := src; t_pc := AtHead |} in
  set_tasks (tasks s ++ [t]) (emit (Link_head u) s).

(** [if (response.status >= 400) this.reportBroken(url, response.status,
    sourceUrl)] *)
Definition check_verdict (u src : string) (st : Z) (s : state) : state :=
  if 400 <=? st then reportBroken u (Code st) src s else s.

(** Resumption of a suspended call with the outcome of its request: the
    new fields and the next suspension point.  A rejection at either await
    lands in the [catch]. *)
Definition check_resume (t : task) (r : http_result) (s : state)
    : state * check_pc :=
  match t_pc t, r with
  | Settled, _ => (s, Settled)
  | _, Failure => (reportBroken (t_url t) ErrorMarker (t_source t) s, Settled)
  | AtHead, Response st =>
      if (400 <=? st) && negb (st =? 405)
      then (emit (Link_get (t_url t)) s, AtGet)
      else (check_verdict (t_url t) (t_source t) st s, Settled)
  | AtGet, Response st =>
      (check_verdict (t_url t) (t_source t) st s, Settled)
  end.

(** *** [processExternalQueue] *)

(** The [while] loop; [pending] is [this.externalCheckQueue]. *)
Fixpoint drain_loop (pending : list ext_item) (s : state) : state :=
  match pending with
  | [] => s
  | item :: rest =>
      if (activeRequests s <? maxConcurrency s) && isRunning s then
        let s := set_externalCheckQueue rest s in
        let s := set_activeRequests (activeRequests s + 1) s in
        drain_loop rest (checkExternalLink (e_url item) (e_source item) s)
      else s
  end.

Definition processExternalQueue (s : state) : state :=
  if isProcessingExternal s then s
  else
    let s := set_isProcessingExternal true s in
    let s := drain_loop (externalCheckQueue s) s in
    set_isProcessingExternal false s.

(** The [finally] callback of the [i]-th suspended call. *)
Definition finally_callback (i : nat) (s : state) : state :=
  let s := set_tasks (delete i (tasks s)) s in
  let s := set_activeRequests (activeRequests s - 1) s in
  processExternalQueue s.

(** The [i]-th suspended call is resumed with the outcome of its pending
    request; nothing happens for a call that is not waiting for one. *)
Definition link_done (i : nat) (r : http_result) (s : state) : option state :=
  match tasks s !! i with
  | Some t =>
      match t_pc t with
      | Settled => None
      | _ =>
          let (s', next) := check_resume t r s in
          let t' := {| t_url := t_url t; t_source := t_source t;
                       t_pc := next |} in
          Some (set_tasks (<[i := t']> (tasks s')) s')
      end
  | None => None
  end.

(** The [finally] callback of the [i]-th call runs once it has settled. *)
Definition finally_run (i : nat) (s : state) : option state :=
  match tasks s !! i with
  | Some t =>
      match t_pc t with
      | Settled => Some (finally_callback i s)
      | _ => None
      end
  | None => None
  end.

(** *** [start] *)

Definition isAllowed (urlHostname : string) (domains : list string) : bool :=
  Js.some (fun domain =>
             bool_decide (urlHostname = domain)
             || Js.endsWith ("." +:+ domain) urlHostname) domains.

(** [!absoluteUrl]: [null] and the empty string are falsy. *)
Definition falsy (x : option string) : bool :=
  match x with
  | None => true
  | Some x => bool_decide (x = "")
  end.

Section Start.
Context {U : UrlLib}.

(** The [try] block of the [each] callback: resolve [href] against the
    page, then normalise. *)
Definition resolve (href currentUrl : string) : option string :=
  match URL_new_base href currentUrl with
  | Some p => normalizeUrl (URL_toString p)
  | None => None
  end.

(** Routing of a resolved link that passed the guards.  The second
    component is [true] when [new URL(absoluteUrl)] throws, or
    [allowedDomains.some] on a value that is no array, which leaves the
    callback and [each] for the [catch] of [start]. *)
Definition classify (currentUrl : string) (d : Z) (absoluteUrl : string)
    (s : state) : state * bool :=
  let s := set_checkedLinks ({[absoluteUrl]} ∪ checkedLinks s) s in
  match URL_new absoluteUrl with
  | None => (s, true)
  | Some p =>
      if negb (domainsIsArray s) then (s, true)
      else if isAllowed (URL_hostname p) (allowedDomains s) then
        let inQueue :=
          Js.some (fun item => bool_decide (url item = absoluteUrl))
                  (queue s) in
        if negb (bool_decide (absoluteUrl ∈ visited s)) && negb inQueue
        then (set_queue
                (queue s ++ [{| url := absoluteUrl; depth := d + 1 |}]) s,
              false)
        else (s, false)
      else
        let item := {| e_url := absoluteUrl; e_source := currentUrl |} in
        (processExternalQueue
           (set_externalCheckQueue (externalCheckQueue s ++ [item]) s),
         false)
  end.

(** The callback of [links.each]. *)
Definition each_link (currentUrl : string) (d : Z) (href : option string)
    (s : state) : state * bool :=
  if falsy href then (s, false)
  else
    let absoluteUrl := resolve (default "" href) currentUrl in
    if falsy absoluteUrl
       || negb (Js.startsWith "http" (default "" absoluteUrl))
    then (s, false)
    else if bool_decide (default "" absoluteUrl ∈ checkedLinks s)
    then (s, false)
    else classify currentUrl d (default "" absoluteUrl) s.

Fixpoint each (currentUrl : string) (d : Z) (hrefs : list (option string))
    (s : state) : state * bool :=
  match hrefs with
  | [] => (s, false)
  | href :: rest =>
      let (s', thrown) := each_link currentUrl d href s in
      if thrown then (s', true) else each currentUrl d rest s'
  end.

End Start.

(** The end of [start]: the finished event and the closing log line. *)
Definition finish (s : state) : state :=
  let s := emit (Emit_finished (brokenLinks s)) s in
  set_pc Returned (emit (Emit_log LogDone) s).

(** The second [while] of [start], from its condition to the next await
    or to the end. *)
Definition drain_wait (s : state) : state :=
  if (0 <? activeRequests s)
     || (0 <? Z.of_nat (length (externalCheckQueue s))) then
    if negb (isRunning s) then finish s
    else set_pc AtDrain (emit (Sleep 500) s)
  else finish s.

(** The loop body for a page not visited before, up to
    [await axios.get(currentUrl)]. *)
Definition visit (item : target) (s : state) : state :=
  let s := set_visited ({[url item]} ∪ visited s) s in
  let s := set_crawledCount (crawledCount s + 1) s in
  let s := emit (Emit_progress (url item) (crawledCount s)
                   (Z.of_nat (length (queue s))) (depth item)) s in
  let s := emit (Emit_log (LogCrawling (depth item) (url item))) s in
  set_pc (AtFetch (url item) (depth item)) (emit (Page_get (url item)) s).

(** The first [while] of [start], from its condition to the next await;
    [q] is [this.queue].  A [continue] re-enters the condition without
    suspending. *)
Fixpoint main_loop (q : list target) (s : state) : state :=
  match q with
  | [] => drain_wait s
  | item :: rest =>
      if isRunning s && Js.lt (inject_Z (crawledCount s)) (maxPages s) then
        let s := set_queue rest s in
        if bool_decide (url item ∈ visited s) then main_loop rest s
        else visit item s
      else drain_wait s
  end.

Definition loop_head (s : state) : state := main_loop (queue s) s.

(** The politeness delay that ends the loop body. *)
Definition polite_delay (s : state) : state :=
  set_pc AtDelay (emit (Sleep 500) s).

(** The [catch] of the loop body, which falls through to the delay. *)
Definition catch_fetch (currentUrl : string) (s : state) : state :=
  let s := emit (Emit_error (ErrFetch currentUrl)) s in
  polite_delay (reportBroken currentUrl ErrorMarker "seed" s).

Section Machine.
Context {U : UrlLib}.

(** The loop body after [await axios.get(currentUrl)]. *)
Definition resume_fetch (currentUrl : string) (d : Z) (r : page_result)
    (s : state) : state :=
  match r with
  | PageFailure => catch_fetch currentUrl s
  | Page st contentType hrefs =>
      if 400 <=? st
      then loop_head (reportBroken currentUrl (Code st) "seed" s)
      else if negb (Js.includes "text/html" contentType) then loop_head s
      else if Js.ge (inject_Z d) (maxDepth s) then loop_head s
      else
        let s := emit (Html_load currentUrl d) s in
        let (s, thrown) := each currentUrl d hrefs s in
        if thrown then catch_fetch currentUrl s else polite_delay s
  end.

(** What the event loop can deliver to a session. *)
Inductive label :=
| PageDone (r : page_result)            (* the page fetch settles *)
| TimerFired                            (* a 500 ms timer fires *)
| LinkDone (i : nat) (r : http_result)  (* a link request settles *)
| FinallyRun (i : nat)                  (* a finally callback runs *)
| StopCrawl                             (* the stop-crawl handler *)
| Cancel.                               (* disconnect, or a new start-crawl *)

Definition step (s : state) (l : label) : option state :=
  match l with
  | PageDone r =>
      match pc s with
      | AtFetch u d => Some (resume_fetch u d r s)
      | _ => None
      end
  | TimerFired =>
      match pc s with
      | AtDelay => Some (loop_head s)
      | AtDrain => Some (drain_wait (processExternalQueue s))
      | _ => None
      end
  | LinkDone i r => link_done i r s
  | FinallyRun i => finally_run i s
  | StopCrawl => Some (emit (Emit_log LogStopped) (set_isRunning false s))
  | Cancel => Some (set_isRunning false s)
  end.

Fixpoint run (s : state) (ls : list label) : option state :=
  match ls with
  | [] => Some s
  | l :: ls' =>
      match step s l with
      | Some s' => run s' ls'
      | None => None
      end
  end.

End Machine.

(** ** The constructor

    [options] is an object of the caller and [options.allowedDomains] an
    array of the caller: both live in a store of objects, and the crawler
    holds the array by reference. *)

Definition loc := positive.

Record options := {
  opt_maxPages : option Q;
  opt_maxDepth : option Q;
  opt_allowedDomains : option loc
}.

Inductive object :=
| Array (elems : list string)
| Options (o : options).

Abbreviation heap := (gmap loc object).

Module Crawler.

(** The fields of [this] as the constructor leaves them.  The URL of a
    queue entry is [this.startUrl], which may be [null]. *)
Record t := {
  startUrl : option string;
  visited : gset string;
  checkedLinks : gset string;
  queue : list (option string * Z);
  brokenLinks : list broken;
  isRunning : bool;
  maxPages : Q;
  maxDepth : Q;
  allowedDomains : loc;
  crawledCount : Z;
  activeRequests : Z;
  maxConcurrency : Z;
  externalCheckQueue : list ext_item;
  isProcessingExternal : bool
}.

Section Constructor.
Context {U : UrlLib}.

(** [options.allowedDomains || []]: the caller's array itself, or a
    newly allocated empty one. *)
Definition domains_or_new (o : options) (h : heap) : loc * heap :=
  match opt_allowedDomains o with
  | Some l => (l, h)
  | None => let l := fresh (dom h) in (l, <[l := Array []]> h)
  end.

(** The [try] block: push the start host unless the array has it.
    Every exception ([new URL(null)], a missing array) is swallowed. *)
Definition add_start_host (startUrl : option string) (domains : loc)
    (h : heap) : heap :=
  match startUrl with
  | None => h
  | Some u =>
      match URL_new u with
      | None => h
      | Some p =>
          let startHost := URL_hostname p in
          match h !! domains with
          | Some (Array elems) =>
              if bool_decide (startHost ∈ elems) then h
              else <[domains := Array (elems ++ [startHost])]> h
          | _ => h
          end
      end
  end.

Definition constructor (startUrl : string) (opts : loc) (h : heap)
    : option (t * heap) :=
  match h !! opts with
  | Some (Options o) =>
      let start := normalizeUrl startUrl in
      let (domains, h1) := domains_or_new o h in
      let this :=
        {| startUrl := start;
           visited := ∅;
           checkedLinks := ∅;
           queue := [(start, 0)];
           brokenLinks := [];
           isRunning := false;
           maxPages := Js.or_default (opt_maxPages o) 50;
           maxDepth := Js.or_default (opt_maxDepth o) 3;
           allowedDomains := domains;
           crawledCount := 0;
           activeRequests := 0;
           maxConcurrency := 5;
           externalCheckQueue := [];
           isProcessingExternal := false |} in
      Some (this, add_start_host start domains h1)
  | _ => None
  end.

End Constructor.

End Crawler.

(** [this.allowedDomains] as [start] reads it through the reference:
    the elements of the array, and whether it is an array at all (on
    anything else [allowedDomains.some] is not a function). *)
Definition read_domains (l : loc) (h : heap) : list string :=
  match h !! l with
  | Some (Array elems) => elems
  | _ => []
  end.

Definition is_array (l : loc) (h : heap) : bool :=
  match h !! l with
  | Some (Array _) => true
  | _ => false
  end.

(** The session state at the entry of [start]; a queue entry with a
    [null] URL is never dequeued, [start] returns before the loop. *)
Definition enter (this : Crawler.t) (h : heap) : state :=
  {| queue :=
       omap (fun e => match fst e with
                      | Some u => Some {| url := u; depth := snd e |}
                      | None => None
                      end) (Crawler.queue this);
     visited := Crawler.visited this;
     checkedLinks := Crawler.checkedLinks this;
     brokenLinks := Crawler.brokenLinks this;
     isRunning := Crawler.isRunning this;
     maxPages := Crawler.maxPages this;
     maxDepth := Crawler.maxDepth this;
     allowedDomains := read_domains (Crawler.allowedDomains this) h;
     domainsIsArray := is_array (Crawler.allowedDomains this) h;
     crawledCount := Crawler.crawledCount this;
     activeRequests := Crawler.activeRequests this;
     maxConcurrency := Crawler.maxConcurrency this;
     externalCheckQueue := Crawler.externalCheckQueue this;
     isProcessingExternal := Crawler.isProcessingExternal this;
     pc := Created;
     tasks := [];
     trace := [] |}.

(** [start] up to its first await (or to its early return). *)
Definition start (this : Crawler.t) (h : heap) : state :=
  if falsy (Crawler.startUrl this)
  then set_pc Rejected (emit (Emit_error ErrInvalidStart) (enter this h))
  else
    let s := set_isRunning true (enter this h) in
    let s := emit (Emit_log (LogStart (default "" (Crawler.startUrl this))
                                      (maxDepth s))) s in
    loop_head s.

(** A session: [new Crawler(url, socket, options)] followed by
    [crawler.start()]. *)
Definition session {U : UrlLib} (startUrl : string) (opts : loc) (h : heap)
    : option state :=
  match Crawler.constructor startUrl opts h with
  | Some (this, h') => Some (start this h')
  | None => None
  end.

(** ** The scheme of a URL string *)

(** Split at the first character satisfying [p]: what is before it and
    what starts at it. *)
Fixpoint break (p : ascii -> bool) (s : string) : string * string :=
  match s with
  | "" => ("", "")
  | String c s' =>
      if p c then ("", s)
      else let (a, b) := break p s' in (String c a, b)
  end%string.

Definition is_char (c : ascii) (x : ascii) : bool := bool_decide (x = c).

(** The text before the first colon. *)
Definition scheme_of (u : string) : string := (break (is_char ":") u).1.

(** ** A small [URL] implementation

    Enough of the WHATWG parser to run the crawler on concrete pages:
    absolute URLs [scheme:rest] and [scheme://host/path#fragment] with any
    scheme, and path-absolute references [/path] against a base.  The
    general theorems do not depend on it. *)

Module SampleUrl.

Record parts := {
  scheme : string;
  authority : option string;   (* the host, when the URL has [//] *)
  path : string;               (* path and query *)
  hash : string                (* empty, or [#] and the fragment *)
}.

Definition is_alpha (c : ascii) : bool :=
  let n := N_of_ascii c in
  ((65 <=? n) && (n <=? 90) || (97 <=? n) && (n <=? 122))%N.

Definition is_scheme_char (c : ascii) : bool :=
  let n := N_of_ascii c in
  (is_alpha c || (48 <=? n) && (n <=? 57)
   || is_char "+"%char c || is_char "-"%char c || is_char "."%char c)%N.

Fixpoint all_chars (p : ascii -> bool) (s : string) : bool :=
  match s with
  | "" => true
  | String c s' => p c && all_chars p s'
  end%string.

Definition valid_scheme (s : string) : bool :=
  match s with
  | "" => false
  | String c s' => is_alpha c && all_chars is_scheme_char s'
  end%string.

Definition parse (s : string) : option parts :=
  let (sch, rest) := break (is_char ":"%char) s in
  match rest with
  | String _ body =>
      if valid_scheme sch then
        let (main, frag) := break (is_char "#"%char) body in
        if Js.startsWith "//" main then
          let after := String.substring 2 (String.length main - 2) main in
          let (host, p) :=
            break (fun c => is_char "/"%char c || is_char "?"%char c) after in
          Some {| scheme := sch; authority := Some host;
                  path := p; hash := frag |}
        else
          Some {| scheme := sch; authority := None;
                  path := main; hash := frag |}
      else None
  | _ => None
  end%string.

Definition parse_base (href base : string) : option parts :=
  match parse href with
  | Some p => Some p
  | None =>
      match parse base with
      | Some b =>
          if Js.startsWith "/" href && negb (Js.startsWith "//" href) then
            let (p, frag) := break (is_char "#"%char) href in
            Some {| scheme := scheme b; authority := authority b;
                    path := p; hash := frag |}
          else None
      | None => None
      end
  end.

Definition clear_hash (p : parts) : parts :=
  {| scheme := scheme p; authority := authority p;
     path := path p; hash := "" |}.

Definition toString (p : parts) : string :=
  scheme p +:+ ":" +:+
  match authority p with
  | Some host => "//" +:+ host
  | None => ""
  end +:+ path p +:+ hash p.

Definition hostname (p : parts) : string := default "" (authority p).

Definition origin (p : parts) : string :=
  scheme p +:+ "://" +:+ hostname p.

Definition lib : UrlLib :=
  {| parsed := parts;
     URL_new := parse;
     URL_new_base := parse_base;
     URL_clear_hash := clear_hash;
     URL_toString := toString;
     URL_hostname := hostname;
     URL_origin := origin |}.

End SampleUrl.

(** ** A session on concrete pages *)

Module Demo.

Definition home : string := "https://example.com/".

(** The options object of the caller, at address 1 of the store. *)
Definition store (o : options) : heap := {[ 1%positive := Options o ]}.

Definition defaults : options :=
  {| opt_maxPages := None; opt_maxDepth := None;
     opt_allowedDomains := None |}.

Definition front_page : page_result :=
  Page 200 "text/html; charset=utf-8"
    [Some "/a"; Some "/b"; Some "https://other.org/x";
     Some "mailto:me@example.com"; None; Some "/a#top";
     Some "httpx://example.com/c"]%string.

(** The front page is fetched and mined and the loop reaches [/a]. *)
Definition until_a : list label :=
  [PageDone front_page; LinkDone 0 (Response 404); TimerFired].

(** [/a] answers 404, the external link is broken, [/b] is an image,
    then the user stops the crawl. *)
Definition until_stop : list label :=
  until_a ++
  [PageDone (Page 404 "text/html" []); LinkDone 0 (Response 500);
   FinallyRun 0; PageDone (Page 200 "image/png" []); StopCrawl].

(** The pending fetch fails and the delay elapses. *)
Definition after_stop : list label := [PageDone PageFailure; TimerFired].

Definition deliveries : list label := until_stop ++ after_stop.

Definition crawl (o : options) : option state :=
  session (U := SampleUrl.lib) home 1%positive (store o).

End Demo.

(** ** Observations on the sequence of actions *)

Definition progress_urls (tr : list action) : list string :=
  omap (fun a => match a with
                 | Emit_progress u _ _ _ => Some u
                 | _ => None
                 end) tr.

Definition progress_depths (tr : list action) : list Z :=
  omap (fun a => match a with
                 | Emit_progress _ _ _ d => Some d
                 | _ => None
                 end) tr.

Definition page_gets (tr : list action) : list string :=
  omap (fun a => match a with Page_get u => Some u | _ => None end) tr.

Definition link_gets (tr : list action) : list string :=
  omap (fun a => match a with Link_get u => Some u | _ => None end) tr.

Definition reports (tr : list action) : list broken :=
  omap (fun a => match a with Emit_broken b => Some b | _ => None end) tr.

Definition finished_payloads (tr : list action) : list (list broken) :=
  omap (fun a => match a with Emit_finished bs => Some bs | _ => None end) tr.

Definition html_loads (tr : list action) : list (string * Z) :=
  omap (fun a => match a with Html_load u d => Some (u, d) | _ => None end) tr.

Definition sleeps (tr : list action) : list Z :=
  omap (fun a => match a with Sleep ms => Some ms | _ => None end) tr.

(** The actions of [s'] that [s] did not have yet. *)
Definition since (s s' : state) : list action :=
  drop (length (trace s)) (trace s').

(** ** Observations on the suspension point of [start] *)

(** [start] is suspended at an await. *)
Definition awaiting (s : state) : Prop :=
  match pc s with
  | AtFetch _ _ | AtDelay | AtDrain => True
  | _ => False
  end.

(** The awaits [start] still has to pass once the running flag is
    cleared: the page fetch and then the delay, or one timer. *)
Definition rank (p : main_pc) : nat :=
  match p with
  | AtFetch _ _ => 2
  | AtDelay | AtDrain => 1
  | _ => 0
  end.

(** The deliveries that resume [start]. *)
Definition resumes_start (l : label) : bool :=
  match l with
  | PageDone _ | TimerFired => true
  | _ => false
  end.

Definition resumptions (ls : list label) : nat :=
  length (List.filter resumes_start ls).

(** Calls whose request is still pending. *)
Definition in_flight (s : state) : nat :=
  length (List.filter (fun t => match t_pc t with Settled => false | _ => true end)
            (tasks s)).

(** ** One external-link verification from call to settlement

    The call of [checkExternalLink] on a session without suspended calls,
    then the outcome [head] of its HEAD request and, when the call waits
    for a GET request afterwards, the outcome [get] of that one. *)
Definition verification (u src : string) (head get : http_result)
    (s : state) : state :=
  let s0 := checkExternalLink u src s in
  let i := length (tasks s) in
  match link_done i head s0 with
  | Some s1 =>
      match link_done i get s1 with
      | Some s2 => s2
      | None => s1
      end
  | None => s0
  end.

(** ** Frames and invariants

    The statements used to follow a session through its transitions. *)

(** The accounting of suspended [checkExternalLink] calls: the counter is
    the number of calls whose [finally] callback has not run, and it is
    within the ceiling. *)
Definition conc_ok (s : state) : Prop :=
  maxConcurrency s = 5 /\
  activeRequests s = Z.of_nat (length (tasks s)) /\
  activeRequests s <= maxConcurrency s.

(** Actions that a frame may add: everything but progress events, page
    fetches, HTML loads and the finished event. *)
Definition quiet (a : action) : bool :=
  match a with
  | Emit_progress _ _ _ _ | Page_get _ | Emit_finished _ | Html_load _ _ =>
      false
  | _ => true
  end.

(** [extends d s s']: [s'] is [s] up to additions to the trace, to
    [brokenLinks] and to the queues (see the section on frames below). *)
Record extends (d : Z) (s s' : state) : Prop := {
  ext_visited : visited s' = visited s;
  ext_count : crawledCount s' = crawledCount s;
  ext_maxPages : maxPages s' = maxPages s;
  ext_maxDepth : maxDepth s' = maxDepth s;
  ext_conc : maxConcurrency s' = maxConcurrency s;
  ext_domains : allowedDomains s' = allowedDomains s;
  ext_running : isRunning s' = isRunning s;
  ext_pc : pc s' = pc s;
  ext_queue : exists added,
    queue s' = queue s ++ added /\ Forall (fun t => depth t = d + 1) added;
  ext_trace : exists acts,
    trace s' = trace s ++ acts /\ Forall (fun a => quiet a = true) acts /\
    brokenLinks s' = brokenLinks s ++ reports acts;
  ext_conc_ok : conc_ok s -> conc_ok s'
}.

(** The shapes of a transition of [start]: back to the loop condition,
    to the delay from the [catch], to the delay after an extraction, or
    through one round of the drain-wait loop. *)
Inductive main_shape (s : state) : state -> Prop :=
| shape_loop (s1 : state) :
    pc s = AtDelay \/ (exists u d, pc s = AtFetch u d) ->
    (forall d, extends d s s1) ->
    main_shape s (loop_head s1)
| shape_caught (u : string) (d : Z) (s1 : state) :
    pc s = AtFetch u d ->
    (forall d', extends d' s s1) ->
    main_shape s (set_pc AtDelay s1)
| shape_extracted (u : string) (d : Z) (s1 : state) :
    pc s = AtFetch u d -> (inject_Z d < maxDepth s)%Q ->
    extends d (emit (Html_load u d) s) s1 ->
    main_shape s (set_pc AtDelay s1)
| shape_drain (s1 : state) :
    pc s = AtDrain ->
    (forall d, extends d s s1) ->
    main_shape s (drain_wait s1).

(** The state in which [start] enters its loop, or returns early. *)
Record created (s : state) : Prop := {
  cr_pc : pc s = Created;
  cr_visited : visited s = ∅;
  cr_count : crawledCount s = 0;
  cr_active : activeRequests s = 0;
  cr_tasks : tasks s = [];
  cr_conc : maxConcurrency s = 5;
  cr_broken : brokenLinks s = [];
  cr_queue : Forall (fun t => depth t = 0) (queue s);
  cr_quiet : Forall (fun a => quiet a = true) (trace s);
  cr_reports : reports (trace s) = []
}.

(** Every progress event is for a URL of the visited set, no URL has two,
    each one is followed by the fetch of its page, and [crawledCount]
    counts them within the page budget, rounded up to a whole number. *)
Definition pages_ok (s : state) : Prop :=
  NoDup (progress_urls (trace s)) /\
  (forall u, u ∈ progress_urls (trace s) -> u ∈ visited s) /\
  page_gets (trace s) = progress_urls (trace s) /\
  crawledCount s = Z.of_nat (length (progress_urls (trace s))) /\
  crawledCount s <= Z.max 0 (Qceiling (maxPages s)).


(** [brokenLinks] is the list of the reports made so far; the finished
    event is emitted when [start] returns, once, and carries the reports
    made before it. *)
Definition finished_ok (s : state) : Prop :=
  brokenLinks s = reports (trace s) /\
  match pc s with
  | Returned =>
      exists t1 t2,
        trace s = t1 ++ Emit_finished (reports t1) :: t2 /\
        finished_payloads t1 = [] /\ finished_payloads t2 = []
  | _ => finished_payloads (trace s) = []
  end.

(** ** Further observations *)

Definition progress_counts (tr : list action) : list Z :=
  omap (fun a => match a with
                 | Emit_progress _ c _ _ => Some c
                 | _ => None
                 end) tr.

Definition link_heads (tr : list action) : list string :=
  omap (fun a => match a with Link_head u => Some u | _ => None end) tr.

(** A crawler fresh from the constructor, as [start] finds it. *)
Record fresh_crawler (s : state) : Prop := {
  fc_pc : pc s = Created;
  fc_visited : visited s = ∅;
  fc_checked : checkedLinks s = ∅;
  fc_queue : (length (queue s) <= 1)%nat;
  fc_depth : Forall (fun t => depth t = 0) (queue s);
  fc_broken : brokenLinks s = [];
  fc_count : crawledCount s = 0;
  fc_active : activeRequests s = 0;
  fc_tasks : tasks s = [];
  fc_pending : externalCheckQueue s = [];
  fc_guard : isProcessingExternal s = false;
  fc_conc : maxConcurrency s = 5;
  fc_trace : exists a, trace s = [a] /\ quiet a = true /\ reports [a] = []
                       /\ link_heads [a] = []
}.

(** The URLs of all requests sent: [axios.get] of a page, [axios.head]
    and [axios.get] of a link. *)
Definition requests (tr : list action) : list string :=
  omap (fun a => match a with
                 | Page_get u | Link_head u | Link_get u => Some u
                 | _ => None
                 end) tr.

(** ** Further invariants *)

(** From one state to a later one: the trace and [brokenLinks] are
    extended at their end, the visited set and the page count grow, and
    the configuration stays. *)
Definition grows (s s' : state) : Prop :=
  trace s `prefix_of` trace s' /\
  brokenLinks s `prefix_of` brokenLinks s' /\
  visited s ⊆ visited s' /\
  crawledCount s <= crawledCount s' /\
  maxPages s' = maxPages s /\ maxDepth s' = maxDepth s /\
  maxConcurrency s' = maxConcurrency s /\
  allowedDomains s' = allowedDomains s.

(** The counts of the progress events are 1, 2, 3, ... up to
    [crawledCount]. *)
Definition counts_ok (s : state) : Prop :=
  0 <= crawledCount s /\
  progress_counts (trace s)
  = Z.of_nat <$> seq 1 (Z.to_nat (crawledCount s)).

(** No URL is twice in the frontier and none of them is visited. *)
Definition frontier_ok (s : state) : Prop :=
  NoDup (url <$> queue s) /\ Forall (fun t => url t ∉ visited s) (queue s).

(** The drain guard is free and nothing waits while a slot is free and
    the session runs. *)
Definition sched_ok (s : state) : Prop :=
  isProcessingExternal s = false /\
  (externalCheckQueue s = [] \/ maxConcurrency s <= activeRequests s
   \/ isRunning s = false).

(** Stopped, with the HEAD requests [hs] sent so far and [n] calls
    suspended at most. *)
Definition stopped_at (hs : list string) (n : nat) (s : state) : Prop :=
  isRunning s = false /\ link_heads (trace s) = hs /\
  (length (tasks s) <= n)%nat.

(** Every report is for something that was requested: a page that was
    fetched, reported with the source ["seed"], or a link for which a
    HEAD request was sent, reported with a fetched page as source.  The
    same holds of what is still to come: the page being fetched, the
    suspended calls and the waiting links. *)
Definition requested_ok (s : state) : Prop :=
  (forall u d, pc s = AtFetch u d -> u ∈ page_gets (trace s)) /\
  Forall (fun t => t_url t ∈ link_heads (trace s)
                   /\ t_source t ∈ page_gets (trace s)) (tasks s) /\
  Forall (fun e => e_source e ∈ page_gets (trace s))
         (externalCheckQueue s) /\
  Forall (fun b => (b_source b = "seed"%string
                    /\ b_url b ∈ page_gets (trace s))
                   \/ (b_url b ∈ link_heads (trace s)
                       /\ b_source b ∈ page_gets (trace s)))
         (reports (trace s)).

(** Pages are dequeued in non-decreasing depth, the frontier is ordered
    by depth, and it holds pages of the depth [lo] of the last dequeued
    page and of the next depth only. *)
Definition bfs_ok (s : state) : Prop :=
  exists lo,
    StronglySorted Z.le (progress_depths (trace s)) /\
    Forall (fun d => d <= lo) (progress_depths (trace s)) /\
    StronglySorted Z.le (depth <$> queue s) /\
    Forall (fun t => lo <= depth t <= lo + 1) (queue s) /\
    (forall u d, pc s = AtFetch u d -> d = lo).

Definition http (u : string) : Prop := Js.startsWith "http" u = true.

(** Whatever the crawler holds to request later, and whatever it has
    requested, begins with [http]. *)
Definition http_ok (s : state) : Prop :=
  (forall a, a ∈ checkedLinks s -> http a) /\
  Forall (fun t => http (url t)) (queue s) /\
  Forall (fun e => http (e_url e)) (externalCheckQueue s) /\
  Forall (fun t => http (t_url t)) (tasks s) /\
  Forall http (requests (trace s)).

(** ** The connection *)

(** The handlers of a connection share the variable [crawler].  A crawler
    that is replaced by a new one is not discarded: its pending requests
    and timers still resume it.  A connection therefore holds every
    crawler created so far, and [crawler] is the index of the current
    one. *)

(** What the handler finds as [data.url]: a string; a falsy value that is
    no string ([undefined], [null], [false], [0]); or a truthy value that
    is no string (a number, [true], an array, an object), on which
    [url.startsWith] is not a function. *)
Inductive url_field :=
| Missing
| Text (s : string)
| NoText.

(** The payload of [start-crawl]: [null] or [undefined]; a string; or any
    other value, of which the handler reads the properties [url] and
    [options].  [h] holds the objects of the payload. *)
Inductive payload :=
| Nullish
| UrlString (url : string)
| Request (url : url_field) (options : option loc) (h : heap).

(** What the handlers themselves emit on the socket, and the exception
    that leaves a handler.  The rejection handler of [crawler.start()]
    has no part in the model, where [start] does not throw. *)
Inductive notice :=
| InvalidUrl       (* 'error': the URL must begin with http or https *)
| StoppedByUser    (* 'log': stopped by the user *)
| Uncaught.        (* a TypeError thrown by the handler *)

Record connection := {
  crawler : option nat;
  crawlers : list state;
  notices : list notice
}.

(** [io.on('connection', ...)]: [let crawler;] *)
Definition connect : connection :=
  {| crawler := None; crawlers := []; notices := [] |}.

(** [if (crawler) crawler.isRunning = false] *)
Definition stop_current (c : connection) : list state :=
  match crawler c with
  | Some i => alter (set_isRunning false) i (crawlers c)
  | None => crawlers c
  end.

Definition no_options : options :=
  {| opt_maxPages := None; opt_maxDepth := None;
     opt_allowedDomains := None |}.

(** [data.options || {}]: an object with the properties the constructor
    reads is taken as it is; a missing or falsy value gives a new [{}],
    and any other value (an array, a number, a string) has none of the
    three properties and reads like [{}]. *)
Definition options_or_new (options : option loc) (h : heap) : loc * heap :=
  let new := let l := fresh (dom h) in (l, <[l := Options no_options]> h) in
  match options with
  | Some l =>
      match h !! l with
      | Some (Options _) => (l, h)
      | _ => new
      end
  | None => new
  end.

(** [url] and [options] as the handler reads them off the payload, lines
    228 to 235; [None] when reading [data.url] throws. *)
Definition read_payload (data : payload)
    : option (url_field * (loc * heap)) :=
  match data with
  | Nullish => None
  | UrlString url => Some (Text url, options_or_new None ∅)
  | Request url options h => Some (url, options_or_new options h)
  end.

(** The string of a field that is falsy or a string. *)
Definition as_text (url : url_field) : option string :=
  match url with
  | Text s => Some s
  | _ => None
  end.

Section Connection.
Context {U : UrlLib}.

(** The [start-crawl] handler.  The current crawler is stopped before
    the URL is looked at, but after the payload is read.  An exception
    leaves the connection as the handler had it at the throw and is
    recorded among the notices; whether the process outlives it is not
    the handler's matter, and [serve] below covers the runs that go
    on. *)
Definition start_crawl (data : payload) (c : connection)
    : option connection :=
  match read_payload data with
  | None =>
      Some {| crawler := crawler c; crawlers := crawlers c;
              notices := notices c ++ [Uncaught] |}
  | Some (url, (options, h)) =>
      let cs := stop_current c in
      match url with
      | NoText =>
          Some {| crawler := crawler c; crawlers := cs;
                  notices := notices c ++ [Uncaught] |}
      | _ =>
          let url := as_text url in
          if falsy url || negb (Js.startsWith "http" (default "" url))
          then Some {| crawler := crawler c; crawlers := cs;
                       notices := notices c ++ [InvalidUrl] |}
          else
            match session (default "" url) options h with
            | Some s0 =>
                Some {| crawler := Some (length cs); crawlers := cs ++ [s0];
                        notices := notices c |}
            | None => None
            end
      end
  end.

(** The [stop-crawl] handler; its log line is recorded among the notices
    of the connection. *)
Definition stop_crawl (c : connection) : connection :=
  {| crawler := crawler c; crawlers := stop_current c;
     notices := notices c ++ [StoppedByUser] |}.

(** The [disconnect] handler. *)
Definition disconnect (c : connection) : connection :=
  {| crawler := crawler c; crawlers := stop_current c;
     notices := notices c |}.

(** What happens on a connection: a socket event, or the event loop
    resumes one of the crawlers. *)
Inductive event :=
| OnStartCrawl (data : payload)
| OnStopCrawl
| OnDisconnect
| Resume (i : nat) (l : label).

(** The labels that stand for a settled request or a timer. *)
Definition delivery (l : label) : bool :=
  match l with
  | StopCrawl | Cancel => false
  | _ => true
  end.

Definition handle (c : connection) (e : event) : option connection :=
  match e with
  | OnStartCrawl data => start_crawl data c
  | OnStopCrawl => Some (stop_crawl c)
  | OnDisconnect => Some (disconnect c)
  | Resume i l =>
      if delivery l then
        match crawlers c !! i with
        | Some s =>
            match step s l with
            | Some s' => Some {| crawler := crawler c;
                                 crawlers := <[i := s']> (crawlers c);
                                 notices := notices c |}
            | None => None
            end
        | None => None
        end
      else None
  end.

Fixpoint serve (c : connection) (es : list event) : option connection :=
  match es with
  | [] => Some c
  | e :: es' =>
      match handle c e with
      | Some c' => serve c' es'
      | None => None
      end
  end.

End Connection.

(** The URL with which [start-crawl] creates a crawler, if it does: a
    string that begins with [http]. *)
Definition start_url (data : payload) : option string :=
  match read_payload data with
  | Some (Text u, _) => if Js.startsWith "http" u then Some u else None
  | _ => None
  end.

(** No crawler but the current one is running. *)
Definition one_runs (c : connection) : Prop :=
  forall i s, crawlers c !! i = Some s -> isRunning s = true ->
              crawler c = Some i.

(** A connection on which a second crawl is requested while the first
    one waits for its front page, and three requests that start no
    crawl: [{}], [{url: 42}] and [null]. *)
Module Visit.

Definition second : string := "https://example.com/b".

Definition events : list event :=
  [OnStartCrawl (UrlString Demo.home);
   Resume 0 (PageDone Demo.front_page);
   OnStartCrawl (UrlString second);
   Resume 0 (LinkDone 0 (Response 404));
   Resume 1 (PageDone (Page 200 "image/png" []))].

Definition no_url : payload := Request Missing None ∅.

Definition number_url : payload := Request NoText None ∅.

End Visit.

(** * Properties *)

(** ** The embedding on concrete inputs *)

Example endsWith_subdomain :
  Js.endsWith ".example.com" "www.example.com" = true.
Proof. reflexivity. Qed.

Example includes_html :
  Js.includes "text/html" "text/html; charset=utf-8" = true
  /\ Js.includes "text/html" "image/png" = false.
Proof. split; reflexivity. Qed.

Example isAllowed_subdomain_not_lookalike :
  isAllowed "www.example.com" ["example.com"%string] = true
  /\ isAllowed "notexample.com" ["example.com"%string] = false.
Proof. split; reflexivity. Qed.

Example normalizeUrl_strips_fragment :
  normalizeUrl (U := SampleUrl.lib) "https://example.com/a?x=1#top"
  = Some "https://example.com/a?x=1"%string.
Proof. reflexivity. Qed.

Example resolve_against_page :
  resolve (U := SampleUrl.lib) "/b#top" "https://example.com/a"
  = Some "https://example.com/b"%string
  /\ resolve (U := SampleUrl.lib) "mailto:me@example.com"
       "https://example.com/a" = Some "mailto:me@example.com"%string.
Proof. split; reflexivity. Qed.

(** The demo session: four pages are dequeued, three links are reported
    and [start] has returned. *)
Example demo_session :
  (s0 ← Demo.crawl Demo.defaults;
   s ← run (U := SampleUrl.lib) s0 Demo.deliveries;
   Some (progress_urls (trace s), b_status <$> brokenLinks s, pc s))
  = Some (["https://example.com/"; "https://example.com/a";
           "https://example.com/b"; "httpx://example.com/c"]%string,
          [Code 404; Code 500; ErrorMarker], Returned).
Proof. vm_compute. reflexivity. Qed.

(** ** External-link verification *)

Lemma since_app (s s' : state) (acts : list action) :
  trace s' = trace s ++ acts -> since s s' = acts.
Proof. intros E. unfold since. rewrite E. apply drop_app_length. Qed.

Lemma lookup_snoc {A} (l : list A) (x : A) : (l ++ [x]) !! length l = Some x.
Proof. by rewrite list_lookup_middle. Qed.

Lemma insert_snoc {A} (l : list A) (x y : A) :
  <[length l := y]> (l ++ [x]) = l ++ [y].
Proof.
  rewrite insert_app_r_alt by lia. by rewrite Nat.sub_diag.
Qed.

(** What a verification adds after its HEAD request, by cases on the
    outcomes of its requests. *)
Definition after_head (u src : string) (head get : http_result)
    : list action :=
  let report st :=
    Emit_broken {| b_url := u; b_status := st; b_source := src |} in
  match head with
  | Failure => [report ErrorMarker]
  | Response h =>
      if (400 <=? h) && negb (h =? 405) then
        Link_get u ::
        match get with
        | Failure => [report ErrorMarker]
        | Response g => if 400 <=? g then [report (Code g)] else []
        end
      else if 400 <=? h then [report (Code h)] else []
  end.

Lemma verification_effect (u src : string) (head get : http_result)
    (s : state) :
  let s' := verification u src head get s in
  trace s' = trace s ++ Link_head u :: after_head u src head get /\
  brokenLinks s' = brokenLinks s ++ reports (after_head u src head get).
Proof.
  unfold verification, link_done, checkExternalLink, after_head.
  cbn [tasks set_tasks emit set_trace].
  rewrite lookup_snoc. cbn [t_pc check_resume t_url t_source].
  destruct head as [h|].
  - destruct ((400 <=? h) && negb (h =? 405)) eqn:Eh.
    + cbn [tasks set_tasks emit set_trace]. rewrite insert_snoc, lookup_snoc.
      cbn [t_pc check_resume t_url t_source].
      destruct get as [g|]; unfold check_verdict;
        [destruct (400 <=? g)|]; cbn;
        rewrite <- ?app_assoc, ?app_nil_r; done.
    + unfold check_verdict. destruct (400 <=? h); cbn;
        rewrite insert_snoc, lookup_snoc; cbn;
        rewrite <- ?app_assoc, ?app_nil_r; done.
  - cbn. rewrite insert_snoc, lookup_snoc. cbn.
    rewrite <- ?app_assoc, ?app_nil_r; done.
Qed.

(** ** Frames

    Most of the code only appends to the trace and to the queues.  The
    relation [extends d s s'] says that [s'] is [s] up to such additions:
    the visited set, the counters of the page loop, the configuration, the
    running flag and the suspension point of [start] are the same; the
    frontier gained entries of depth [d + 1] at most; the trace gained
    actions other than progress events, page fetches, HTML loads and the
    finished event; [brokenLinks] gained the reports among them; and the
    accounting of the suspended calls is kept. *)

Lemma extends_refl (d : Z) (s : state) : extends d s s.
Proof.
  split; try done; exists []; rewrite ?app_nil_r; auto.
Qed.

Lemma reports_app (t1 t2 : list action) :
  reports (t1 ++ t2) = reports t1 ++ reports t2.
Proof. apply omap_app. Qed.

Lemma extends_trans (d : Z) (s1 s2 s3 : state) :
  extends d s1 s2 -> extends d s2 s3 -> extends d s1 s3.
Proof.
  intros [? ? ? ? ? ? ? ? (a1 & Hq1 & Ha1) (t1 & Ht1 & Hf1 & Hb1) ?]
         [? ? ? ? ? ? ? ? (a2 & Hq2 & Ha2) (t2 & Ht2 & Hf2 & Hb2) ?].
  split; try congruence; [| |auto].
  - exists (a1 ++ a2). rewrite Hq2, Hq1, app_assoc. split; [done|].
    by apply Forall_app.
  - exists (t1 ++ t2). rewrite Ht2, Ht1, Hb2, Hb1, reports_app, !app_assoc.
    split; [done|]. split; [by apply Forall_app|done].
Qed.

(** One-step extensions, in the form that composes under [auto]. *)

Lemma extends_one (d : Z) (s s0 s' : state) :
  extends d s0 s' -> extends d s s0 -> extends d s s'.
Proof. intros H1 H2. by eapply extends_trans. Qed.

Ltac silent :=
  intros; eapply extends_one; [|eassumption];
  split; try done; exists []; cbn; rewrite ?app_nil_r; auto.

Lemma extends_set_externalCheckQueue d s s0 v :
  extends d s s0 -> extends d s (set_externalCheckQueue v s0).
Proof. silent. Qed.

Lemma extends_set_isProcessingExternal d s s0 v :
  extends d s s0 -> extends d s (set_isProcessingExternal v s0).
Proof. silent. Qed.

Lemma extends_set_checkedLinks d s s0 v :
  extends d s s0 -> extends d s (set_checkedLinks v s0).
Proof. silent. Qed.

Lemma extends_emit d s s0 a :
  quiet a = true -> reports [a] = [] ->
  extends d s s0 -> extends d s (emit a s0).
Proof.
  intros Hq Hr H. eapply extends_one; [|exact H].
  split; try done.
  - exists []. rewrite app_nil_r. auto.
  - exists [a]. split; [done|]. split; [by constructor|].
    by rewrite Hr, app_nil_r.
Qed.

Lemma extends_reportBroken d s s0 u st src :
  extends d s s0 -> extends d s (reportBroken u st src s0).
Proof.
  intros H. eapply extends_one; [|exact H].
  split; try done; [exists []|eexists [_]]; cbn; rewrite ?app_nil_r; auto.
Qed.

Lemma extends_push d s s0 u :
  extends d s s0 ->
  extends d s (set_queue (queue s0 ++ [{| url := u; depth := d + 1 |}]) s0).
Proof.
  intros H. eapply extends_one; [|exact H].
  split; try done; [eexists [_]|exists []]; cbn; rewrite ?app_nil_r; auto.
Qed.

Create HintDb ext discriminated.
#[export] Hint Resolve extends_refl extends_set_externalCheckQueue
  extends_set_isProcessingExternal extends_set_checkedLinks
  extends_reportBroken extends_push : ext.
#[export] Hint Extern 1 (extends _ _ (emit _ _)) =>
  apply extends_emit; [reflexivity | reflexivity |] : ext.

(** One dispatch of the drain loop: a slot is free, the counter is
    incremented and the call is started. *)
Lemma extends_dispatch d s s0 u src :
  activeRequests s0 < maxConcurrency s0 ->
  extends d s s0 ->
  extends d s
    (checkExternalLink u src
       (set_activeRequests (activeRequests s0 + 1) s0)).
Proof.
  intros Hlt H. eapply extends_one; [|exact H].
  split; try done.
  - exists []. rewrite app_nil_r. auto.
  - exists [Link_head u]. split; [done|]. split; [by constructor|].
    cbn. by rewrite app_nil_r.
  - unfold conc_ok. cbn. rewrite length_app. cbn. lia.
Qed.

Lemma extends_drain_loop d pending s s0 :
  extends d s s0 -> extends d s (drain_loop pending s0).
Proof.
  revert s0. induction pending as [|item rest IH]; intros s0 H; cbn; [done|].
  destruct ((activeRequests s0 <? maxConcurrency s0) && isRunning s0)
    eqn:Hc; [|done].
  apply andb_prop in Hc as [Hc%Z.ltb_lt _].
  apply IH. apply (extends_dispatch d s (set_externalCheckQueue rest s0));
    auto with ext.
Qed.
#[export] Hint Resolve extends_drain_loop : ext.

Lemma extends_processExternalQueue d s s0 :
  extends d s s0 -> extends d s (processExternalQueue s0).
Proof.
  intros. unfold processExternalQueue. case_match; auto with ext.
Qed.
#[export] Hint Resolve extends_processExternalQueue : ext.

Lemma extends_check_resume d s s0 t r :
  extends d s s0 -> extends d s (check_resume t r s0).1.
Proof.
  intros. unfold check_resume, check_verdict.
  repeat case_match; cbn; auto with ext.
Qed.

(** Replacing a suspended call keeps the accounting. *)
Lemma extends_replace_task d s s0 i t :
  extends d s s0 -> extends d s (set_tasks (<[i := t]> (tasks s0)) s0).
Proof.
  intros H. eapply extends_one; [|exact H].
  split; try done; try (exists []; cbn; rewrite ?app_nil_r; by auto).
  unfold conc_ok. cbn. by rewrite length_insert.
Qed.

Lemma extends_link_done d s i r s' :
  link_done i r s = Some s' -> extends d s s'.
Proof.
  unfold link_done. intros H.
  destruct (tasks s !! i) as [t|]; [|done].
  pose proof (extends_check_resume d s s t r (extends_refl d s)) as He.
  destruct (check_resume t r s) as [s1 next]. cbn in He.
  destruct (t_pc t); inversion H; subst; by apply extends_replace_task.
Qed.

(** Removing a settled call and decrementing the counter keeps the
    accounting. *)
Lemma extends_retire d s i t :
  tasks s !! i = Some t ->
  extends d s
    (set_activeRequests (activeRequests s - 1)
       (set_tasks (delete i (tasks s)) s)).
Proof.
  intros Hi. split; try done; try (exists []; cbn; rewrite ?app_nil_r; by auto).
  unfold conc_ok. cbn. intros (? & ? & ?).
  pose proof (lookup_lt_Some _ _ _ Hi). rewrite length_delete by eauto. lia.
Qed.

Lemma extends_finally_run d s i s' :
  finally_run i s = Some s' -> extends d s s'.
Proof.
  unfold finally_run. intros H.
  destruct (tasks s !! i) as [t|] eqn:Hi; [|done].
  destruct (t_pc t); inversion H; subst.
  unfold finally_callback. cbn.
  apply extends_processExternalQueue. by eapply extends_retire.
Qed.

Section ExtendsLinks.
Context {U : UrlLib}.

Lemma extends_classify d s s0 cur a :
  extends d s s0 -> extends d s (classify cur d a s0).1.
Proof.
  intros. unfold classify. repeat case_match; cbn; auto with ext.
  apply (extends_push d s (set_checkedLinks _ s0)). auto with ext.
Qed.

Lemma extends_each_link d s s0 cur href :
  extends d s s0 -> extends d s (each_link cur d href s0).1.
Proof.
  intros. unfold each_link. repeat case_match; cbn; auto.
  by apply extends_classify.
Qed.

Lemma extends_each d s s0 cur hrefs :
  extends d s s0 -> extends d s (each cur d hrefs s0).1.
Proof.
  revert s0. induction hrefs as [|href rest IH]; intros s0 H; cbn; [done|].
  pose proof (extends_each_link d s s0 cur href H) as H1.
  destruct (each_link cur d href s0) as [s1 thrown]. cbn in H1.
  destruct thrown; [done|]. by apply IH.
Qed.

End ExtendsLinks.

(** ** The page loop, case by case *)

Lemma set_queue_id (s : state) : set_queue (queue s) s = s.
Proof. by destruct s. Qed.

(** The comparisons of numbers. *)
Lemma lt_spec (x y : Q) : Js.lt x y = true <-> (x < y)%Q.
Proof.
  unfold Js.lt. rewrite negb_true_iff. split.
  - intros H. apply Qnot_le_lt. intros Hle.
    apply Qle_bool_iff in Hle. congruence.
  - intros H. destruct (Qle_bool y x) eqn:E; [|done].
    apply Qle_bool_iff in E. by apply Qlt_not_le in H.
Qed.

Lemma ge_spec (x y : Q) : Js.ge x y = true <-> (y <= x)%Q.
Proof. apply Qle_bool_iff. Qed.

Lemma lt_false (x y : Q) : Js.lt x y = false <-> (y <= x)%Q.
Proof.
  unfold Js.lt. rewrite negb_false_iff. apply Qle_bool_iff.
Qed.

Lemma ge_false (x y : Q) : Js.ge x y = false <-> (x < y)%Q.
Proof.
  rewrite <- lt_spec. unfold Js.lt, Js.ge. by rewrite negb_true_iff.
Qed.

(** A whole number is below a budget exactly when it is below the budget
    rounded up. *)
Lemma lt_ceiling (n : Z) (x : Q) : (inject_Z n < x)%Q <-> n < Qceiling x.
Proof.
  split.
  - intros H. rewrite Zlt_Qlt. eapply Qlt_le_trans; [exact H|].
    apply Qle_ceiling.
  - intros H. eapply Qle_lt_trans; [|apply Qceiling_lt].
    rewrite <- Zle_Qle. lia.
Qed.


Lemma ge_ceiling (n : Z) (x : Q) : (x <= inject_Z n)%Q <-> Qceiling x <= n.
Proof.
  split.
  - intros H. destruct (Z_lt_le_dec n (Qceiling x)) as [Hlt|]; [|done].
    apply lt_ceiling in Hlt. by apply Qlt_not_le in Hlt.
  - intros H. apply Qnot_lt_le. intros Hlt%lt_ceiling. lia.
Qed.

(** A run of the loop condition either dequeues a page that was not visited
    (after skipping visited ones) and suspends at its fetch, or leaves the
    loop for the drain-wait phase. *)
Lemma main_loop_cases (q : list target) (s : state) :
  queue s = q ->
  (exists skipped item rest,
      q = skipped ++ item :: rest /\
      isRunning s = true /\
      (inject_Z (crawledCount s) < maxPages s)%Q /\
      (url item ∉ visited s) /\
      main_loop q s = visit item (set_queue rest s)) \/
  (exists skipped rest,
      q = skipped ++ rest /\
      (rest = [] \/ isRunning s = false
       \/ (maxPages s <= inject_Z (crawledCount s))%Q) /\
      main_loop q s = drain_wait (set_queue rest s)).
Proof.
  revert s. induction q as [|item rest IH]; intros s Hq; cbn.
  - right. exists [], []. split; [done|]. split; [auto|].
    by rewrite <- Hq, set_queue_id.
  - destruct (isRunning s && Js.lt (inject_Z (crawledCount s)) (maxPages s))
      eqn:Hc.
    + apply andb_prop in Hc as [Hr Hc%lt_spec].
      destruct (bool_decide (url item ∈ visited s)) eqn:Hv.
      * destruct (IH (set_queue rest s) eq_refl)
          as [(sk & it & re & -> & ? & ? & ? & E)
             |(sk & re & -> & ? & E)]; [left|right].
        -- exists (item :: sk), it, re. rewrite E. auto.
        -- exists (item :: sk), re. rewrite E. auto.
      * apply bool_decide_eq_false in Hv.
        left. exists [], item, rest. auto.
    + right. exists [], (item :: rest). split; [done|]. split.
      * apply andb_false_iff in Hc as [Hr|Hc%lt_false]; auto.
      * by rewrite <- Hq, set_queue_id.
Qed.

Lemma loop_head_cases (s : state) :
  (exists skipped item rest,
      queue s = skipped ++ item :: rest /\
      isRunning s = true /\
      (inject_Z (crawledCount s) < maxPages s)%Q /\
      (url item ∉ visited s) /\
      loop_head s = visit item (set_queue rest s)) \/
  (exists skipped rest,
      queue s = skipped ++ rest /\
      (rest = [] \/ isRunning s = false
       \/ (maxPages s <= inject_Z (crawledCount s))%Q) /\
      loop_head s = drain_wait (set_queue rest s)).
Proof. apply main_loop_cases. done. Qed.

(** [drain_wait] either ends the session or suspends at the poll. *)
Lemma drain_wait_cases (s : state) :
  drain_wait s = finish s \/
  (isRunning s = true /\ drain_wait s = set_pc AtDrain (emit (Sleep 500) s)).
Proof.
  unfold drain_wait. destruct (isRunning s); repeat case_match; auto.
Qed.

(** Invariants of the machine transfer to every state of a run. *)
Lemma run_invariant {U : UrlLib} (P : state -> Prop) :
  (forall s l s', P s -> step s l = Some s' -> P s') ->
  forall ls s s', P s -> run s ls = Some s' -> P s'.
Proof.
  intros Hstep ls. induction ls as [|l ls IH]; intros s s' HP Hrun; cbn in *.
  - by inversion Hrun; subst.
  - destruct (step s l) as [s1|] eqn:E; [|done]. eauto.
Qed.

(** A frame at every depth adds nothing to the frontier. *)
Lemma extends_same_queue (s s' : state) :
  (forall d, extends d s s') -> queue s' = queue s.
Proof.
  intros H. destruct (H 0) as [_ _ _ _ _ _ _ _ (a0 & Hq0 & Ha0) _].
  destruct (H 1) as [_ _ _ _ _ _ _ _ (a1 & Hq1 & Ha1) _].
  rewrite Hq0 in Hq1. apply app_inv_head in Hq1. subst a1.
  destruct a0 as [|t a0]; [by rewrite app_nil_r in Hq0|].
  apply Forall_cons in Ha0 as [? _]. apply Forall_cons in Ha1 as [? _]. lia.
Qed.

Lemma step_shape {U : UrlLib} (s s' : state) (l : label) :
  step s l = Some s' ->
  match l with
  | PageDone _ | TimerFired => main_shape s s'
  | LinkDone _ _ | FinallyRun _ => forall d, extends d s s'
  | StopCrawl => s' = emit (Emit_log LogStopped) (set_isRunning false s)
  | Cancel => s' = set_isRunning false s
  end.
Proof.
  destruct l as [r| |i r|i| |]; cbn; intros H.
  - destruct (pc s) as [|u d| | | |] eqn:Hpc; inversion H; subst; clear H.
    unfold resume_fetch. destruct r as [st ct hrefs|].
    + destruct (400 <=? st).
      { apply shape_loop; [eauto|]. auto with ext. }
      destruct (negb (Js.includes "text/html" ct)).
      { apply shape_loop; [eauto|]. auto with ext. }
      destruct (Js.ge (inject_Z d) (maxDepth s)) eqn:Hd.
      { apply shape_loop; [eauto|]. auto with ext. }
      apply ge_false in Hd.
      pose proof (extends_each d _ _ u hrefs
                    (extends_refl d (emit (Html_load u d) s))) as He.
      destruct (each u d hrefs (emit (Html_load u d) s)) as [s2 thrown].
      cbn in He.
      destruct thrown; unfold catch_fetch, polite_delay;
        eapply shape_extracted; eauto with ext.
    + unfold catch_fetch, polite_delay.
      eapply shape_caught; eauto with ext.
  - destruct (pc s) eqn:Hpc; inversion H; subst; clear H.
    + apply shape_loop; [auto|]. auto with ext.
    + apply shape_drain; [auto|]. auto with ext.
  - intros d. by eapply extends_link_done.
  - intros d. by eapply extends_finally_run.
  - by inversion H.
  - by inversion H.
Qed.

(** ** Observations and appended actions *)

Lemma progress_depths_app (t1 t2 : list action) :
  progress_depths (t1 ++ t2) = progress_depths t1 ++ progress_depths t2.
Proof. apply omap_app. Qed.

Lemma progress_urls_app (t1 t2 : list action) :
  progress_urls (t1 ++ t2) = progress_urls t1 ++ progress_urls t2.
Proof. apply omap_app. Qed.

Lemma page_gets_app (t1 t2 : list action) :
  page_gets (t1 ++ t2) = page_gets t1 ++ page_gets t2.
Proof. apply omap_app. Qed.

Lemma finished_payloads_app (t1 t2 : list action) :
  finished_payloads (t1 ++ t2) = finished_payloads t1 ++ finished_payloads t2.
Proof. apply omap_app. Qed.

Lemma html_loads_app (t1 t2 : list action) :
  html_loads (t1 ++ t2) = html_loads t1 ++ html_loads t2.
Proof. apply omap_app. Qed.

Lemma sleeps_app (t1 t2 : list action) :
  sleeps (t1 ++ t2) = sleeps t1 ++ sleeps t2.
Proof. apply omap_app. Qed.

Lemma quiet_observations (acts : list action) :
  Forall (fun a => quiet a = true) acts ->
  progress_urls acts = [] /\ page_gets acts = [] /\
  finished_payloads acts = [] /\ html_loads acts = [] /\
  progress_depths acts = [].
Proof.
  induction 1 as [|a acts Ha _ IH]; [done|].
  destruct IH as (? & ? & ? & ? & ?). by destruct a; cbn in *.
Qed.

Create Rewrite HintDb obs.
#[export] Hint Rewrite progress_urls_app page_gets_app finished_payloads_app
  html_loads_app reports_app sleeps_app progress_depths_app @app_nil_r : obs.

(** What a frame leaves of the observations. *)
Lemma extends_observations (d : Z) (s s' : state) :
  extends d s s' ->
  progress_urls (trace s') = progress_urls (trace s) /\
  page_gets (trace s') = page_gets (trace s) /\
  finished_payloads (trace s') = finished_payloads (trace s) /\
  html_loads (trace s') = html_loads (trace s) /\
  progress_depths (trace s') = progress_depths (trace s).
Proof.
  intros [_ _ _ _ _ _ _ _ _ (acts & Ht & Hq & _) _].
  destruct (quiet_observations acts Hq) as (E1 & E2 & E3 & E4 & E5).
  rewrite Ht. autorewrite with obs.
  by rewrite E1, E2, E3, E4, E5, !app_nil_r.
Qed.

(** ** The state in which [start] enters its loop *)

Lemma session_start {U : UrlLib} (startUrl : string) (opts : loc) (h : heap)
    (s0 : state) :
  session startUrl opts h = Some s0 ->
  exists s1, created s1 /\ (s0 = loop_head s1 \/ s0 = set_pc Rejected s1).
Proof.
  unfold session, Crawler.constructor. intros H.
  destruct (h !! opts) as [[|o]|]; try done.
  destruct (Crawler.domains_or_new o h) as [l h1].
  inversion H; subst; clear H. unfold start. cbn [Crawler.startUrl].
  destruct (falsy (normalizeUrl startUrl)).
  - eexists. split; [|right; reflexivity].
    split; cbn; try done; [|by repeat constructor].
    destruct (normalizeUrl startUrl); by repeat constructor.
  - eexists. split; [|left; reflexivity].
    split; cbn; try done; [|by repeat constructor].
    destruct (normalizeUrl startUrl); by repeat constructor.
Qed.

(** ** Invariants of a session

    A property of states holds throughout every session when it holds
    where [start] enters its loop and is kept by frames and by each shape
    of a transition of [start]. *)

Section Invariant.
Context {U : UrlLib}.
Variable I : state -> Prop.

Hypothesis I_created : forall s, created s -> I s.
Hypothesis I_extends :
  forall s s', (forall d, extends d s s') -> I s -> I s'.
Hypothesis I_loop :
  forall s,
    pc s = Created \/ pc s = AtDelay \/ (exists u d, pc s = AtFetch u d) ->
    I s -> I (loop_head s).
Hypothesis I_drain : forall s, pc s = AtDrain -> I s -> I (drain_wait s).
Hypothesis I_caught :
  forall s u d, pc s = AtFetch u d -> I s -> I (set_pc AtDelay s).
Hypothesis I_extracted :
  forall s s1 u d,
    pc s = AtFetch u d -> (inject_Z d < maxDepth s)%Q -> I s ->
    extends d (emit (Html_load u d) s) s1 -> I (set_pc AtDelay s1).
Hypothesis I_rejected :
  forall s, pc s = Created -> I s -> I (set_pc Rejected s).
Hypothesis I_stop : forall s, I s -> I (set_isRunning false s).

Lemma invariant_step (s s' : state) (l : label) :
  I s -> step s l = Some s' -> I s'.
Proof.
  intros HI Hs. apply step_shape in Hs. destruct l.
  - destruct Hs as [s1 Hpc He|u d s1 Hpc He|u d s1 Hpc Hd He|s1 Hpc He].
    + apply I_loop; [|by eapply I_extends].
      rewrite (ext_pc _ _ _ (He 0)). tauto.
    + apply (I_caught _ u d); [|by eapply I_extends].
      by rewrite (ext_pc _ _ _ (He 0)).
    + by eapply I_extracted.
    + apply I_drain; [|by eapply I_extends].
      by rewrite (ext_pc _ _ _ (He 0)).
  - destruct Hs as [s1 Hpc He|u d s1 Hpc He|u d s1 Hpc Hd He|s1 Hpc He].
    + apply I_loop; [|by eapply I_extends].
      rewrite (ext_pc _ _ _ (He 0)). tauto.
    + apply (I_caught _ u d); [|by eapply I_extends].
      by rewrite (ext_pc _ _ _ (He 0)).
    + by eapply I_extracted.
    + apply I_drain; [|by eapply I_extends].
      by rewrite (ext_pc _ _ _ (He 0)).
  - by eapply I_extends.
  - by eapply I_extends.
  - subst s'. eapply I_extends; [|by apply I_stop]. auto with ext.
  - subst s'. by apply I_stop.
Qed.

Lemma invariant_session (startUrl : string) (opts : loc) (h : heap)
    (s0 s : state) (ls : list label) :
  session startUrl opts h = Some s0 -> run s0 ls = Some s -> I s.
Proof.
  intros Hs Hr. eapply (run_invariant I); [|idtac|exact Hr].
  - intros. by eapply invariant_step.
  - apply session_start in Hs as (s1 & Hc & [->| ->]).
    + apply I_loop; [left; apply Hc|auto].
    + apply I_rejected; [apply Hc|auto].
Qed.

End Invariant.

(** ** Pages are visited once and within the budget *)

Lemma pages_ok_same (s s' : state) :
  visited s' = visited s -> crawledCount s' = crawledCount s ->
  maxPages s' = maxPages s ->
  progress_urls (trace s') = progress_urls (trace s) ->
  page_gets (trace s') = page_gets (trace s) ->
  pages_ok s -> pages_ok s'.
Proof. unfold pages_ok. by intros -> -> -> -> ->. Qed.

Lemma pages_ok_extends (d : Z) (s s' : state) :
  extends d s s' -> pages_ok s -> pages_ok s'.
Proof.
  intros He. destruct (extends_observations d s s' He) as (? & ? & _).
  destruct He. by apply pages_ok_same.
Qed.

Lemma pages_ok_drain_wait (s : state) : pages_ok s -> pages_ok (drain_wait s).
Proof.
  destruct (drain_wait_cases s) as [->|[_ ->]]; apply pages_ok_same;
    cbn; autorewrite with obs; done.
Qed.

Lemma pages_ok_visit (item : target) (s : state) :
  url item ∉ visited s -> (inject_Z (crawledCount s) < maxPages s)%Q ->
  pages_ok s -> pages_ok (visit item s).
Proof.
  intros Hv Hc%lt_ceiling (Hnd & Hin & Hpg & Hn & Hle).
  unfold pages_ok, visit. cbn.
  autorewrite with obs. cbn. autorewrite with obs.
  split; [|split; [|split; [|split]]].
  - apply NoDup_app. split; [done|]. split; [|apply NoDup_singleton].
    intros u Hu ->%list_elem_of_singleton. auto.
  - intros u [Hu| ->%list_elem_of_singleton]%elem_of_app; set_solver.
  - by rewrite Hpg.
  - rewrite length_app. cbn. lia.
  - lia.
Qed.

Lemma pages_ok_loop_head (s : state) : pages_ok s -> pages_ok (loop_head s).
Proof.
  intros H.
  destruct (loop_head_cases s)
    as [(sk & item & rest & _ & _ & Hc & Hv & ->)|(sk & rest & _ & _ & ->)].
  - apply pages_ok_visit; [done|done|]. revert H. by apply pages_ok_same.
  - apply pages_ok_drain_wait. revert H. by apply pages_ok_same.
Qed.

Lemma pages_ok_session {U : UrlLib} (startUrl : string) (opts : loc)
    (h : heap) (s0 s : state) (ls : list label) :
  session startUrl opts h = Some s0 -> run s0 ls = Some s -> pages_ok s.
Proof.
  apply (invariant_session pages_ok).
  - intros s1 Hc. destruct (quiet_observations _ (cr_quiet _ Hc)) as (E1 & E2 & _).
    unfold pages_ok. rewrite E1, E2, (cr_count _ Hc). cbn.
    split; [apply NoDup_nil_2|]. split; [by intros u ?%elem_of_nil|].
    split; [done|]. lia.
  - intros s1 s' He. apply (pages_ok_extends 0), He.
  - intros s1 _. apply pages_ok_loop_head.
  - intros s1 _. apply pages_ok_drain_wait.
  - intros s1 u d _. by apply pages_ok_same.
  - intros s1 s2 u d _ _ H He.
    apply (pages_ok_same s2); try done.
    apply (pages_ok_extends d _ _ He).
    revert H. apply pages_ok_same; cbn; autorewrite with obs; done.
  - intros s1 _. by apply pages_ok_same.
  - intros s1. by apply pages_ok_same.
Qed.

(** ** Depths *)






(** ** The finished event *)

Lemma finished_ok_extends (d : Z) (s s' : state) :
  extends d s s' -> finished_ok s -> finished_ok s'.
Proof.
  intros He [Hb Hf].
  destruct (extends_observations d s s' He) as (_ & _ & E3 & _).
  destruct He as [_ _ _ _ _ _ _ Epc _ (acts & Et & Hq & Eb) _].
  destruct (quiet_observations acts Hq) as (_ & _ & Ea & _).
  unfold finished_ok. rewrite Epc, Eb, Hb, E3. split.
  - rewrite Et. by autorewrite with obs.
  - destruct (pc s); try done.
    destruct Hf as (t1 & t2 & Ht & H1 & H2).
    exists t1, (t2 ++ acts). rewrite Et, Ht, <- app_assoc. cbn.
    split; [done|]. split; [done|]. autorewrite with obs. by rewrite H2, Ea.
Qed.

Lemma finished_ok_finish (s : state) :
  pc s <> Returned -> finished_ok s -> finished_ok (finish s).
Proof.
  intros Hpc [Hb Hf]. unfold finished_ok, finish. cbn.
  autorewrite with obs. cbn. autorewrite with obs. split; [done|].
  exists (trace s), [Emit_log LogDone]. rewrite <- app_assoc, Hb. cbn.
  split; [done|]. split; [|done]. by destruct (pc s).
Qed.

Lemma finished_ok_drain_wait (s : state) :
  pc s <> Returned -> finished_ok s -> finished_ok (drain_wait s).
Proof.
  intros Hpc H. destruct (drain_wait_cases s) as [->|[_ ->]].
  - by apply finished_ok_finish.
  - destruct H as [Hb Hf]. unfold finished_ok. cbn. autorewrite with obs.
    cbn. autorewrite with obs. split; [done|]. by destruct (pc s).
Qed.

Lemma finished_ok_loop_head (s : state) :
  pc s <> Returned -> finished_ok s -> finished_ok (loop_head s).
Proof.
  intros Hpc H.
  destruct (loop_head_cases s)
    as [(sk & item & rest & _ & _ & _ & _ & ->)|(sk & rest & _ & _ & ->)].
  - destruct H as [Hb Hf]. unfold finished_ok, visit. cbn.
    autorewrite with obs. cbn. autorewrite with obs. split; [done|].
    by destruct (pc s).
  - by apply finished_ok_drain_wait.
Qed.

Lemma finished_ok_step {U : UrlLib} (s s' : state) (l : label) :
  finished_ok s -> step s l = Some s' -> finished_ok s'.
Proof.
  apply (invariant_step finished_ok); clear s s' l.
  - intros s s' He. apply (finished_ok_extends 0), He.
  - intros s Hpc. apply finished_ok_loop_head.
    destruct Hpc as [->|[->|(u & d & ->)]]; done.
  - intros s Hpc. apply finished_ok_drain_wait. by rewrite Hpc.
  - intros s u d Hpc [Hb Hf]. unfold finished_ok. cbn. by rewrite Hpc in Hf.
  - intros s s1 u d Hpc _ [Hb Hf] He.
    assert (finished_ok s1) as [Hb1 Hf1].
    { apply (finished_ok_extends d _ _ He). unfold finished_ok. cbn.
      autorewrite with obs. cbn. autorewrite with obs. by rewrite Hpc in *. }
    unfold finished_ok. cbn. split; [done|].
    by rewrite (ext_pc _ _ _ He) in Hf1; cbn in Hf1; rewrite Hpc in Hf1.
  - intros s H. exact H.
Qed.

Lemma finished_ok_session {U : UrlLib} (startUrl : string) (opts : loc)
    (h : heap) (s0 s : state) (ls : list label) :
  session startUrl opts h = Some s0 -> run s0 ls = Some s -> finished_ok s.
Proof.
  intros Hs. apply (run_invariant finished_ok).
  { intros. by eapply finished_ok_step. }
  apply session_start in Hs as (s1 & Hc & Hs0).
  assert (finished_ok s1) as H1.
  { destruct (quiet_observations _ (cr_quiet _ Hc)) as (_ & _ & E3 & _).
    unfold finished_ok.
    by rewrite (cr_broken _ Hc), (cr_reports _ Hc), (cr_pc _ Hc). }
  destruct Hs0 as [-> | ->].
  - apply finished_ok_loop_head; [|done]. by rewrite (cr_pc _ Hc).
  - destruct H1 as [Hb Hf]. unfold finished_ok. cbn.
    by rewrite (cr_pc _ Hc) in Hf.
Qed.

(** ** After the running flag is cleared *)

Lemma drain_wait_stopped (s : state) :
  isRunning s = false -> drain_wait s = finish s.
Proof. unfold drain_wait. intros ->. by case_match. Qed.

Lemma loop_head_stopped (s : state) :
  isRunning s = false ->
  exists rest, loop_head s = finish (set_queue rest s).
Proof.
  intros Hr.
  destruct (loop_head_cases s)
    as [(sk & item & rest & _ & Hrun & _)|(sk & rest & _ & _ & ->)];
    [congruence|].
  exists rest. by apply drain_wait_stopped.
Qed.

(** A transition of a stopped session: the flag stays cleared, no page is
    dequeued or fetched, and a resumption of [start] brings it closer to
    its return. *)
Lemma stopped_step {U : UrlLib} (s s' : state) (l : label) :
  isRunning s = false -> awaiting s \/ pc s = Returned ->
  step s l = Some s' ->
  isRunning s' = false /\
  (awaiting s' \/ pc s' = Returned) /\
  progress_urls (trace s') = progress_urls (trace s) /\
  page_gets (trace s') = page_gets (trace s) /\
  (rank (pc s') + (if resumes_start l then 1 else 0) <= rank (pc s))%nat.
Proof.
  intros Hr Hpc Hs. apply step_shape in Hs.
  assert (forall s1, (forall d, extends d s s1) ->
            isRunning s1 = false /\ pc s1 = pc s /\
            progress_urls (trace s1) = progress_urls (trace s) /\
            page_gets (trace s1) = page_gets (trace s)) as Hext.
  { intros s1 He.
    destruct (extends_observations 0 s s1 (He 0)) as (E1 & E2 & _).
    destruct (He 0). repeat split; congruence. }
  assert (forall s1, main_shape s s1 ->
            isRunning s1 = false /\ (awaiting s1 \/ pc s1 = Returned) /\
            progress_urls (trace s1) = progress_urls (trace s) /\
            page_gets (trace s1) = page_gets (trace s) /\
            (rank (pc s1) + 1 <= rank (pc s))%nat) as Hmain.
  { intros ? [s1 Hat He|u d s1 Hat He|u d s1 Hat Hd He|s1 Hat He].
    - destruct (Hext s1 He) as (Hr1 & Hp1 & E1 & E2).
      destruct (loop_head_stopped s1 Hr1) as [rest ->]. cbn.
      autorewrite with obs. cbn. autorewrite with obs.
      repeat split; auto.
      destruct Hat as [->|(u & d & ->)]; cbn; lia.
    - destruct (Hext s1 He) as (Hr1 & Hp1 & E1 & E2). unfold awaiting. cbn.
      rewrite Hat. cbn. repeat split; auto.
    - destruct (extends_observations d _ s1 He) as (E1 & E2 & _).
      cbn in E1, E2. autorewrite with obs in E1, E2. cbn in E1, E2.
      autorewrite with obs in E1, E2.
      destruct He as [_ _ _ _ _ _ Er _ _ _ _]. cbn in Er.
      unfold awaiting. cbn. rewrite Hat. cbn.
      repeat split; auto; congruence.
    - destruct (Hext s1 He) as (Hr1 & Hp1 & E1 & E2).
      rewrite (drain_wait_stopped s1 Hr1). cbn.
      autorewrite with obs. cbn. autorewrite with obs.
      rewrite Hat. cbn. repeat split; auto. }
  destruct l; cbn [resumes_start]; try (by apply Hmain).
  - destruct (Hext s' Hs) as (? & Ep & ? & ?). unfold awaiting.
    rewrite Ep. repeat split; auto. lia.
  - destruct (Hext s' Hs) as (? & Ep & ? & ?). unfold awaiting.
    rewrite Ep. repeat split; auto. lia.
  - subst s'. unfold awaiting. cbn. autorewrite with obs. cbn.
    autorewrite with obs. repeat split; auto. lia.
  - subst s'. unfold awaiting. cbn. repeat split; auto. lia.
Qed.

Lemma stopped_run {U : UrlLib} (ls : list label) (s s' : state) :
  isRunning s = false -> awaiting s \/ pc s = Returned ->
  run s ls = Some s' ->
  isRunning s' = false /\
  (awaiting s' \/ pc s' = Returned) /\
  progress_urls (trace s') = progress_urls (trace s) /\
  page_gets (trace s') = page_gets (trace s) /\
  (rank (pc s') + resumptions ls <= rank (pc s))%nat.
Proof.
  revert s. induction ls as [|l ls IH]; intros s Hr Hpc Hrun; cbn in Hrun.
  - inversion Hrun; subst. cbn. repeat split; auto. lia.
  - destruct (step s l) as [s1|] eqn:Hs; [|done].
    destruct (stopped_step s s1 l Hr Hpc Hs) as (Hr1 & Hpc1 & E1 & E2 & Hk).
    destruct (IH s1 Hr1 Hpc1 Hrun) as (Hr2 & Hpc2 & E3 & E4 & Hk2).
    repeat split; auto; try congruence.
    unfold resumptions in *. cbn. destruct (resumes_start l); cbn; lia.
Qed.

(** A suspended [start] can always be resumed: a page fetch settles with
    any outcome, a timer fires. *)
Lemma awaiting_enabled {U : UrlLib} (s : state) :
  awaiting s ->
  exists l, resumes_start l = true /\ is_Some (step s l).
Proof.
  unfold awaiting. destruct (pc s) as [|u d| | | |] eqn:Hpc; try done; intros _.
  - exists (PageDone PageFailure). cbn. rewrite Hpc. eauto.
  - exists TimerFired. cbn. rewrite Hpc. eauto.
  - exists TimerFired. cbn. rewrite Hpc. eauto.
Qed.

(** ** Concurrency of the external checks *)

Lemma conc_ok_same (s s' : state) :
  maxConcurrency s' = maxConcurrency s ->
  activeRequests s' = activeRequests s -> tasks s' = tasks s ->
  conc_ok s -> conc_ok s'.
Proof. unfold conc_ok. by intros -> -> ->. Qed.

Lemma conc_ok_drain_wait (s : state) : conc_ok s -> conc_ok (drain_wait s).
Proof.
  destruct (drain_wait_cases s) as [->|[_ ->]]; by apply conc_ok_same.
Qed.

Lemma conc_ok_loop_head (s : state) : conc_ok s -> conc_ok (loop_head s).
Proof.
  intros H.
  destruct (loop_head_cases s)
    as [(sk & item & rest & _ & _ & _ & _ & ->)|(sk & rest & _ & _ & ->)].
  - revert H. by apply conc_ok_same.
  - apply conc_ok_drain_wait. revert H. by apply conc_ok_same.
Qed.

Lemma conc_ok_session {U : UrlLib} (startUrl : string) (opts : loc)
    (h : heap) (s0 s : state) (ls : list label) :
  session startUrl opts h = Some s0 -> run s0 ls = Some s -> conc_ok s.
Proof.
  apply (invariant_session conc_ok).
  - intros s1 Hc. unfold conc_ok.
    rewrite (cr_conc _ Hc), (cr_active _ Hc), (cr_tasks _ Hc). cbn. lia.
  - intros s1 s' He. apply (ext_conc_ok _ _ _ (He 0)).
  - intros s1 _. apply conc_ok_loop_head.
  - intros s1 _. apply conc_ok_drain_wait.
  - intros s1 u d _. by apply conc_ok_same.
  - intros s1 s2 u d _ _ H He. apply (conc_ok_same s2); try done.
    apply (ext_conc_ok _ _ _ He). revert H. by apply conc_ok_same.
  - intros s1 _. by apply conc_ok_same.
  - intros s1. by apply conc_ok_same.
Qed.

Lemma in_flight_le_tasks (s : state) : (in_flight s <= length (tasks s))%nat.
Proof. unfold in_flight. apply List.filter_length_le. Qed.

(** ** The politeness delay *)

(** Re-entering the loop condition never suspends at the politeness
    delay, and when it suspends at the fetch of the next page it has set
    no timer. *)
Lemma loop_head_no_delay (s : state) :
  exists acts,
    trace (loop_head s) = trace s ++ acts /\
    pc (loop_head s) <> AtDelay /\
    (forall v d, pc (loop_head s) = AtFetch v d -> sleeps acts = []).
Proof.
  destruct (loop_head_cases s)
    as [(sk & item & rest & _ & _ & _ & _ & ->)|(sk & rest & _ & _ & ->)].
  - eexists. unfold visit. cbn. rewrite <- !app_assoc. cbn.
    split; [reflexivity|]. done.
  - destruct (drain_wait_cases (set_queue rest s)) as [->|[_ ->]];
      eexists; cbn; rewrite <- ?app_assoc; (split; [reflexivity|done]).
Qed.

(** ** Which links are classified *)

Lemma checkedLinks_drain_loop (pending : list ext_item) (s : state) :
  checkedLinks (drain_loop pending s) = checkedLinks s.
Proof.
  revert s. induction pending as [|item rest IH]; intros s; cbn; [done|].
  case_match; [|done]. by rewrite IH.
Qed.

Lemma checkedLinks_processExternalQueue (s : state) :
  checkedLinks (processExternalQueue s) = checkedLinks s.
Proof.
  unfold processExternalQueue. case_match; [done|]. cbn.
  by rewrite checkedLinks_drain_loop.
Qed.

Lemma checkedLinks_classify {U : UrlLib} (cur : string) (d : Z) (a : string)
    (s : state) :
  checkedLinks (classify cur d a s).1 = {[a]} ∪ checkedLinks s.
Proof.
  unfold classify. repeat case_match; cbn; try done.
  by rewrite checkedLinks_processExternalQueue.
Qed.

Lemma prefix_cons (c b : ascii) (p a : string) :
  String.prefix (String c p) (String b a)
  = if ascii_dec c b then String.prefix p a else false.
Proof. reflexivity. Qed.

(** Cutting a string at the first character of a kind keeps a prefix
    free of that kind. *)
Lemma prefix_break (f : ascii -> bool) (p a : string) :
  Forall (fun c => f c = false) (String.list_ascii_of_string p) ->
  String.prefix p a = true -> String.prefix p (break f a).1 = true.
Proof.
  revert a. induction p as [|c p IH]; intros a Hf Hp.
  - by destruct (break f a).1.
  - destruct a as [|b a]; [done|].
    rewrite prefix_cons in Hp. destruct (ascii_dec c b) as [<-|]; [|done].
    apply Forall_cons in Hf as [Hc Hf].
    change (break f (String c a))
      with (if f c then (EmptyString, String c a)
            else let (x, y) := break f a in (String c x, y)).
    rewrite Hc. specialize (IH a Hf Hp).
    destruct (break f a) as [x y]. cbn [fst] in *.
    rewrite prefix_cons. by destruct (ascii_dec c c).
Qed.

(** A string that begins with [http] has a scheme that begins with
    [http]. *)
Lemma startsWith_http_scheme (a : string) :
  Js.startsWith "http" a = true -> Js.startsWith "http" (scheme_of a) = true.
Proof.
  apply prefix_break. by repeat constructor.
Qed.

(** * The claims *)

(** ** C1: A HEAD request answered with 405 *)

(** C1 (the code departs from it).  The claim asks that a HEAD answered
    with 405 is followed by a GET before anything is reported, and that
    nothing is reported when that GET would return 200.  The code excludes
    405 from the fallback: on a HEAD answered with 405 it issues no GET at
    all and reports the link as broken with status 405, whatever a GET
    would have returned. *)
Theorem C1_head_405_reported_without_get (u src : string)
    (get : http_result) (s : state) :
  let s' := verification u src (Response 405) get s in
  since s s' =
    [Link_head u;
     Emit_broken {| b_url := u; b_status := Code 405; b_source := src |}]
  /\ link_gets (since s s') = []
  /\ brokenLinks s' =
       brokenLinks s
       ++ [{| b_url := u; b_status := Code 405; b_source := src |}].
Proof.
  destruct (verification_effect u src (Response 405) get s) as [Ht Hb].
  cbn zeta. rewrite (since_app _ _ _ Ht), Hb. done.
Qed.

(** ** C2: The verdict of an external-link verification *)

(** C2.  In every external-link verification: when the HEAD status is at
    least 400 and not 405, exactly one GET is issued and its status decides
    (at least 400: one report with that status; below 400: no report);
    without a retry the HEAD status decides in the same way; a transport
    failure of the HEAD or of the GET request gives one report that carries
    the error marker.  [brokenLinks] grows by exactly the reports made. *)
Theorem C2_get_retry_and_verdict (u src : string) (head get : http_result)
    (s : state) :
  let s' := verification u src head get s in
  let acts := since s s' in
  let report st := {| b_url := u; b_status := st; b_source := src |} in
  (forall h, head = Response h -> 400 <= h -> h <> 405 ->
     link_gets acts = [u] /\
     (forall g, get = Response g -> 400 <= g ->
                reports acts = [report (Code g)]) /\
     (forall g, get = Response g -> g < 400 -> reports acts = []) /\
     (get = Failure -> reports acts = [report ErrorMarker])) /\
  (forall h, head = Response h -> h < 400 \/ h = 405 ->
     link_gets acts = [] /\
     (400 <= h -> reports acts = [report (Code h)]) /\
     (h < 400 -> reports acts = [])) /\
  (head = Failure ->
     link_gets acts = [] /\ reports acts = [report ErrorMarker]) /\
  brokenLinks s' = brokenLinks s ++ reports acts.
Proof.
  destruct (verification_effect u src head get s) as [Ht Hb].
  cbn zeta. rewrite (since_app _ _ _ Ht), Hb. clear Ht Hb.
  unfold after_head. repeat split.
  - destruct get; subst; cbn; case_match; cbn;
      repeat case_match; cbn; try done; lia.
  - intros g -> Hg. subst head.
    replace ((400 <=? h) && negb (h =? 405)) with true by lia.
    replace (400 <=? g) with true by lia. done.
  - intros g -> Hg. subst head.
    replace ((400 <=? h) && negb (h =? 405)) with true by lia.
    replace (400 <=? g) with false by lia. done.
  - intros ->. subst head.
    replace ((400 <=? h) && negb (h =? 405)) with true by lia. done.
  - subst head.
    replace ((400 <=? h) && negb (h =? 405)) with false by lia.
    case_match; done.
  - intros Hh. subst head.
    replace ((400 <=? h) && negb (h =? 405)) with false by lia.
    replace (400 <=? h) with true by lia. done.
  - intros Hh. subst head.
    replace ((400 <=? h) && negb (h =? 405)) with false by lia.
    replace (400 <=? h) with false by lia. done.
  - subst head. done.
  - subst head. done.
Qed.

(** C2 at a HEAD answered with 404 and a GET answered with 500. *)
Lemma C2_witness :
  let s := {| queue := []; visited := ∅; checkedLinks := ∅;
              brokenLinks := []; isRunning := true; maxPages := 50;
              maxDepth := 3; allowedDomains := []; domainsIsArray := true;
              crawledCount := 0;
              activeRequests := 0; maxConcurrency := 5;
              externalCheckQueue := []; isProcessingExternal := false;
              pc := AtDelay; tasks := []; trace := [] |} in
  let acts := since s (verification "http://x.org/" "http://a.org/"
                         (Response 404) (Response 500) s) in
  link_gets acts = ["http://x.org/"%string] /\
  reports acts = [{| b_url := "http://x.org/"; b_status := Code 500;
                     b_source := "http://a.org/" |}].
Proof.
  intros s acts.
  destruct (C2_get_retry_and_verdict "http://x.org/" "http://a.org/"
              (Response 404) (Response 500) s) as [H _].
  destruct (H 404 eq_refl ltac:(lia) ltac:(lia)) as [Hg [Hr _]].
  split; [exact Hg | exact (Hr 500 eq_refl ltac:(lia))].
Defined.

(** ** C3: The politeness delay *)

(** C3 (the code departs from it).  The claim asks for the 500 ms delay
    at the end of every iteration.  When the fetched page is broken
    (status 400 or more), is not HTML, or is at the depth limit, the
    iteration ends in [continue]: the loop condition is evaluated at once,
    [start] is not suspended at the delay, and when it goes on to the next
    page no timer was set between the two fetches. *)
Theorem C3_continue_skips_delay {U : UrlLib} (s s' : state) (u : string)
    (d st : Z) (ct : string) (hrefs : list (option string)) :
  pc s = AtFetch u d ->
  400 <= st \/ Js.includes "text/html" ct = false
  \/ (maxDepth s <= inject_Z d)%Q ->
  step s (PageDone (Page st ct hrefs)) = Some s' ->
  pc s' <> AtDelay /\
  (forall v d', pc s' = AtFetch v d' -> sleeps (since s s') = []).
Proof.
  intros Hpc Hc Hs. unfold step in Hs. rewrite Hpc in Hs.
  inversion Hs; subst; clear Hs.
  assert (forall s1 a,
            trace s1 = trace s ++ a -> sleeps a = [] ->
            pc (loop_head s1) <> AtDelay /\
            (forall v d', pc (loop_head s1) = AtFetch v d' ->
                          sleeps (since s (loop_head s1)) = [])) as Hloop.
  { intros s1 a Ha Hsa.
    destruct (loop_head_no_delay s1) as (acts & Ht & Hnd & Hsl).
    split; [done|]. intros v d' Hv.
    rewrite (since_app s _ (a ++ acts)) by (by rewrite Ht, Ha, app_assoc).
    by rewrite sleeps_app, Hsa, (Hsl v d' Hv). }
  unfold resume_fetch.
  destruct (400 <=? st) eqn:Hst.
  - by apply (Hloop _ [Emit_broken {| b_url := u; b_status := Code st;
                                        b_source := "seed" |}]).
  - apply Z.leb_gt in Hst.
    destruct (negb (Js.includes "text/html" ct)) eqn:Hct.
    { apply (Hloop s []); [by rewrite app_nil_r|done]. }
    apply negb_false_iff in Hct.
    destruct (Js.ge (inject_Z d) (maxDepth s)) eqn:Hd.
    { apply (Hloop s []); [by rewrite app_nil_r|done]. }
    apply ge_false in Hd.
    destruct Hc as [?|[?|?]]; [lia|congruence|by apply Qlt_not_le in Hd].
Qed.

(** C3 on the demo session: [/a] answers 404 and [/b] is fetched at
    once. *)
Lemma C3_witness :
  exists s0 s s',
    Demo.crawl Demo.defaults = Some s0 /\
    run (U := SampleUrl.lib) s0 Demo.until_a = Some s /\
    step (U := SampleUrl.lib) s (PageDone (Page 404 "text/html" []))
      = Some s' /\
    pc s = AtFetch "https://example.com/a" 1 /\
    pc s' = AtFetch "https://example.com/b" 1 /\
    pc s' <> AtDelay /\
    (forall v d', pc s' = AtFetch v d' -> sleeps (since s s') = []).
Proof.
  eexists _, _, _. split; [vm_compute; reflexivity|].
  split; [vm_compute; reflexivity|].
  split; [vm_compute; reflexivity|].
  split; [vm_compute; reflexivity|].
  split; [vm_compute; reflexivity|].
  eapply (C3_continue_skips_delay (U := SampleUrl.lib) _ _
            "https://example.com/a" 1 404 "text/html" []).
  - vm_compute; reflexivity.
  - left. lia.
  - vm_compute; reflexivity.
Defined.

(** ** C4: Which links are classified *)

(** C4 (the code departs from it).  The claim asks that only [http:] and
    [https:] URLs are classified.  The guard of the callback does not
    look at the scheme: it tests whether the resolved URL begins with
    the four characters [http].  A new link is classified (marked
    checked, then enqueued or submitted to the external check) exactly
    when its resolved URL begins with [http], whatever the scheme, and is
    discarded otherwise.  So a link whose scheme does not begin with
    [http] ([mailto:], [javascript:], [ftp:]) is discarded as the claim
    says, but a link whose scheme merely begins with [http], such as
    [httpx:], is classified. *)
Theorem C4_guard_tests_prefix_not_scheme {U : UrlLib} (cur : string)
    (d : Z) (h a : string) (s : state) :
  h <> ""%string -> resolve h cur = Some a -> a ∉ checkedLinks s ->
  (Js.startsWith "http" a = true ->
   each_link cur d (Some h) s = classify cur d a s /\
   a ∈ checkedLinks (classify cur d a s).1) /\
  (Js.startsWith "http" a = false ->
   each_link cur d (Some h) s = (s, false)) /\
  (Js.startsWith "http" (scheme_of a) = false ->
   each_link cur d (Some h) s = (s, false)).
Proof.
  intros Hh Hr Hc.
  assert (Js.startsWith "http" a = false ->
          each_link cur d (Some h) s = (s, false)) as Hno.
  { intros Hp. unfold each_link.
    destruct (falsy (Some h)); [done|].
    cbn [from_option id default]. rewrite Hr. cbn [from_option id default].
    by rewrite Hp, orb_true_r. }
  split; [|split; [done|]].
  - intros Hp. unfold each_link.
    assert (falsy (Some h) = false) as ->.
    { cbn. by apply bool_decide_eq_false_2. }
    cbn [from_option id default]. rewrite Hr. cbn [from_option id default].
    rewrite Hp.
    assert (falsy (Some a) = false) as ->.
    { cbn. apply bool_decide_eq_false_2. intros ->. by vm_compute in Hp. }
    cbn [negb orb]. rewrite bool_decide_eq_false_2 by done.
    split; [done|]. rewrite checkedLinks_classify.
    apply elem_of_union_l. by apply elem_of_singleton.
  - intros Hsch. apply Hno.
    destruct (Js.startsWith "http" a) eqn:Hp; [|done].
    apply startsWith_http_scheme in Hp. congruence.
Qed.

(** C4 on the front page [https://example.com/] and the href
    [httpx://example.com/c]: the scheme is [httpx], and the link is
    entered into the frontier at depth 1. *)
Lemma C4_witness :
  exists s0,
    Demo.crawl Demo.defaults = Some s0 /\
    resolve (U := SampleUrl.lib) "httpx://example.com/c" Demo.home
    = Some "httpx://example.com/c"%string /\
    scheme_of "httpx://example.com/c" = "httpx"%string /\
    queue (each_link (U := SampleUrl.lib) Demo.home 0
             (Some "httpx://example.com/c"%string) s0).1
    = [{| url := "httpx://example.com/c"; depth := 1 |}] /\
    (Js.startsWith "http" "httpx://example.com/c" = true ->
     each_link (U := SampleUrl.lib) Demo.home 0
       (Some "httpx://example.com/c"%string) s0
     = classify (U := SampleUrl.lib) Demo.home 0 "httpx://example.com/c" s0 /\
     "httpx://example.com/c"%string
       ∈ checkedLinks (classify (U := SampleUrl.lib) Demo.home 0
                         "httpx://example.com/c" s0).1) /\
    (Js.startsWith "http" "httpx://example.com/c" = false ->
     each_link (U := SampleUrl.lib) Demo.home 0
       (Some "httpx://example.com/c"%string) s0 = (s0, false)) /\
    (Js.startsWith "http" (scheme_of "httpx://example.com/c") = false ->
     each_link (U := SampleUrl.lib) Demo.home 0
       (Some "httpx://example.com/c"%string) s0 = (s0, false)).
Proof.
  eexists. split; [vm_compute; reflexivity|].
  split; [vm_compute; reflexivity|]. split; [vm_compute; reflexivity|].
  split; [vm_compute; reflexivity|].
  eapply (C4_guard_tests_prefix_not_scheme (U := SampleUrl.lib) Demo.home 0
            "httpx://example.com/c" "httpx://example.com/c").
  - discriminate.
  - vm_compute; reflexivity.
  - exact (not_elem_of_empty _).
Defined.

(** ** C5: No page twice *)

(** C5.  In the trace of a session no URL has two progress events and no
    page is fetched twice: every URL with a progress event is in the
    visited set, and the loop dequeues for processing only URLs that are
    not in it. *)
Theorem C5_no_url_twice_in_progress {U : UrlLib} (startUrl : string)
    (opts : loc) (h : heap) (s0 s : state) (ls : list label) :
  session startUrl opts h = Some s0 -> run s0 ls = Some s ->
  NoDup (progress_urls (trace s)) /\
  NoDup (page_gets (trace s)) /\
  (forall u, u ∈ progress_urls (trace s) -> u ∈ visited s).
Proof.
  intros Hs Hr.
  destruct (pages_ok_session _ _ _ _ _ _ Hs Hr) as (Hnd & Hin & Hpg & _).
  rewrite Hpg. auto.
Qed.

(** C5 on the demo session. *)
Lemma C5_witness :
  exists s0 s,
    Demo.crawl Demo.defaults = Some s0 /\
    run (U := SampleUrl.lib) s0 Demo.deliveries = Some s /\
    NoDup (progress_urls (trace s)).
Proof.
  eexists _, _. split; [vm_compute; reflexivity|].
  split; [vm_compute; reflexivity|].
  eapply (C5_no_url_twice_in_progress (U := SampleUrl.lib) Demo.home
            1%positive (Demo.store Demo.defaults) _ _ Demo.deliveries).
  - vm_compute; reflexivity.
  - vm_compute; reflexivity.
Defined.

(** ** C6: The depth limit *)




(** ** C7: The page budget *)

(** C7, as stated, fails for a page budget that is no whole number and
    for a negative one.  With [maxPages = 0.5] the loop admits the seed
    (0 is below 0.5) and the count becomes 1; with [maxPages = -1] the
    loop is never entered and the count 0 exceeds the budget. *)
Lemma C7_counterexample :
  (exists s0,
     Demo.crawl {| opt_maxPages := Some 0.5%Q; opt_maxDepth := None;
                   opt_allowedDomains := None |} = Some s0 /\
     crawledCount s0 = 1 /\
     ~ (inject_Z (crawledCount s0) <= maxPages s0)%Q) /\
  (exists s0,
     Demo.crawl {| opt_maxPages := Some (-1)%Q; opt_maxDepth := None;
                   opt_allowedDomains := None |} = Some s0 /\
     crawledCount s0 = 0 /\
     ~ (inject_Z (crawledCount s0) <= maxPages s0)%Q).
Proof.
  split.
  - eexists. split; [vm_compute; reflexivity|].
    split; [vm_compute; reflexivity|].
    intros H. apply Qle_bool_iff in H. vm_compute in H. discriminate H.
  - eexists. split; [vm_compute; reflexivity|].
    split; [vm_compute; reflexivity|].
    intros H. apply Qle_bool_iff in H. vm_compute in H. discriminate H.
Qed.

(** C7 (amended).  At every point of a session the number of pages
    crawled (dequeued, marked visited, announced by a progress event and
    fetched) is [crawledCount]; it is at most [maxPages] rounded up to a
    whole number when [maxPages] is not negative, so at most [maxPages]
    itself when that is a whole number, and it is 0 when [maxPages] is
    negative. *)
Theorem C7_pages_within_budget {U : UrlLib} (startUrl : string)
    (opts : loc) (h : heap) (s0 s : state) (ls : list label) :
  session startUrl opts h = Some s0 -> run s0 ls = Some s ->
  crawledCount s = Z.of_nat (length (progress_urls (trace s))) /\
  crawledCount s = Z.of_nat (length (page_gets (trace s))) /\
  crawledCount s <= Z.max 0 (Qceiling (maxPages s)) /\
  (forall n : Z, (maxPages s == inject_Z n)%Q ->
                 crawledCount s <= Z.max 0 n).
Proof.
  intros Hs Hr.
  destruct (pages_ok_session _ _ _ _ _ _ Hs Hr) as (_ & _ & Hpg & Hn & Hle).
  rewrite Hpg. split; [done|]. split; [done|]. split; [done|].
  intros n En. by rewrite (Qceiling_comp _ _ En), Qceiling_Z in Hle.
Qed.

(** C7 (amended) on the demo session: three pages, budget 50. *)
Lemma C7_witness :
  exists s0 s,
    Demo.crawl Demo.defaults = Some s0 /\
    run (U := SampleUrl.lib) s0 Demo.deliveries = Some s /\
    crawledCount s = Z.of_nat (length (progress_urls (trace s))) /\
    crawledCount s = Z.of_nat (length (page_gets (trace s))) /\
    crawledCount s <= Z.max 0 (Qceiling (maxPages s)) /\
    (forall n : Z, (maxPages s == inject_Z n)%Q ->
                   crawledCount s <= Z.max 0 n).
Proof.
  eexists _, _. split; [vm_compute; reflexivity|].
  split; [vm_compute; reflexivity|].
  eapply (C7_pages_within_budget (U := SampleUrl.lib) Demo.home
            1%positive (Demo.store Demo.defaults) _ _ Demo.deliveries).
  - vm_compute; reflexivity.
  - vm_compute; reflexivity.
Defined.

(** ** C8: The concurrency ceiling *)

(** C8.  At every point of a session at most 5 external verifications
    are in flight: [activeRequests] is the number of [checkExternalLink]
    calls whose [finally] callback has not run, it never exceeds the
    ceiling 5, and the calls with a pending request are among them. *)
Theorem C8_at_most_five_in_flight {U : UrlLib} (startUrl : string)
    (opts : loc) (h : heap) (s0 s : state) (ls : list label) :
  session startUrl opts h = Some s0 -> run s0 ls = Some s ->
  activeRequests s = Z.of_nat (length (tasks s)) /\
  activeRequests s <= 5 /\
  (in_flight s <= 5)%nat.
Proof.
  intros Hs Hr.
  destruct (conc_ok_session _ _ _ _ _ _ Hs Hr) as (Hc & Ha & Hle).
  pose proof (in_flight_le_tasks s). split; [done|]. lia.
Qed.

(** C8 on the demo session. *)
Lemma C8_witness :
  exists s0 s,
    Demo.crawl Demo.defaults = Some s0 /\
    run (U := SampleUrl.lib) s0 Demo.deliveries = Some s /\
    (in_flight s <= 5)%nat.
Proof.
  eexists _, _. split; [vm_compute; reflexivity|].
  split; [vm_compute; reflexivity|].
  eapply (C8_at_most_five_in_flight (U := SampleUrl.lib) Demo.home
            1%positive (Demo.store Demo.defaults) _ _ Demo.deliveries).
  - vm_compute; reflexivity.
  - vm_compute; reflexivity.
Defined.

(** ** C9: Stopping a crawl *)

(** C9.  Once the running flag is cleared while [start] is suspended:
    no progress event and no page fetch is added; [start] can always be
    resumed until it has returned, and it has returned after two
    resumptions at most (the pending page fetch and the delay, or one
    timer); no finished event is emitted before it returns, and when it
    has returned the trace holds exactly one, which carries the reports
    made before it. *)
Theorem C9_stop_then_finished_once {U : UrlLib} (startUrl : string)
    (opts : loc) (h : heap) (s0 s s' : state) (ls ls' : list label) :
  session startUrl opts h = Some s0 -> run s0 ls = Some s ->
  awaiting s -> isRunning s = false ->
  run s ls' = Some s' ->
  progress_urls (trace s') = progress_urls (trace s) /\
  page_gets (trace s') = page_gets (trace s) /\
  (pc s' = Returned \/
   exists l, resumes_start l = true /\ is_Some (step s' l)) /\
  ((2 <= resumptions ls')%nat -> pc s' = Returned) /\
  (pc s' <> Returned -> finished_payloads (trace s') = []) /\
  (pc s' = Returned ->
   exists t1 t2,
     trace s' = t1 ++ Emit_finished (reports t1) :: t2 /\
     finished_payloads (trace s') = [reports t1]).
Proof.
  intros Hs Hr Haw Hstop Hr'.
  destruct (stopped_run ls' s s' Hstop (or_introl Haw) Hr')
    as (_ & Hpc' & E1 & E2 & Hk).
  assert (finished_ok s') as [_ Hf].
  { eapply (run_invariant finished_ok); [|idtac|exact Hr'].
    - intros. by eapply finished_ok_step.
    - by eapply finished_ok_session. }
  split; [done|]. split; [done|]. split; [|split; [|split]].
  - destruct Hpc' as [Ha|Hret]; [right|by left]. by apply awaiting_enabled.
  - intros H2. destruct Hpc' as [Ha|Hret]; [|done]. exfalso.
    assert (rank (pc s) <= 2)%nat by (destruct (pc s); cbn; lia).
    unfold awaiting in Ha. destruct (pc s'); cbn in Hk; try done; lia.
  - intros Hne. by destruct (pc s').
  - intros Hret. rewrite Hret in Hf. destruct Hf as (t1 & t2 & Ht & H1 & H2).
    exists t1, t2. split; [done|]. rewrite Ht, finished_payloads_app, H1.
    cbn. change (omap _ t2) with (finished_payloads t2). by rewrite H2.
Qed.

(** C9 on the demo session: the crawl is stopped during the fetch of the
    third page and returns after the fetch and the delay. *)
Lemma C9_witness :
  exists s0 s s',
    Demo.crawl Demo.defaults = Some s0 /\
    run (U := SampleUrl.lib) s0 Demo.until_stop = Some s /\
    run (U := SampleUrl.lib) s Demo.after_stop = Some s' /\
    pc s' = Returned /\
    progress_urls (trace s') = progress_urls (trace s) /\
    page_gets (trace s') = page_gets (trace s) /\
    (pc s' = Returned \/
     exists l, resumes_start l = true /\
               is_Some (step (U := SampleUrl.lib) s' l)) /\
    ((2 <= resumptions Demo.after_stop)%nat -> pc s' = Returned) /\
    (pc s' <> Returned -> finished_payloads (trace s') = []) /\
    (pc s' = Returned ->
     exists t1 t2,
       trace s' = t1 ++ Emit_finished (reports t1) :: t2 /\
       finished_payloads (trace s') = [reports t1]).
Proof.
  eexists _, _, _. split; [vm_compute; reflexivity|].
  split; [vm_compute; reflexivity|].
  split; [vm_compute; reflexivity|].
  split; [vm_compute; reflexivity|].
  eapply (C9_stop_then_finished_once (U := SampleUrl.lib) Demo.home
            1%positive (Demo.store Demo.defaults) _ _ _ Demo.until_stop
            Demo.after_stop).
  - vm_compute; reflexivity.
  - vm_compute; reflexivity.
  - vm_compute. exact I.
  - vm_compute; reflexivity.
  - vm_compute; reflexivity.
Defined.

(** ** C10: The constructor and the options of the caller *)

(** C10.  When the caller's options carry an allowedDomains array that
    lacks the host of the (valid) start URL, the constructor appends the
    host to that very array: the crawler holds the caller's reference, no
    array is allocated, the caller's array now ends with the host, and the
    options object and every other object are as they were. *)
Theorem C10_constructor_pushes_into_callers_array {U : UrlLib}
    (startUrl : string) (opts : loc) (h : heap) (o : options) (l : loc)
    (elems : list string) (u : string) (p : parsed) :
  h !! opts = Some (Options o) ->
  opt_allowedDomains o = Some l ->
  h !! l = Some (Array elems) ->
  normalizeUrl startUrl = Some u ->
  URL_new u = Some p ->
  URL_hostname p ∉ elems ->
  exists this h',
    Crawler.constructor startUrl opts h = Some (this, h') /\
    Crawler.allowedDomains this = l /\
    h' !! l = Some (Array (elems ++ [URL_hostname p])) /\
    h' !! opts = Some (Options o) /\
    (forall l', l' <> l -> h' !! l' = h !! l') /\
    dom h' = dom h.
Proof.
  intros Ho Hl Ha Hn Hp Hnotin.
  assert (opts <> l) as Hne by (intros ->; congruence).
  unfold Crawler.constructor, Crawler.domains_or_new.
  rewrite Ho, Hl, Hn. cbn [Crawler.add_start_host].
  rewrite Hp, Ha. rewrite bool_decide_eq_false_2 by done.
  eexists _, _. split; [reflexivity|]. cbn.
  split; [done|]. split; [by rewrite lookup_insert_eq|].
  split; [by rewrite lookup_insert_ne|].
  split; [by intros l' Hl'; rewrite lookup_insert_ne|].
  rewrite dom_insert_L. apply subseteq_union_1_L, singleton_subseteq_l.
  by apply elem_of_dom_2 in Ha.
Qed.

(** C10 on the options [{allowedDomains: ["other.org"]}] and the start
    URL [https://example.com/]. *)
Lemma C10_witness :
  let o := {| opt_maxPages := None; opt_maxDepth := None;
              opt_allowedDomains := Some 2%positive |} in
  let h : heap :=
    <[1%positive := Options o]>
      (<[2%positive := Array ["other.org"%string]]> ∅) in
  exists this h',
    Crawler.constructor (U := SampleUrl.lib) "https://example.com/"
      1%positive h = Some (this, h') /\
    Crawler.allowedDomains this = 2%positive /\
    h' !! 2%positive = Some (Array ["other.org"; "example.com"]%string).
Proof.
  intros o h.
  destruct (C10_constructor_pushes_into_callers_array
              (U := SampleUrl.lib) "https://example.com/" 1%positive h o
              2%positive ["other.org"%string] "https://example.com/"
              {| SampleUrl.scheme := "https";
                 SampleUrl.authority := Some "example.com"%string;
                 SampleUrl.path := "/"; SampleUrl.hash := "" |})
    as (this & h' & Hc & Hd & Hl & _).
  - reflexivity.
  - reflexivity.
  - reflexivity.
  - vm_compute. reflexivity.
  - vm_compute. reflexivity.
  - intros H%list_elem_of_singleton. discriminate H.
  - exists this, h'. split; [exact Hc|]. split; [exact Hd|exact Hl].
Defined.

(** * Further properties *)

(** ** The list of broken links *)

(** X1.  At every point of a session [brokenLinks] is the sequence of the
    broken-link events emitted so far, in the order of emission. *)
Theorem X1_broken_links_are_the_reports {U : UrlLib} (startUrl : string)
    (opts : loc) (h : heap) (s0 s : state) (ls : list label) :
  session startUrl opts h = Some s0 -> run s0 ls = Some s ->
  brokenLinks s = reports (trace s).
Proof.
  intros Hs Hr. by destruct (finished_ok_session _ _ _ _ _ _ Hs Hr).
Qed.

Lemma X1_witness :
  exists s0 s,
    Demo.crawl Demo.defaults = Some s0 /\
    run (U := SampleUrl.lib) s0 Demo.deliveries = Some s /\
    brokenLinks s = reports (trace s).
Proof.
  eexists _, _. split; [vm_compute; reflexivity|].
  split; [vm_compute; reflexivity|].
  eapply (X1_broken_links_are_the_reports (U := SampleUrl.lib) Demo.home
            1%positive (Demo.store Demo.defaults) _ _ Demo.deliveries).
  - vm_compute; reflexivity.
  - vm_compute; reflexivity.
Defined.

(** ** What only grows *)

Lemma grows_refl (s : state) : grows s s.
Proof. unfold grows. repeat split; (done || lia). Qed.

Lemma grows_trans (s1 s2 s3 : state) :
  grows s1 s2 -> grows s2 s3 -> grows s1 s3.
Proof.
  unfold grows. intros (? & ? & ? & ? & ? & ? & ? & ?)
                       (? & ? & ? & ? & ? & ? & ? & ?).
  repeat split; try congruence; try lia; try (by etrans).
Qed.

Lemma grows_extends (d : Z) (s s' : state) : extends d s s' -> grows s s'.
Proof.
  intros [Ev Ec Emp Emd Ecc Ed _ _ _ (acts & Et & _ & Eb) _].
  unfold grows. rewrite Ev, Ec, Et, Eb.
  repeat split; try done; try lia; by eexists.
Qed.

Lemma grows_finish (s : state) : grows s (finish s).
Proof.
  unfold grows, finish. cbn. rewrite <- app_assoc.
  repeat split; try done; try lia. by eexists.
Qed.

Lemma grows_drain_wait (s : state) : grows s (drain_wait s).
Proof.
  destruct (drain_wait_cases s) as [->|[_ ->]]; [apply grows_finish|].
  unfold grows. cbn. repeat split; try done; try lia. by eexists.
Qed.

Lemma grows_loop_head (s : state) : grows s (loop_head s).
Proof.
  destruct (loop_head_cases s)
    as [(sk & item & rest & _ & _ & _ & _ & ->)|(sk & rest & _ & _ & ->)].
  - unfold grows, visit. cbn. rewrite <- !app_assoc.
    repeat split; try done; try lia; [by eexists|set_solver].
  - apply (grows_trans _ (set_queue rest s)); [|apply grows_drain_wait].
    unfold grows. cbn. repeat split; (done || lia).
Qed.

Lemma grows_step {U : UrlLib} (s s' : state) (l : label) :
  step s l = Some s' -> grows s s'.
Proof.
  intros Hs.
  eapply (invariant_step (grows s)); [| | | | | |apply grows_refl|exact Hs].
  - intros s1 s2 He H. eapply grows_trans; [exact H|].
    apply (grows_extends 0), He.
  - intros s1 _ H. eapply grows_trans; [exact H|apply grows_loop_head].
  - intros s1 _ H. eapply grows_trans; [exact H|apply grows_drain_wait].
  - intros s1 u d _ H. eapply grows_trans; [exact H|].
    unfold grows. cbn. repeat split; (done || lia).
  - intros s1 s2 u d _ _ H He. eapply grows_trans; [exact H|].
    apply (grows_trans _ (emit (Html_load u d) s1)).
    { unfold grows. cbn. repeat split; try done; try lia. by eexists. }
    apply (grows_trans _ s2); [by eapply grows_extends|].
    unfold grows. cbn. repeat split; (done || lia).
  - intros s1 H. eapply grows_trans; [exact H|].
    unfold grows. cbn. repeat split; (done || lia).
Qed.

Lemma grows_run {U : UrlLib} (s s' : state) (ls : list label) :
  run s ls = Some s' -> grows s s'.
Proof.
  intros Hr. eapply (run_invariant (grows s)); [|apply grows_refl|exact Hr].
  intros s1 l s2 H Hs. eapply grows_trans; [exact H|by eapply grows_step].
Qed.

(** X2.  Whatever is delivered, a session only adds: the earlier trace
    and the earlier [brokenLinks] are prefixes of the later ones (records
    are never removed, reordered or rewritten), the visited set and the
    page count never shrink, and the budgets, the concurrency ceiling and
    the allowed domains never change. *)
Theorem X2_append_only {U : UrlLib} (s s' : state) (ls : list label) :
  run s ls = Some s' ->
  trace s `prefix_of` trace s' /\
  brokenLinks s `prefix_of` brokenLinks s' /\
  visited s ⊆ visited s' /\
  crawledCount s <= crawledCount s' /\
  maxPages s' = maxPages s /\ maxDepth s' = maxDepth s /\
  maxConcurrency s' = maxConcurrency s /\
  allowedDomains s' = allowedDomains s.
Proof. apply grows_run. Qed.

Lemma X2_witness :
  exists s0 s,
    Demo.crawl Demo.defaults = Some s0 /\
    run (U := SampleUrl.lib) s0 Demo.deliveries = Some s /\
    trace s0 `prefix_of` trace s /\
    brokenLinks s0 `prefix_of` brokenLinks s /\
    visited s0 ⊆ visited s /\
    crawledCount s0 <= crawledCount s /\
    maxPages s = maxPages s0 /\ maxDepth s = maxDepth s0 /\
    maxConcurrency s = maxConcurrency s0 /\
    allowedDomains s = allowedDomains s0.
Proof.
  eexists _, _. split; [vm_compute; reflexivity|].
  split; [vm_compute; reflexivity|].
  eapply (X2_append_only (U := SampleUrl.lib) _ _ Demo.deliveries).
  vm_compute; reflexivity.
Defined.

(** ** The count of a progress event *)

Lemma progress_counts_app (t1 t2 : list action) :
  progress_counts (t1 ++ t2) = progress_counts t1 ++ progress_counts t2.
Proof. apply omap_app. Qed.

Lemma quiet_progress_counts (acts : list action) :
  Forall (fun a => quiet a = true) acts -> progress_counts acts = [].
Proof.
  induction 1 as [|a acts Ha _ IH]; [done|]. by destruct a; cbn in *.
Qed.

Lemma counts_ok_same (s s' : state) :
  crawledCount s' = crawledCount s ->
  progress_counts (trace s') = progress_counts (trace s) ->
  counts_ok s -> counts_ok s'.
Proof. unfold counts_ok. by intros -> ->. Qed.

Lemma counts_ok_extends (d : Z) (s s' : state) :
  extends d s s' -> counts_ok s -> counts_ok s'.
Proof.
  intros [_ Ec _ _ _ _ _ _ _ (acts & Et & Hq & _) _].
  apply counts_ok_same; [done|].
  by rewrite Et, progress_counts_app, (quiet_progress_counts _ Hq), app_nil_r.
Qed.

Lemma counts_ok_drain_wait (s : state) :
  counts_ok s -> counts_ok (drain_wait s).
Proof.
  destruct (drain_wait_cases s) as [->|[_ ->]]; apply counts_ok_same;
    cbn; rewrite ?progress_counts_app, ?app_nil_r; done.
Qed.

Lemma counts_ok_loop_head (s : state) :
  counts_ok s -> counts_ok (loop_head s).
Proof.
  intros H.
  destruct (loop_head_cases s)
    as [(sk & item & rest & _ & _ & _ & _ & ->)|(sk & rest & _ & _ & ->)].
  - destruct H as [H0 Hc]. unfold counts_ok, visit. cbn.
    rewrite !progress_counts_app. cbn. rewrite !app_nil_r, Hc.
    split; [lia|].
    replace (Z.to_nat (crawledCount s + 1))
      with (S (Z.to_nat (crawledCount s))) by lia.
    rewrite seq_S, fmap_app. cbn. do 3 f_equal. lia.
  - apply counts_ok_drain_wait. revert H. by apply counts_ok_same.
Qed.

(** X3.  The [count] field of the progress events of a session runs
    1, 2, 3, ... without gap or repetition, and the last one is the
    current [crawledCount]. *)
Theorem X3_progress_counts_are_consecutive {U : UrlLib} (startUrl : string)
    (opts : loc) (h : heap) (s0 s : state) (ls : list label) :
  session startUrl opts h = Some s0 -> run s0 ls = Some s ->
  progress_counts (trace s)
  = Z.of_nat <$> seq 1 (Z.to_nat (crawledCount s)).
Proof.
  intros Hs Hr. eapply (invariant_session counts_ok); [..|exact Hs|exact Hr].
  - intros s1 Hc. unfold counts_ok.
    rewrite (cr_count _ Hc), (quiet_progress_counts _ (cr_quiet _ Hc)). done.
  - intros s1 s' He. apply (counts_ok_extends 0), He.
  - intros s1 _. apply counts_ok_loop_head.
  - intros s1 _. apply counts_ok_drain_wait.
  - intros s1 u d _. by apply counts_ok_same.
  - intros s1 s2 u d _ _ H He. apply (counts_ok_same s2); try done.
    apply (counts_ok_extends d _ _ He). revert H.
    apply counts_ok_same; [done|].
    cbn. by rewrite progress_counts_app, app_nil_r.
  - intros s1 _. by apply counts_ok_same.
  - intros s1. by apply counts_ok_same.
Qed.

Lemma X3_witness :
  exists s0 s,
    Demo.crawl Demo.defaults = Some s0 /\
    run (U := SampleUrl.lib) s0 Demo.deliveries = Some s /\
    progress_counts (trace s)
    = Z.of_nat <$> seq 1 (Z.to_nat (crawledCount s)).
Proof.
  eexists _, _. split; [vm_compute; reflexivity|].
  split; [vm_compute; reflexivity|].
  eapply (X3_progress_counts_are_consecutive (U := SampleUrl.lib) Demo.home
            1%positive (Demo.store Demo.defaults) _ _ Demo.deliveries).
  - vm_compute; reflexivity.
  - vm_compute; reflexivity.
Defined.

(** ** The cost of one verification *)

(** X4.  Whatever the outcomes of its requests, one external-link
    verification issues exactly one HEAD request, at most one GET request
    and at most one report, the report is for the verified URL with the
    referring page as source, and nothing else is emitted. *)
Theorem X4_verification_is_bounded (u src : string)
    (head get : http_result) (s : state) :
  let acts := since s (verification u src head get s) in
  link_heads acts = [u] /\
  (length (link_gets acts) <= 1)%nat /\
  (length (reports acts) <= 1)%nat /\
  Forall (fun b => b_url b = u /\ b_source b = src) (reports acts) /\
  (length acts <= 3)%nat /\
  progress_urls acts = [] /\ page_gets acts = [] /\
  finished_payloads acts = [].
Proof.
  destruct (verification_effect u src head get s) as [Ht _].
  cbn zeta. rewrite (since_app _ _ _ Ht). unfold after_head.
  destruct head as [hd|]; [destruct ((400 <=? hd) && negb (hd =? 405));
    [destruct get as [g|]; [destruct (400 <=? g)|]|destruct (400 <=? hd)]|];
    cbn; repeat split; try lia; by repeat constructor.
Qed.

(** ** The constructor *)

Lemma start_config (this : Crawler.t) (h : heap) :
  maxPages (start this h) = Crawler.maxPages this /\
  maxDepth (start this h) = Crawler.maxDepth this /\
  maxConcurrency (start this h) = Crawler.maxConcurrency this /\
  allowedDomains (start this h)
  = read_domains (Crawler.allowedDomains this) h.
Proof.
  unfold start. case_match; [done|].
  match goal with |- context [loop_head ?x] =>
    destruct (grows_loop_head x) as (_ & _ & _ & _ & -> & -> & -> & ->) end.
  done.
Qed.

(** X5.  Throughout a session the budgets are the ones the constructor
    derived from the options and are never 0: a missing budget and an
    explicit 0 both give the default (50 pages, depth 3), every other
    number, negative ones and fractions included, is taken as it is, and
    the concurrency ceiling is 5 whatever the options say. *)
Theorem X5_budgets_of_a_session {U : UrlLib} (startUrl : string)
    (opts : loc) (h : heap) (o : options) (s0 s : state) (ls : list label) :
  h !! opts = Some (Options o) ->
  session startUrl opts h = Some s0 -> run s0 ls = Some s ->
  ~ (maxPages s == 0)%Q /\ ~ (maxDepth s == 0)%Q /\ maxConcurrency s = 5 /\
  (opt_maxPages o = None \/ (exists n, opt_maxPages o = Some n /\ (n == 0)%Q)
   -> maxPages s = 50%Q) /\
  (opt_maxDepth o = None \/ (exists n, opt_maxDepth o = Some n /\ (n == 0)%Q)
   -> maxDepth s = 3%Q) /\
  (forall n, opt_maxPages o = Some n -> ~ (n == 0)%Q -> maxPages s = n) /\
  (forall n, opt_maxDepth o = Some n -> ~ (n == 0)%Q -> maxDepth s = n).
Proof.
  intros Ho Hs Hr.
  destruct (grows_run _ _ _ Hr) as (_ & _ & _ & _ & -> & -> & -> & _).
  clear Hr. revert Hs. unfold session, Crawler.constructor. rewrite Ho.
  destruct (Crawler.domains_or_new o h) as [l h1]. intros [= <-].
  match goal with |- context [start ?t ?hp] =>
    destruct (start_config t hp) as (-> & -> & -> & _) end.
  cbn. unfold Js.or_default.
  assert (forall (x : option Q) (d : Q),
            ~ (d == 0)%Q ->
            ~ (match x with
               | Some n => if Qeq_bool n 0 then d else n
               | None => d
               end == 0)%Q) as Hnz.
  { intros [n|] d Hd; [|done].
    destruct (Qeq_bool n 0) eqn:E; [done|]. by apply Qeq_bool_neq in E. }
  split; [by apply Hnz|]. split; [by apply Hnz|]. split; [done|].
  split; [|split; [|split]].
  - intros [-> |(n & -> & Hn)]; [done|]. by rewrite (Qeq_eq_bool _ _ Hn).
  - intros [-> |(n & -> & Hn)]; [done|]. by rewrite (Qeq_eq_bool _ _ Hn).
  - intros n -> Hn. destruct (Qeq_bool n 0) eqn:E; [|done].
    by apply Qeq_bool_eq in E.
  - intros n -> Hn. destruct (Qeq_bool n 0) eqn:E; [|done].
    by apply Qeq_bool_eq in E.
Qed.

Lemma X5_witness :
  let o := {| opt_maxPages := Some 0%Q; opt_maxDepth := Some (-2.5)%Q;
              opt_allowedDomains := None |} in
  exists s0 s,
    Demo.crawl o = Some s0 /\
    run (U := SampleUrl.lib) s0 [Cancel] = Some s /\
    ~ (maxPages s == 0)%Q /\ ~ (maxDepth s == 0)%Q /\ maxConcurrency s = 5 /\
    (opt_maxPages o = None \/ (exists n, opt_maxPages o = Some n /\ (n == 0)%Q)
     -> maxPages s = 50%Q) /\
    (opt_maxDepth o = None \/ (exists n, opt_maxDepth o = Some n /\ (n == 0)%Q)
     -> maxDepth s = 3%Q) /\
    (forall n, opt_maxPages o = Some n -> ~ (n == 0)%Q -> maxPages s = n) /\
    (forall n, opt_maxDepth o = Some n -> ~ (n == 0)%Q -> maxDepth s = n).
Proof.
  intros o. eexists _, _. split; [vm_compute; reflexivity|].
  split; [vm_compute; reflexivity|].
  eapply (X5_budgets_of_a_session (U := SampleUrl.lib) Demo.home
            1%positive (Demo.store o) o _ _ [Cancel]).
  - reflexivity.
  - vm_compute; reflexivity.
  - vm_compute; reflexivity.
Defined.

(** With an [allowedDomains] that is no array (here the options object
    itself), the first link of a page that passes the guards makes
    [allowedDomains.some] throw into the [catch] of [start]: the page is
    reported with the status ['Error'], nothing is enqueued and no link is
    checked. *)
Example domains_no_array :
  let o := {| opt_maxPages := None; opt_maxDepth := None;
              opt_allowedDomains := Some 1%positive |} in
  exists s0 s,
    Demo.crawl o = Some s0 /\
    run (U := SampleUrl.lib) s0 [PageDone Demo.front_page] = Some s /\
    pc s = AtDelay /\ queue s = [] /\ link_heads (trace s) = [] /\
    brokenLinks s = [{| b_url := Demo.home; b_status := ErrorMarker;
                        b_source := "seed" |}].
Proof.
  intros o. eexists _, _. split; [vm_compute; reflexivity|].
  split; [vm_compute; reflexivity|]. repeat split; vm_compute; reflexivity.
Qed.

(** X6.  After the construction the host of a valid start URL is in the
    list of allowed domains the crawler reads, whether the caller gave
    no list, a list without the host or a list with it (provided that
    what the caller gave is an array). *)
Theorem X6_start_host_is_allowed {U : UrlLib} (startUrl : string)
    (opts : loc) (h h' : heap) (o : options) (this : Crawler.t)
    (u : string) (p : parsed) :
  h !! opts = Some (Options o) ->
  (forall l, opt_allowedDomains o = Some l ->
             exists elems, h !! l = Some (Array elems)) ->
  normalizeUrl startUrl = Some u -> URL_new u = Some p ->
  Crawler.constructor startUrl opts h = Some (this, h') ->
  URL_hostname p ∈ read_domains (Crawler.allowedDomains this) h' /\
  isAllowed (URL_hostname p)
    (read_domains (Crawler.allowedDomains this) h') = true.
Proof.
  intros Ho Harr Hn Hp. unfold Crawler.constructor. rewrite Ho, Hn.
  assert (forall l h1, (exists elems, h1 !! l = Some (Array elems)) ->
            URL_hostname p
            ∈ read_domains l (Crawler.add_start_host (Some u) l h1)) as Hin.
  { intros l h1 [elems He]. unfold Crawler.add_start_host, read_domains.
    rewrite Hp, He. case_bool_decide as Hd.
    - by rewrite He.
    - rewrite lookup_insert_eq. apply elem_of_app. right.
      by apply list_elem_of_singleton. }
  assert (forall x ds, x ∈ ds -> isAllowed x ds = true) as Hal.
  { intros x ds Hx. unfold isAllowed, Js.some. apply existsb_exists.
    exists x. split; [by apply list_elem_of_In|].
    by rewrite bool_decide_eq_true_2. }
  unfold Crawler.domains_or_new.
  destruct (opt_allowedDomains o) as [l|] eqn:Hl.
  - intros [= <- <-]. cbn [Crawler.allowedDomains].
    specialize (Hin l h (Harr l eq_refl)). auto.
  - intros [= <- <-]. cbn [Crawler.allowedDomains].
    pose proof (Hin (fresh (dom h)) (<[fresh (dom h) := Array []]> h)
                  ltac:(eexists; apply lookup_insert_eq)). auto.
Qed.

Lemma X6_witness :
  exists this h',
    Crawler.constructor (U := SampleUrl.lib) Demo.home 1%positive
      (Demo.store Demo.defaults) = Some (this, h') /\
    "example.com"%string ∈ read_domains (Crawler.allowedDomains this) h'.
Proof.
  eexists _, _. split; [vm_compute; reflexivity|].
  eapply (X6_start_host_is_allowed (U := SampleUrl.lib) Demo.home 1%positive
            (Demo.store Demo.defaults) _ Demo.defaults _ Demo.home
            {| SampleUrl.scheme := "https";
               SampleUrl.authority := Some "example.com"%string;
               SampleUrl.path := "/"; SampleUrl.hash := "" |}).
  - reflexivity.
  - intros l Hl. discriminate Hl.
  - vm_compute; reflexivity.
  - vm_compute; reflexivity.
  - vm_compute; reflexivity.
Defined.

(** X7.  The constructor writes to the store in one place at most.
    Without a caller's list it allocates a new array at an address that
    was free and leaves every object of the caller as it was; with a
    caller's list that already has the start host, or with a start URL
    that does not parse, it leaves the caller's store unchanged. *)
Theorem X7_constructor_frame {U : UrlLib} (startUrl : string)
    (opts : loc) (h h' : heap) (o : options) (this : Crawler.t) :
  h !! opts = Some (Options o) ->
  Crawler.constructor startUrl opts h = Some (this, h') ->
  (opt_allowedDomains o = None ->
   h !! Crawler.allowedDomains this = None /\
   (exists elems, h' !! Crawler.allowedDomains this = Some (Array elems)) /\
   forall l, l <> Crawler.allowedDomains this -> h' !! l = h !! l) /\
  (forall l, opt_allowedDomains o = Some l ->
   Crawler.allowedDomains this = l /\
   (normalizeUrl startUrl = None -> h' = h) /\
   (forall u p elems,
      normalizeUrl startUrl = Some u -> URL_new u = Some p ->
      h !! l = Some (Array elems) -> URL_hostname p ∈ elems -> h' = h)).
Proof.
  intros Ho. unfold Crawler.constructor, Crawler.domains_or_new. rewrite Ho.
  destruct (opt_allowedDomains o) as [l|] eqn:Hl; intros [= <- <-];
    cbn [Crawler.allowedDomains].
  - split; [done|]. intros l' [= <-]. split; [done|]. split.
    + by intros ->.
    + intros u p elems -> Hp He Hin. cbn. rewrite Hp, He.
      by rewrite bool_decide_eq_true_2.
  - split; [|done]. intros _. set (l := fresh (dom h)).
    assert (h !! l = None) as Hfree
      by (apply not_elem_of_dom, is_fresh).
    split; [done|]. unfold Crawler.add_start_host.
    destruct (normalizeUrl startUrl) as [u|];
      [destruct (URL_new u) as [p|]|];
      rewrite ?lookup_insert_eq; try case_bool_decide;
      rewrite ?lookup_insert_eq;
      (split; [by eexists|]); intros l' Hne;
      rewrite ?lookup_insert_ne by done; done.
Qed.

Lemma X7_witness :
  let h := Demo.store Demo.defaults in
  exists this h',
    Crawler.constructor (U := SampleUrl.lib) Demo.home 1%positive h
    = Some (this, h') /\
    h' !! 1%positive = h !! 1%positive.
Proof.
  intros h.
  destruct (Crawler.constructor (U := SampleUrl.lib) Demo.home 1%positive h)
    as [[this h']|] eqn:E; [|vm_compute in E; discriminate E].
  exists this, h'. split; [reflexivity|].
  destruct (X7_constructor_frame (U := SampleUrl.lib) Demo.home 1%positive
              h h' Demo.defaults this eq_refl E) as [Hnone _].
  destruct (Hnone eq_refl) as (Hfree & _ & Hframe). apply Hframe.
  intros Heq. rewrite <- Heq in Hfree. discriminate Hfree.
Defined.

(** ** How a session begins *)

(** The state [start] works on for a crawler fresh from the
    constructor. *)
Lemma session_entry {U : UrlLib} (startUrl : string) (opts : loc) (h : heap)
    (s0 : state) :
  session startUrl opts h = Some s0 ->
  exists this h',
    Crawler.constructor startUrl opts h = Some (this, h') /\
    s0 = start this h' /\
    Crawler.startUrl this = normalizeUrl startUrl /\
    Crawler.queue this = [(normalizeUrl startUrl, 0)] /\
    Crawler.visited this = ∅ /\ Crawler.brokenLinks this = [] /\
    Crawler.crawledCount this = 0 /\ Crawler.activeRequests this = 0 /\
    Crawler.externalCheckQueue this = [] /\
    Crawler.isRunning this = false /\
    Crawler.isProcessingExternal this = false /\
    Crawler.checkedLinks this = ∅ /\
    Crawler.maxConcurrency this = 5.
Proof.
  unfold session. intros Hs.
  destruct (Crawler.constructor startUrl opts h) as [[this h']|] eqn:Hc;
    [|done].
  injection Hs as <-. exists this, h'. split; [done|]. split; [done|].
  revert Hc. unfold Crawler.constructor.
  destruct (h !! opts) as [[|o]|]; try done.
  destruct (Crawler.domains_or_new o h) as [l h1]. by intros [= <- <-].
Qed.

(** X8.  A start URL that does not parse yields the error event and
    nothing else: the crawler never runs, fetches no page, starts no
    verification, reports nothing and never emits the finished event,
    whatever is delivered afterwards (a stop request only adds its log
    line). *)
Theorem X8_invalid_seed_only_error {U : UrlLib} (startUrl : string)
    (opts : loc) (h : heap) (s0 s : state) (ls : list label) :
  falsy (normalizeUrl startUrl) = true ->
  session startUrl opts h = Some s0 -> run s0 ls = Some s ->
  pc s = Rejected /\ isRunning s = false /\ tasks s = [] /\
  brokenLinks s = [] /\ crawledCount s = 0 /\
  (exists k, trace s
             = Emit_error ErrInvalidStart :: replicate k (Emit_log LogStopped)) /\
  page_gets (trace s) = [] /\ link_heads (trace s) = [] /\
  finished_payloads (trace s) = [].
Proof.
  intros Hf Hs Hr.
  pose (R := fun s : state =>
    pc s = Rejected /\ isRunning s = false /\ tasks s = [] /\
    brokenLinks s = [] /\ crawledCount s = 0 /\
    exists k, trace s
              = Emit_error ErrInvalidStart :: replicate k (Emit_log LogStopped)).
  assert (R s) as (Hpc & Hrun & Ht & Hb & Hc & k & Htr).
  { eapply (run_invariant R); [| |exact Hr].
    - clear. intros s l s' (Hpc & Hrun & Ht & Hb & Hc & k & Htr) Hstep.
      destruct l; cbn in Hstep.
      + by rewrite Hpc in Hstep.
      + by rewrite Hpc in Hstep.
      + unfold link_done in Hstep. by rewrite Ht in Hstep.
      + unfold finally_run in Hstep. by rewrite Ht in Hstep.
      + injection Hstep as <-. unfold R. cbn. repeat split; try done.
        exists (S k). rewrite Htr, replicate_S_end. done.
      + injection Hstep as <-. unfold R. cbn. repeat split; try done.
        by exists k.
    - apply session_entry in Hs
        as (this & h' & _ & -> & Hu & _ & _ & Hb & Hc & _ & _ & Hrun & _).
      unfold start. rewrite Hu, Hf. unfold R. cbn.
      repeat split; try done. by exists 0%nat. }
  repeat split; try done; [by exists k|..]; rewrite Htr; cbn;
    clear; induction k; cbn; auto.
Qed.

Lemma X8_witness :
  exists s0 s,
    session (U := SampleUrl.lib) "no scheme here" 1%positive
      (Demo.store Demo.defaults) = Some s0 /\
    run (U := SampleUrl.lib) s0 [StopCrawl] = Some s /\
    pc s = Rejected /\ isRunning s = false /\ tasks s = [] /\
    brokenLinks s = [] /\ crawledCount s = 0 /\
    (exists k, trace s
               = Emit_error ErrInvalidStart
                 :: replicate k (Emit_log LogStopped)) /\
    page_gets (trace s) = [] /\ link_heads (trace s) = [] /\
    finished_payloads (trace s) = [].
Proof.
  eexists _, _. split; [vm_compute; reflexivity|].
  split; [vm_compute; reflexivity|].
  eapply (X8_invalid_seed_only_error (U := SampleUrl.lib) "no scheme here"
            1%positive (Demo.store Demo.defaults) _ _ [StopCrawl]).
  - vm_compute; reflexivity.
  - vm_compute; reflexivity.
  - vm_compute; reflexivity.
Defined.

(** X9.  With a start URL that parses and a positive page budget, the
    first thing a session does is to announce and fetch the normalised
    start URL, at depth 0, as page 1, with an empty frontier left. *)
Theorem X9_first_page_is_the_seed {U : UrlLib} (startUrl : string)
    (opts : loc) (h : heap) (s0 : state) (u : string) :
  normalizeUrl startUrl = Some u -> u <> ""%string ->
  session startUrl opts h = Some s0 ->
  (0 < maxPages s0)%Q ->
  pc s0 = AtFetch u 0 /\ isRunning s0 = true /\
  visited s0 = {[u]} /\ queue s0 = [] /\ crawledCount s0 = 1 /\
  trace s0 = [Emit_log (LogStart u (maxDepth s0)); Emit_progress u 1 0 0;
              Emit_log (LogCrawling 0 u); Page_get u].
Proof.
  intros Hu Hne Hs.
  apply session_entry in Hs
    as (this & h' & _ & -> & Eu & Eq & Ev & _ & Ec & _).
  destruct (start_config this h') as (-> & -> & _).
  unfold start. rewrite Eu, Hu. cbn [falsy from_option id].
  case_bool_decide; [done|].
  unfold loop_head, enter. cbn. rewrite Eq, Ec, Ev. cbn. rewrite Hu. cbn.
  intros Hp.
  match goal with |- context [Js.lt ?a ?b] =>
    replace (Js.lt a b) with true by (symmetry; by apply lt_spec) end.
  rewrite bool_decide_eq_false_2 by apply not_elem_of_empty.
  unfold visit. cbn. repeat split; try done. apply (right_id_L ∅ (∪)).
Qed.

Lemma X9_witness :
  exists s0,
    Demo.crawl Demo.defaults = Some s0 /\
    pc s0 = AtFetch Demo.home 0 /\ isRunning s0 = true /\
    visited s0 = {[Demo.home]} /\ queue s0 = [] /\ crawledCount s0 = 1 /\
    trace s0 = [Emit_log (LogStart Demo.home (maxDepth s0));
                Emit_progress Demo.home 1 0 0;
                Emit_log (LogCrawling 0 Demo.home); Page_get Demo.home].
Proof.
  eexists. split; [vm_compute; reflexivity|].
  eapply (X9_first_page_is_the_seed (U := SampleUrl.lib) Demo.home
            1%positive (Demo.store Demo.defaults)).
  - vm_compute; reflexivity.
  - discriminate.
  - vm_compute; reflexivity.
  - vm_compute; reflexivity.
Defined.

(** X10.  With a start URL that parses and a page budget below 0, the
    session is over before it begins: it fetches nothing and at once
    emits the finished event with an empty list. *)
Theorem X10_negative_budget_finishes_at_once {U : UrlLib}
    (startUrl : string) (opts : loc) (h : heap) (s0 : state) (u : string) :
  normalizeUrl startUrl = Some u -> u <> ""%string ->
  session startUrl opts h = Some s0 ->
  (maxPages s0 <= 0)%Q ->
  pc s0 = Returned /\ crawledCount s0 = 0 /\
  trace s0 = [Emit_log (LogStart u (maxDepth s0)); Emit_finished [];
              Emit_log LogDone].
Proof.
  intros Hu Hne Hs.
  apply session_entry in Hs
    as (this & h' & _ & -> & Eu & Eq & Ev & Eb & Ec & Ea & Ex & _).
  destruct (start_config this h') as (-> & -> & _).
  unfold start. rewrite Eu, Hu. cbn [falsy from_option id].
  case_bool_decide; [done|].
  unfold loop_head, enter. cbn. rewrite Eq, Ec, Ev. cbn. rewrite Hu. cbn.
  intros Hp.
  match goal with |- context [Js.lt ?a ?b] =>
    replace (Js.lt a b) with false by (symmetry; by apply lt_false) end.
  unfold drain_wait. cbn. rewrite Ea, Ex, Eb. cbn. done.
Qed.

Lemma X10_witness :
  let o := {| opt_maxPages := Some (-1)%Q; opt_maxDepth := None;
              opt_allowedDomains := None |} in
  exists s0,
    Demo.crawl o = Some s0 /\
    pc s0 = Returned /\ crawledCount s0 = 0 /\
    trace s0 = [Emit_log (LogStart Demo.home (maxDepth s0));
                Emit_finished []; Emit_log LogDone].
Proof.
  intros o. eexists. split; [vm_compute; reflexivity|].
  eapply (X10_negative_budget_finishes_at_once (U := SampleUrl.lib)
            Demo.home 1%positive (Demo.store o)).
  - vm_compute; reflexivity.
  - discriminate.
  - vm_compute; reflexivity.
  - vm_compute. discriminate.
Defined.

(** ** Strings *)

Lemma append_cons (a : ascii) (s t : string) :
  String a s +:+ t = String a (s +:+ t).
Proof. reflexivity. Qed.

Lemma append_nil_r (s : string) : s +:+ "" = s.
Proof. induction s as [|a s IH]; [done|]. by rewrite append_cons, IH. Qed.

Lemma append_assoc (s t u : string) : (s +:+ t) +:+ u = s +:+ (t +:+ u).
Proof.
  induction s as [|a s IH]; [done|]. by rewrite !append_cons, IH.
Qed.

Lemma rev_app_append (s t u : string) :
  String.rev_app (s +:+ t) u = String.rev_app t (String.rev_app s u).
Proof.
  revert u. induction s as [|a s IH]; intros u; [done|].
  rewrite append_cons. cbn. apply IH.
Qed.

Lemma rev_app_rev (s t : string) :
  String.rev_app s t = String.rev s +:+ t.
Proof.
  revert t. induction s as [|a s IH]; intros t; [done|].
  unfold String.rev. cbn. rewrite (IH (String a "")), (IH (String a t)).
  by rewrite append_assoc.
Qed.

Lemma rev_append (s t : string) :
  String.rev (s +:+ t) = String.rev t +:+ String.rev s.
Proof.
  unfold String.rev at 1. rewrite rev_app_append, rev_app_rev. done.
Qed.

Lemma rev_rev_app (s t : string) :
  String.rev (String.rev_app s t) = String.rev_app t s.
Proof.
  revert t. induction s as [|a s IH]; intros t; [done|].
  change (String.rev_app (String a s) t)
    with (String.rev_app s (String a t)).
  by rewrite IH.
Qed.

Lemma rev_involutive (s : string) : String.rev (String.rev s) = s.
Proof. unfold String.rev at 2. by rewrite rev_rev_app. Qed.

Lemma prefix_nil (s : string) : String.prefix "" s = true.
Proof. by destruct s. Qed.

(** [startsWith]: the string begins with the pattern. *)
Lemma startsWith_spec (p s : string) :
  Js.startsWith p s = true <-> exists t, s = p +:+ t.
Proof.
  unfold Js.startsWith. revert s. induction p as [|c p IH]; intros s.
  - rewrite prefix_nil. split; [by exists s|done].
  - destruct s as [|b s].
    + split; [done|]. by intros [t Ht].
    + rewrite prefix_cons. destruct (ascii_dec c b) as [<-|Hne].
      * rewrite IH. split; intros [t Ht]; exists t.
        -- by rewrite append_cons, Ht.
        -- rewrite append_cons in Ht. by injection Ht.
      * split; [done|]. intros [t Ht]. rewrite append_cons in Ht.
        injection Ht as -> _. done.
Qed.

(** [endsWith]: the string ends with the pattern. *)
Lemma endsWith_spec (p s : string) :
  Js.endsWith p s = true <-> exists t, s = t +:+ p.
Proof.
  unfold Js.endsWith. rewrite (startsWith_spec (String.rev p) (String.rev s)).
  split; intros [t Ht].
  - exists (String.rev t).
    rewrite <- (rev_involutive s), Ht, rev_append. by rewrite rev_involutive.
  - exists (String.rev t). by rewrite Ht, rev_append.
Qed.

(** ** Allowed domains and origins *)

(** X11.  A host is allowed exactly when it is one of the allowed
    domains or ends with a dot followed by one of them: a strict
    subdomain test on text, so that a host which merely ends with the
    letters of a domain (without the dot) is allowed only if it equals or
    is a subdomain of some other entry, and no host is allowed by an
    empty list. *)
Theorem X11_isAllowed_exact_or_subdomain (host : string)
    (domains : list string) :
  isAllowed host domains = true <->
  exists d, d ∈ domains /\
            (host = d \/ exists sub, host = sub +:+ "." +:+ d).
Proof.
  unfold isAllowed, Js.some. rewrite existsb_exists. split.
  - intros (d & Hd%list_elem_of_In & Hm). exists d. split; [done|].
    apply orb_prop in Hm as [Hm|Hm].
    + left. by apply bool_decide_eq_true in Hm.
    + right. by apply endsWith_spec in Hm.
  - intros (d & Hd & Hm). exists d. split; [by apply list_elem_of_In|].
    apply orb_true_iff. destruct Hm as [->|Hs].
    + left. by apply bool_decide_eq_true.
    + right. by apply endsWith_spec.
Qed.

(** X12.  [isSameOrigin] is false as soon as one of its arguments does
    not parse, and on URLs that parse it is an equivalence: reflexive,
    symmetric and transitive. *)
Theorem X12_isSameOrigin_equivalence {U : UrlLib} (a b c : string) :
  isSameOrigin a b = isSameOrigin b a /\
  (isSameOrigin a a = true <-> is_Some (URL_new a)) /\
  (isSameOrigin a b = true -> is_Some (URL_new a) /\ is_Some (URL_new b)) /\
  (isSameOrigin a b = true -> isSameOrigin b c = true ->
   isSameOrigin a c = true).
Proof.
  unfold isSameOrigin.
  destruct (URL_new a) as [pa|], (URL_new b) as [pb|], (URL_new c) as [pc|];
    repeat split; try done; try (by intros [? ?]); try (by eexists);
    try (intros; by apply bool_decide_eq_true);
    try (apply bool_decide_ext; split; congruence);
    try (intros H1%bool_decide_eq_true H2%bool_decide_eq_true;
         apply bool_decide_eq_true; congruence).
Qed.

(** ** Invariants, operation by operation

    A property of states holds throughout every session when it holds
    for a crawler fresh from the constructor and is kept by each operation
    of the code, in the situation in which the code performs it. *)

Lemma session_fresh {U : UrlLib} (startUrl : string) (opts : loc) (h : heap)
    (s0 : state) :
  session startUrl opts h = Some s0 ->
  exists s1, fresh_crawler s1 /\
             (s0 = loop_head s1 \/ s0 = set_pc Rejected s1).
Proof.
  intros Hs. apply session_entry in Hs
    as (this & h' & _ & -> & Eu & Eq & Ev & Eb & Ec & Ea & Ex & Er & Eg
        & Ek & Em).
  unfold start. destruct (falsy (Crawler.startUrl this)).
  - eexists. split; [|right; reflexivity].
    split; cbn; try done; try (by eexists);
      rewrite Eq; cbn; destruct (normalizeUrl startUrl); cbn;
      (lia || by repeat constructor).
  - eexists. split; [|left; reflexivity].
    split; cbn; try done; try (by eexists);
      rewrite Eq; cbn; destruct (normalizeUrl startUrl); cbn;
      (lia || by repeat constructor).
Qed.

Section Operations.
Context {U : UrlLib}.
Variable J : state -> Prop.

Hypothesis J_fresh : forall s, fresh_crawler s -> J s.
Hypothesis J_rejected :
  forall s, pc s = Created -> J s -> J (set_pc Rejected s).
(* the page loop *)
Hypothesis J_loop :
  forall s,
    pc s = Created \/ pc s = AtDelay \/ (exists u d, pc s = AtFetch u d) ->
    J s -> J (loop_head s).
Hypothesis J_drain_wait :
  forall s, pc s = AtDrain -> J s -> J (drain_wait s).
Hypothesis J_page_report :
  forall s u d st,
    pc s = AtFetch u d -> J s -> J (reportBroken u st "seed" s).
Hypothesis J_error :
  forall s u d,
    pc s = AtFetch u d -> J s -> J (emit (Emit_error (ErrFetch u)) s).
Hypothesis J_delay :
  forall s u d,
    pc s = AtFetch u d -> J s -> J (set_pc AtDelay (emit (Sleep 500) s)).
Hypothesis J_html :
  forall s u d,
    pc s = AtFetch u d -> (inject_Z d < maxDepth s)%Q -> J s ->
    J (emit (Html_load u d) s).
(* the callback of [each] *)
Hypothesis J_check :
  forall s u d a,
    pc s = AtFetch u d -> Js.startsWith "http" a = true ->
    a ∉ checkedLinks s -> J s ->
    J (set_checkedLinks ({[a]} ∪ checkedLinks s) s).
Hypothesis J_push :
  forall s u d a,
    pc s = AtFetch u d -> (inject_Z d < maxDepth s)%Q -> a ∈ checkedLinks s ->
    a ∉ visited s -> Forall (fun t => url t <> a) (queue s) -> J s ->
    J (set_queue (queue s ++ [{| url := a; depth := d + 1 |}]) s).
Hypothesis J_submit :
  forall s u d a,
    pc s = AtFetch u d -> a ∈ checkedLinks s -> J s ->
    J (processExternalQueue
         (set_externalCheckQueue
            (externalCheckQueue s ++ [{| e_url := a; e_source := u |}]) s)).
(* the external checks *)
Hypothesis J_process : forall s, J s -> J (processExternalQueue s).
Hypothesis J_link_done :
  forall s i r s', J s -> link_done i r s = Some s' -> J s'.
Hypothesis J_finally :
  forall s i s', J s -> finally_run i s = Some s' -> J s'.
(* the handlers *)
Hypothesis J_stop : forall s, J s -> J (set_isRunning false s).
Hypothesis J_stop_log :
  forall s, isRunning s = false -> J s -> J (emit (Emit_log LogStopped) s).

Lemma operations_classify (s : state) (u : string) (d : Z) (a : string) :
  pc s = AtFetch u d -> (inject_Z d < maxDepth s)%Q ->
  Js.startsWith "http" a = true -> a ∉ checkedLinks s -> J s ->
  J (classify u d a s).1.
Proof.
  intros Hpc Hd Hh Ha HJ. unfold classify.
  pose proof (J_check s u d a Hpc Hh Ha HJ) as H1.
  set (s1 := set_checkedLinks ({[a]} ∪ checkedLinks s) s) in H1 |- *.
  assert (a ∈ checkedLinks s1) as Hin
    by (apply elem_of_union_l; by apply elem_of_singleton).
  destruct (URL_new a) as [p|]; [|done].
  destruct (negb (domainsIsArray s1)); [done|].
  destruct (isAllowed (URL_hostname p) (allowedDomains s1)).
  - destruct (negb (bool_decide (a ∈ visited s1))
              && negb (Js.some (fun item => bool_decide (url item = a))
                         (queue s1))) eqn:Hc; [|done].
    apply andb_prop in Hc as [Hv%negb_true_iff Hq%negb_true_iff].
    apply bool_decide_eq_false in Hv. cbn [fst].
    apply (J_push s1 u d a); try done.
    apply Forall_forall. intros t Ht Heq.
    assert (Js.some (fun item => bool_decide (url item = a)) (queue s1)
            = true) as Hyes; [|congruence].
    apply existsb_exists. exists t. split; [by apply list_elem_of_In|].
    by apply bool_decide_eq_true.
  - cbn [fst]. by apply (J_submit s1 u d a).
Qed.

Lemma operations_each_link (s : state) (u : string) (d : Z)
    (href : option string) :
  pc s = AtFetch u d -> (inject_Z d < maxDepth s)%Q -> J s ->
  J (each_link u d href s).1.
Proof.
  intros Hpc Hd HJ. unfold each_link.
  destruct (falsy href); [done|].
  destruct (falsy (resolve (default "" href) u)
            || negb (Js.startsWith "http"
                       (default "" (resolve (default "" href) u))))
    eqn:Hg; [done|].
  apply orb_false_iff in Hg as [_ Hg%negb_false_iff].
  case_bool_decide; [done|]. by apply operations_classify.
Qed.

Lemma operations_each (hrefs : list (option string)) (s : state)
    (u : string) (d : Z) :
  pc s = AtFetch u d -> (inject_Z d < maxDepth s)%Q -> J s ->
  J (each u d hrefs s).1.
Proof.
  revert s. induction hrefs as [|href rest IH]; intros s Hpc Hd HJ; [done|].
  cbn. pose proof (operations_each_link s u d href Hpc Hd HJ) as H1.
  pose proof (extends_each_link d s s u href (extends_refl d s)) as He.
  destruct (each_link u d href s) as [s1 thrown]. cbn in H1, He.
  destruct thrown; [done|]. apply IH; try done.
  - by rewrite (ext_pc _ _ _ He).
  - by rewrite (ext_maxDepth _ _ _ He).
Qed.

Lemma operations_catch (s : state) (u : string) (d : Z) :
  pc s = AtFetch u d -> J s -> J (catch_fetch u s).
Proof.
  intros Hpc HJ. unfold catch_fetch, polite_delay.
  apply (J_delay _ u d); [done|]. apply (J_page_report _ u d); [done|].
  by apply (J_error _ u d).
Qed.

Lemma operations_step (s s' : state) (l : label) :
  J s -> step s l = Some s' -> J s'.
Proof.
  intros HJ Hs. destruct l as [r| |i r|i| |]; cbn in Hs.
  - destruct (pc s) as [|u d| | | |] eqn:Hpc; try done.
    injection Hs as <-. unfold resume_fetch.
    destruct r as [st ct hrefs|]; [|by apply (operations_catch _ u d)].
    destruct (400 <=? st).
    { apply J_loop; [|by apply (J_page_report _ u d)]. cbn. eauto. }
    destruct (negb (Js.includes "text/html" ct)); [apply J_loop; eauto|].
    destruct (Js.ge (inject_Z d) (maxDepth s)) eqn:Hd;
  [apply J_loop; eauto|].
    apply ge_false in Hd.
    pose proof (J_html s u d Hpc Hd HJ) as H1.
    pose proof (operations_each hrefs (emit (Html_load u d) s) u d
                  Hpc Hd H1) as H2.
    pose proof (extends_each d _ _ u hrefs
                  (extends_refl d (emit (Html_load u d) s))) as He.
    destruct (each u d hrefs (emit (Html_load u d) s)) as [s2 thrown].
    cbn in H2, He.
    assert (pc s2 = AtFetch u d) as Hpc2 by (by rewrite (ext_pc _ _ _ He)).
    destruct thrown; [by apply (operations_catch _ u d)|].
    by apply (J_delay _ u d).
  - destruct (pc s) eqn:Hpc; try done; injection Hs as <-.
    + apply J_loop; auto.
    + apply J_drain_wait; [|by apply J_process].
      by rewrite (ext_pc _ _ _ (extends_processExternalQueue 0 s s
                                  (extends_refl 0 s))).
  - by eapply J_link_done.
  - by eapply J_finally.
  - injection Hs as <-. apply J_stop_log; [done|]. by apply J_stop.
  - injection Hs as <-. by apply J_stop.
Qed.

Lemma operations_run (ls : list label) (s s' : state) :
  J s -> run s ls = Some s' -> J s'.
Proof.
  apply (run_invariant J). intros. by eapply operations_step.
Qed.

Lemma operations_session (startUrl : string) (opts : loc) (h : heap)
    (s0 s : state) (ls : list label) :
  session startUrl opts h = Some s0 -> run s0 ls = Some s -> J s.
Proof.
  intros Hs. apply operations_run.
  apply session_fresh in Hs as (s1 & Hf & [->| ->]).
  - apply J_loop; [left; apply Hf|auto].
  - apply J_rejected; [apply Hf|auto].
Qed.

End Operations.

(** ** The frontier *)

(** What the operations on external checks leave alone. *)
Lemma frame_of_extends (s s' : state) :
  (forall d, extends d s s') ->
  queue s' = queue s /\ visited s' = visited s /\ pc s' = pc s /\
  isRunning s' = isRunning s /\ maxDepth s' = maxDepth s /\
  progress_depths (trace s') = progress_depths (trace s) /\
  page_gets (trace s') = page_gets (trace s).
Proof.
  intros He. pose proof (extends_same_queue _ _ He) as Hq.
  destruct (extends_observations 0 _ _ (He 0)) as (_ & ? & _ & _ & ?).
  destruct (He 0). auto 10.
Qed.

Lemma extends_submit (d : Z) (s : state) (item : ext_item) :
  extends d s
    (processExternalQueue
       (set_externalCheckQueue (externalCheckQueue s ++ [item]) s)).
Proof. auto with ext. Qed.

Lemma frontier_ok_same (s s' : state) :
  queue s' = queue s -> visited s' = visited s ->
  frontier_ok s -> frontier_ok s'.
Proof. unfold frontier_ok. by intros -> ->. Qed.

Lemma frontier_ok_suffix (s : state) (skipped rest : list target) :
  queue s = skipped ++ rest -> frontier_ok s ->
  frontier_ok (set_queue rest s).
Proof.
  unfold frontier_ok. cbn. intros -> [Hnd Hv].
  rewrite fmap_app in Hnd. apply NoDup_app in Hnd as (_ & _ & Hnd).
  apply Forall_app in Hv as [_ Hv]. done.
Qed.

Lemma frontier_ok_drain_wait (s : state) :
  frontier_ok s -> frontier_ok (drain_wait s).
Proof.
  destruct (drain_wait_cases s) as [->|[_ ->]]; by apply frontier_ok_same.
Qed.

Lemma frontier_ok_loop_head (s : state) :
  frontier_ok s -> frontier_ok (loop_head s).
Proof.
  intros H.
  destruct (loop_head_cases s)
    as [(sk & item & rest & Hq & _ & _ & _ & ->)|(sk & rest & Hq & _ & ->)].
  - destruct H as [Hnd Hv]. rewrite Hq in Hnd, Hv.
    rewrite fmap_app, fmap_cons in Hnd.
    apply NoDup_app in Hnd as (_ & _ & Hnd).
    apply NoDup_cons in Hnd as [Hfresh Hnd].
    apply Forall_app in Hv as [_ Hv]. apply Forall_cons in Hv as [_ Hv].
    unfold frontier_ok, visit. cbn. split; [done|].
    apply Forall_forall. intros t Ht.
    rewrite Forall_forall in Hv. specialize (Hv t Ht).
    intros [Heq%elem_of_singleton|Hin]%elem_of_union; [|done].
    apply Hfresh. rewrite <- Heq. by apply list_elem_of_fmap_2.
  - apply frontier_ok_drain_wait. by eapply frontier_ok_suffix.
Qed.

Lemma frontier_ok_session {U : UrlLib} (startUrl : string) (opts : loc)
    (h : heap) (s0 s : state) (ls : list label) :
  session startUrl opts h = Some s0 -> run s0 ls = Some s -> frontier_ok s.
Proof.
  assert (forall s1 s2, (forall d, extends d s1 s2) ->
            frontier_ok s1 -> frontier_ok s2) as Hext.
  { intros s1 s2 He. destruct (frame_of_extends _ _ He) as (? & ? & _).
    by apply frontier_ok_same. }
  apply (operations_session frontier_ok).
  - intros s1 Hf. unfold frontier_ok. rewrite (fc_visited _ Hf).
    split; [|apply Forall_forall; intros; apply not_elem_of_empty].
    pose proof (fc_queue _ Hf) as Hl.
    destruct (queue s1) as [|t [|t' q]]; cbn in *;
      [apply NoDup_nil_2|apply NoDup_singleton|lia].
  - intros s1 _. by apply frontier_ok_same.
  - intros s1 _. apply frontier_ok_loop_head.
  - intros s1 _. apply frontier_ok_drain_wait.
  - intros s1 u d st _. by apply frontier_ok_same.
  - intros s1 u d _. by apply frontier_ok_same.
  - intros s1 u d _. by apply frontier_ok_same.
  - intros s1 u d _ _. by apply frontier_ok_same.
  - intros s1 u d a _ _ _. by apply frontier_ok_same.
  - intros s1 u d a _ _ _ Hv Hq [Hnd Hf]. unfold frontier_ok. cbn.
    rewrite fmap_app. split.
    + apply NoDup_app. split; [done|]. split; [|apply NoDup_singleton].
      intros x Hx ->%list_elem_of_singleton.
      apply list_elem_of_fmap in Hx as (t & Ht & Hin).
      rewrite Forall_forall in Hq. by apply (Hq t Hin).
    + apply Forall_app. split; [done|]. by repeat constructor.
  - intros s1 u d a _ _. apply Hext. intros d'. apply extends_submit.
  - intros s1. apply Hext. intros d'. auto with ext.
  - intros s1 i r s2 H Hl. revert H. apply Hext. intros d'.
    by eapply extends_link_done.
  - intros s1 i s2 H Hl. revert H. apply Hext. intros d'.
    by eapply extends_finally_run.
  - intros s1. by apply frontier_ok_same.
  - intros s1 _. by apply frontier_ok_same.
Qed.

(** X13.  At every point of a session no URL is twice in the frontier
    and no URL of the frontier is visited: the test for an already
    visited page at the head of the loop never succeeds, and every page
    taken from the frontier is announced and fetched. *)
Theorem X13_frontier_has_no_duplicate_and_nothing_visited {U : UrlLib}
    (startUrl : string) (opts : loc) (h : heap) (s0 s : state)
    (ls : list label) :
  session startUrl opts h = Some s0 -> run s0 ls = Some s ->
  NoDup (url <$> queue s) /\
  Forall (fun t => url t ∉ visited s) (queue s) /\
  (forall item rest,
     queue s = item :: rest -> isRunning s = true ->
     (inject_Z (crawledCount s) < maxPages s)%Q ->
     loop_head s = visit item (set_queue rest s)).
Proof.
  intros Hs Hr. destruct (frontier_ok_session _ _ _ _ _ _ Hs Hr) as [Hnd Hv].
  split; [done|]. split; [done|].
  intros item rest Hq Hrun Hc. unfold loop_head. rewrite Hq. cbn.
  rewrite Hrun, (proj2 (lt_spec _ _) Hc).
  rewrite Hq in Hv. apply Forall_cons in Hv as [Hi _].
  cbn. by rewrite bool_decide_eq_false_2.
Qed.

(** X13 on the demo session, when the loop has reached [/a]. *)
Lemma X13_witness :
  exists s0 s,
    Demo.crawl Demo.defaults = Some s0 /\
    run (U := SampleUrl.lib) s0 Demo.until_a = Some s /\
    (NoDup (url <$> queue s) /\
     Forall (fun t => url t ∉ visited s) (queue s) /\
     (forall item rest,
        queue s = item :: rest -> isRunning s = true ->
        (inject_Z (crawledCount s) < maxPages s)%Q ->
        loop_head s = visit item (set_queue rest s))).
Proof.
  eexists _, _. split; [vm_compute; reflexivity|].
  split; [vm_compute; reflexivity|].
  eapply (X13_frontier_has_no_duplicate_and_nothing_visited
            (U := SampleUrl.lib) Demo.home 1%positive
            (Demo.store Demo.defaults) _ _ Demo.until_a).
  - vm_compute; reflexivity.
  - vm_compute; reflexivity.
Defined.

(** ** The drain of the external queue *)

Lemma sched_ok_same (s s' : state) :
  isProcessingExternal s' = isProcessingExternal s ->
  externalCheckQueue s' = externalCheckQueue s ->
  maxConcurrency s' = maxConcurrency s ->
  activeRequests s' = activeRequests s ->
  isRunning s' = isRunning s ->
  sched_ok s -> sched_ok s'.
Proof. unfold sched_ok. by intros -> -> -> -> ->. Qed.

(** The loop of [processExternalQueue] stops only when nothing waits, no
    slot is free or the session is stopped. *)
Lemma drain_loop_post (pending : list ext_item) (s : state) :
  externalCheckQueue s = pending ->
  isProcessingExternal (drain_loop pending s) = isProcessingExternal s /\
  (externalCheckQueue (drain_loop pending s) = []
   \/ maxConcurrency (drain_loop pending s)
      <= activeRequests (drain_loop pending s)
   \/ isRunning (drain_loop pending s) = false).
Proof.
  revert s. induction pending as [|item rest IH]; intros s Hq; cbn; [auto|].
  destruct ((activeRequests s <? maxConcurrency s) && isRunning s) eqn:Hc.
  - match goal with |- context [drain_loop rest ?x] =>
      destruct (IH x eq_refl) as [Hg Hpost] end.
    split; [by rewrite Hg|done].
  - split; [done|]. apply andb_false_iff in Hc as [Hc%Z.ltb_ge|Hc]; auto.
Qed.

Lemma sched_ok_processExternalQueue (s : state) :
  isProcessingExternal s = false -> sched_ok (processExternalQueue s).
Proof.
  intros Hg. unfold processExternalQueue. rewrite Hg.
  match goal with |- context [drain_loop ?q ?x] =>
    destruct (drain_loop_post q x eq_refl) as [_ Hpost] end.
  unfold sched_ok. cbn. auto.
Qed.

Lemma sched_ok_drain_wait (s : state) : sched_ok s -> sched_ok (drain_wait s).
Proof.
  destruct (drain_wait_cases s) as [->|[_ ->]]; by apply sched_ok_same.
Qed.

Lemma sched_ok_loop_head (s : state) : sched_ok s -> sched_ok (loop_head s).
Proof.
  intros H.
  destruct (loop_head_cases s)
    as [(sk & item & rest & _ & _ & _ & _ & ->)|(sk & rest & _ & _ & ->)].
  - revert H. by apply sched_ok_same.
  - apply sched_ok_drain_wait. revert H. by apply sched_ok_same.
Qed.

Lemma sched_ok_link_done (s s' : state) (i : nat) (r : http_result) :
  link_done i r s = Some s' -> sched_ok s -> sched_ok s'.
Proof.
  unfold link_done. intros H.
  destruct (tasks s !! i) as [t|]; [|done].
  assert (sched_ok s -> sched_ok (check_resume t r s).1) as Hres.
  { unfold check_resume, check_verdict.
    repeat case_match; cbn; by apply sched_ok_same. }
  destruct (check_resume t r s) as [s1 next].
  cbn in Hres. destruct (t_pc t); inversion H; subst;
    intros Hs; apply Hres in Hs; revert Hs; by apply sched_ok_same.
Qed.

Lemma sched_ok_session {U : UrlLib} (startUrl : string) (opts : loc)
    (h : heap) (s0 s : state) (ls : list label) :
  session startUrl opts h = Some s0 -> run s0 ls = Some s -> sched_ok s.
Proof.
  apply (operations_session sched_ok).
  - intros s1 Hf. unfold sched_ok. rewrite (fc_guard _ Hf), (fc_pending _ Hf).
    auto.
  - intros s1 _. by apply sched_ok_same.
  - intros s1 _. apply sched_ok_loop_head.
  - intros s1 _. apply sched_ok_drain_wait.
  - intros s1 u d st _. by apply sched_ok_same.
  - intros s1 u d _. by apply sched_ok_same.
  - intros s1 u d _. by apply sched_ok_same.
  - intros s1 u d _ _. by apply sched_ok_same.
  - intros s1 u d a _ _ _. by apply sched_ok_same.
  - intros s1 u d a _ _ _ _ _. by apply sched_ok_same.
  - intros s1 u d a _ _ [Hg _]. by apply sched_ok_processExternalQueue.
  - intros s1 [Hg _]. by apply sched_ok_processExternalQueue.
  - intros s1 i r s2 H Hl. by eapply sched_ok_link_done.
  - intros s1 i s2 [Hg _]. unfold finally_run, finally_callback.
    repeat case_match; try done. intros [= <-].
    by apply sched_ok_processExternalQueue.
  - intros s1 [Hg _]. unfold sched_ok. cbn. auto.
  - intros s1 _. by apply sched_ok_same.
Qed.

(** X14.  Whenever a session is suspended the drain guard is free, and
    an external link waits in the queue only if five verifications are
    active or the session has been stopped: the scheduler never leaves a
    slot idle while work is pending. *)
Theorem X14_external_queue_is_drained {U : UrlLib} (startUrl : string)
    (opts : loc) (h : heap) (s0 s : state) (ls : list label) :
  session startUrl opts h = Some s0 -> run s0 ls = Some s ->
  isProcessingExternal s = false /\
  (externalCheckQueue s <> [] -> isRunning s = true ->
   activeRequests s = 5 /\ length (tasks s) = 5%nat).
Proof.
  intros Hs Hr. destruct (sched_ok_session _ _ _ _ _ _ Hs Hr) as [Hg Hp].
  destruct (conc_ok_session _ _ _ _ _ _ Hs Hr) as (Hc & Ha & Hle).
  split; [done|]. intros Hne Hrun.
  destruct Hp as [?|[?|?]]; [done| |congruence]. lia.
Qed.

(** X14 on the demo session, when the loop has reached [/a]. *)
Lemma X14_witness :
  exists s0 s,
    Demo.crawl Demo.defaults = Some s0 /\
    run (U := SampleUrl.lib) s0 Demo.until_a = Some s /\
    (isProcessingExternal s = false /\
     (externalCheckQueue s <> [] -> isRunning s = true ->
      activeRequests s = 5 /\ length (tasks s) = 5%nat)).
Proof.
  eexists _, _. split; [vm_compute; reflexivity|].
  split; [vm_compute; reflexivity|].
  eapply (X14_external_queue_is_drained (U := SampleUrl.lib) Demo.home
            1%positive (Demo.store Demo.defaults) _ _ Demo.until_a).
  - vm_compute; reflexivity.
  - vm_compute; reflexivity.
Defined.

(** ** After a stop, no new verification *)

Lemma link_heads_app (t1 t2 : list action) :
  link_heads (t1 ++ t2) = link_heads t1 ++ link_heads t2.
Proof. apply omap_app. Qed.

Lemma drain_loop_stopped (pending : list ext_item) (s : state) :
  isRunning s = false -> drain_loop pending s = s.
Proof.
  intros Hr. destruct pending; [done|]. cbn. rewrite Hr.
  by rewrite andb_false_r.
Qed.

Lemma processExternalQueue_stopped (s : state) :
  isRunning s = false ->
  trace (processExternalQueue s) = trace s /\
  tasks (processExternalQueue s) = tasks s /\
  activeRequests (processExternalQueue s) = activeRequests s /\
  externalCheckQueue (processExternalQueue s) = externalCheckQueue s /\
  isRunning (processExternalQueue s) = false.
Proof.
  intros Hr. unfold processExternalQueue. case_match; [done|].
  rewrite drain_loop_stopped by done. done.
Qed.

Lemma stopped_at_same (hs : list string) (n : nat) (s s' : state) :
  isRunning s' = isRunning s ->
  link_heads (trace s') = link_heads (trace s) ->
  tasks s' = tasks s ->
  stopped_at hs n s -> stopped_at hs n s'.
Proof. unfold stopped_at. by intros -> -> ->. Qed.

Lemma stopped_at_processExternalQueue (hs : list string) (n : nat)
    (s : state) :
  stopped_at hs n s -> stopped_at hs n (processExternalQueue s).
Proof.
  intros H. pose proof (proj1 H) as Hr.
  destruct (processExternalQueue_stopped s Hr) as (Et & Eta & _ & _ & Er).
  revert H. apply stopped_at_same; congruence.
Qed.

Lemma stopped_at_step {U : UrlLib} (hs : list string) (n : nat)
    (s s' : state) (l : label) :
  stopped_at hs n s -> step s l = Some s' -> stopped_at hs n s'.
Proof.
  apply (operations_step (stopped_at hs n)).
  - intros s1 _ H. destruct (loop_head_stopped s1 (proj1 H)) as [rest ->].
    revert H. apply stopped_at_same; cbn; rewrite ?link_heads_app; cbn;
      rewrite ?app_nil_r; done.
  - intros s1 _ H. rewrite (drain_wait_stopped s1 (proj1 H)).
    revert H. apply stopped_at_same; cbn; rewrite ?link_heads_app; cbn;
      rewrite ?app_nil_r; done.
  - intros s1 u d st _. apply stopped_at_same; cbn;
      rewrite ?link_heads_app; cbn; rewrite ?app_nil_r; done.
  - intros s1 u d _. apply stopped_at_same; cbn;
      rewrite ?link_heads_app; cbn; rewrite ?app_nil_r; done.
  - intros s1 u d _. apply stopped_at_same; cbn;
      rewrite ?link_heads_app; cbn; rewrite ?app_nil_r; done.
  - intros s1 u d _ _. apply stopped_at_same; cbn;
      rewrite ?link_heads_app; cbn; rewrite ?app_nil_r; done.
  - intros s1 u d a _ _ _. by apply stopped_at_same.
  - intros s1 u d a _ _ _ _ _. by apply stopped_at_same.
  - intros s1 u d a _ _ H. apply stopped_at_processExternalQueue.
    revert H. by apply stopped_at_same.
  - intros s1. apply stopped_at_processExternalQueue.
  - intros s1 i r s2 (Hr & Hh & Hn). unfold link_done.
    destruct (tasks s1 !! i) as [t|]; [|done].
    assert (let s3 := (check_resume t r s1).1 in
            isRunning s3 = false /\ link_heads (trace s3) = hs /\
            tasks s3 = tasks s1) as Hres.
    { unfold check_resume, check_verdict.
      repeat case_match; cbn; rewrite ?link_heads_app; cbn;
        rewrite ?app_nil_r; done. }
    destruct (check_resume t r s1) as [s3 next]. cbn in Hres.
    destruct Hres as (Hr3 & Hh3 & Ht3).
    destruct (t_pc t); intros [= <-]; unfold stopped_at; cbn;
      rewrite length_insert, Ht3; done.
  - intros s1 i s2 (Hr & Hh & Hn). unfold finally_run, finally_callback.
    destruct (tasks s1 !! i) as [t|] eqn:Hi; [|done].
    destruct (t_pc t); try done. intros [= <-].
    apply stopped_at_processExternalQueue. unfold stopped_at. cbn.
    split; [done|]. split; [done|].
    rewrite length_delete by eauto. lia.
  - intros s1 H. revert H. unfold stopped_at. cbn. tauto.
  - intros s1 _. apply stopped_at_same; cbn; rewrite ?link_heads_app; cbn;
      rewrite ?app_nil_r; done.
Qed.

(** X15.  Once the running flag is cleared no external verification is
    started any more: whatever is delivered afterwards, no HEAD request
    is added to the trace and the number of suspended calls does not
    grow (the calls already in flight only finish). *)
Theorem X15_no_verification_started_after_stop {U : UrlLib}
    (s s' : state) (ls : list label) :
  isRunning s = false -> run s ls = Some s' ->
  isRunning s' = false /\
  link_heads (trace s') = link_heads (trace s) /\
  (length (tasks s') <= length (tasks s))%nat.
Proof.
  intros Hr Hrun.
  apply (run_invariant (stopped_at (link_heads (trace s)) (length (tasks s)))
           (fun s1 l s2 => stopped_at_step _ _ s1 s2 l) ls s s'); [|done].
  unfold stopped_at. auto.
Qed.

(** X15 on the demo session, from the stop on. *)
Lemma X15_witness :
  exists s0 s s',
    Demo.crawl Demo.defaults = Some s0 /\
    run (U := SampleUrl.lib) s0 Demo.until_stop = Some s /\
    run (U := SampleUrl.lib) s Demo.after_stop = Some s' /\
    (isRunning s' = false /\
     link_heads (trace s') = link_heads (trace s) /\
     (length (tasks s') <= length (tasks s))%nat).
Proof.
  eexists _, _, _. split; [vm_compute; reflexivity|].
  split; [vm_compute; reflexivity|].
  split; [vm_compute; reflexivity|].
  eapply (X15_no_verification_started_after_stop (U := SampleUrl.lib)
            _ _ Demo.after_stop).
  - vm_compute; reflexivity.
  - vm_compute; reflexivity.
Defined.

(** ** Reports and requests *)

(** Growth of the trace by actions that are no reports. *)
Lemma requested_ok_grow_pc (s s' : state) (acts : list action) :
  trace s' = trace s ++ acts -> reports acts = [] ->
  (forall u d, pc s' = AtFetch u d -> u ∈ page_gets (trace s ++ acts)) ->
  tasks s' = tasks s -> externalCheckQueue s' = externalCheckQueue s ->
  requested_ok s -> requested_ok s'.
Proof.
  intros Ht Hr Hpc Hta Hq (H1 & H2 & H3 & H4). unfold requested_ok.
  rewrite Ht, Hta, Hq, reports_app, Hr, app_nil_r.
  split; [done|]. rewrite page_gets_app, link_heads_app.
  split; [|split].
  - eapply Forall_impl; [exact H2|]. cbn. intros t [? ?].
    split; apply elem_of_app; by left.
  - eapply Forall_impl; [exact H3|]. cbn. intros e ?.
    apply elem_of_app; by left.
  - eapply Forall_impl; [exact H4|]. cbn.
    intros b [[? ?]|[? ?]]; [left|right]; split; try done;
      apply elem_of_app; by left.
Qed.

Lemma requested_ok_grow (s s' : state) (acts : list action) :
  trace s' = trace s ++ acts -> reports acts = [] ->
  (forall u d, pc s' = AtFetch u d -> pc s = AtFetch u d) ->
  tasks s' = tasks s -> externalCheckQueue s' = externalCheckQueue s ->
  requested_ok s -> requested_ok s'.
Proof.
  intros Ht Hr Hpc Hta Hq H. eapply requested_ok_grow_pc; try done.
  intros u d Hu. rewrite page_gets_app. apply elem_of_app. left.
  destruct H as [H1 _]. eauto.
Qed.

Lemma requested_ok_same (s s' : state) :
  trace s' = trace s ->
  (forall u d, pc s' = AtFetch u d -> pc s = AtFetch u d) ->
  tasks s' = tasks s -> externalCheckQueue s' = externalCheckQueue s ->
  requested_ok s -> requested_ok s'.
Proof.
  intros Ht. apply (requested_ok_grow s s' []); [by rewrite app_nil_r|done].
Qed.

(** A report for a suspended call or for the page being fetched. *)
Lemma requested_ok_report (s : state) (u src : string) (st : status) :
  (src = "seed"%string /\ u ∈ page_gets (trace s))
  \/ (u ∈ link_heads (trace s) /\ src ∈ page_gets (trace s)) ->
  requested_ok s -> requested_ok (reportBroken u st src s).
Proof.
  intros Hb (H1 & H2 & H3 & H4). unfold requested_ok, reportBroken. cbn.
  rewrite reports_app, page_gets_app, link_heads_app. cbn.
  rewrite !app_nil_r. split; [done|]. split; [done|]. split; [done|].
  apply Forall_app. split; [done|].
  apply Forall_cons. split; [exact Hb|constructor].
Qed.

Lemma requested_ok_dispatch (s : state) (item : ext_item)
    (rest : list ext_item) :
  externalCheckQueue s = item :: rest -> requested_ok s ->
  requested_ok
    (checkExternalLink (e_url item) (e_source item)
       (set_activeRequests (activeRequests s + 1)
          (set_externalCheckQueue rest s))).
Proof.
  intros Hq (H1 & H2 & H3 & H4). rewrite Hq in H3.
  apply Forall_cons in H3 as [Hi H3].
  unfold requested_ok, checkExternalLink. cbn.
  rewrite reports_app, page_gets_app, link_heads_app. cbn.
  rewrite !app_nil_r. split; [done|]. split; [|split; [done|]].
  - apply Forall_app. split.
    + eapply Forall_impl; [exact H2|]. cbn. intros t [? ?].
      split; [apply elem_of_app; by left|done].
    + apply Forall_cons. split; [|constructor]. cbn. split; [|done].
      apply elem_of_app. right. by apply list_elem_of_singleton.
  - eapply Forall_impl; [exact H4|]. cbn.
    intros b [[? ?]|[? ?]]; [by left|right].
    split; [apply elem_of_app; by left|done].
Qed.

Lemma requested_ok_drain_loop (pending : list ext_item) (s : state) :
  externalCheckQueue s = pending ->
  requested_ok s -> requested_ok (drain_loop pending s).
Proof.
  revert s. induction pending as [|item rest IH]; intros s Hq H; cbn; [done|].
  case_match; [|done]. apply IH; [done|].
  by apply (requested_ok_dispatch s item rest).
Qed.

Lemma requested_ok_processExternalQueue (s : state) :
  requested_ok s -> requested_ok (processExternalQueue s).
Proof.
  intros H. unfold processExternalQueue. case_match; [done|].
  match goal with |- context [drain_loop ?q ?x] =>
    pose proof (requested_ok_drain_loop q x eq_refl) as Hd end.
  eapply requested_ok_same; [..|apply Hd]; done.
Qed.

Lemma requested_ok_drain_wait (s : state) :
  requested_ok s -> requested_ok (drain_wait s).
Proof.
  destruct (drain_wait_cases s) as [->|[_ ->]].
  - unfold finish.
    apply (requested_ok_grow s _
             [Emit_finished (brokenLinks s); Emit_log LogDone]); try done.
    cbn. by rewrite <- app_assoc.
  - by apply (requested_ok_grow s _ [Sleep 500]).
Qed.

Lemma requested_ok_loop_head (s : state) :
  requested_ok s -> requested_ok (loop_head s).
Proof.
  intros H.
  destruct (loop_head_cases s)
    as [(sk & item & rest & _ & _ & _ & _ & ->)|(sk & rest & _ & _ & ->)].
  - eapply (requested_ok_grow_pc s);
      [unfold visit; cbn; rewrite <- !app_assoc; reflexivity|done| |done|done
      |exact H].
    unfold visit. cbn. intros u d [= <- <-].
    rewrite page_gets_app. apply elem_of_app. right. cbn.
    by apply list_elem_of_singleton.
  - apply requested_ok_drain_wait. revert H. by apply requested_ok_same.
Qed.

Lemma requested_ok_check_resume (s : state) (t : task) (r : http_result) :
  t_url t ∈ link_heads (trace s) -> t_source t ∈ page_gets (trace s) ->
  requested_ok s ->
  requested_ok (check_resume t r s).1
  /\ tasks (check_resume t r s).1 = tasks s.
Proof.
  intros Hu Hsrc H. unfold check_resume, check_verdict.
  destruct (t_pc t), r as [st|]; cbn; repeat case_match; cbn;
    (split; [|done]); try done;
    try (apply requested_ok_report; [by right|done]);
    try (by apply (requested_ok_grow s _ [Link_get (t_url t)])).
Qed.

Lemma requested_ok_link_done (s s' : state) (i : nat) (r : http_result) :
  link_done i r s = Some s' -> requested_ok s -> requested_ok s'.
Proof.
  unfold link_done. intros H Hok.
  destruct (tasks s !! i) as [t|] eqn:Hi; [|done].
  assert (t_url t ∈ link_heads (trace s)
          /\ t_source t ∈ page_gets (trace s)) as [Hu Hsrc].
  { destruct Hok as (_ & H2 & _). rewrite Forall_forall in H2.
    apply H2. by eapply list_elem_of_lookup_2. }
  destruct (requested_ok_check_resume s t r Hu Hsrc Hok) as [Hres Hta].
  pose proof (grows_extends 0 _ _
                (extends_check_resume 0 s s t r (extends_refl 0 s)))
    as ([acts Hacts] & _).
  destruct (check_resume t r s) as [s1 next]. cbn in Hres, Hta, Hacts.
  assert (requested_ok
            (set_tasks (<[i := {| t_url := t_url t; t_source := t_source t;
                                  t_pc := next |}]> (tasks s1)) s1)) as Hfin.
  { destruct Hres as (H1 & H2 & H3 & H4). unfold requested_ok. cbn.
    split; [done|]. split; [|done].
    apply Forall_insert; [done|]. cbn. rewrite Hacts.
    rewrite link_heads_app, page_gets_app.
    split; apply elem_of_app; by left. }
  destruct (t_pc t); inversion H; by subst.
Qed.

Lemma requested_ok_finally_run (s s' : state) (i : nat) :
  finally_run i s = Some s' -> requested_ok s -> requested_ok s'.
Proof.
  unfold finally_run, finally_callback. intros H (H1 & H2 & H3 & H4).
  destruct (tasks s !! i) as [t|]; [|done].
  destruct (t_pc t); try done. injection H as <-.
  apply requested_ok_processExternalQueue. unfold requested_ok. cbn.
  split; [done|]. split; [|done]. by apply Forall_delete.
Qed.

Lemma requested_ok_session {U : UrlLib} (startUrl : string) (opts : loc)
    (h : heap) (s0 s : state) (ls : list label) :
  session startUrl opts h = Some s0 -> run s0 ls = Some s -> requested_ok s.
Proof.
  apply (operations_session requested_ok).
  - intros s1 Hf. unfold requested_ok.
    destruct (fc_trace _ Hf) as (a & Ht & _ & Hr & _).
    rewrite (fc_pc _ Hf), (fc_tasks _ Hf), (fc_pending _ Hf), Ht, Hr.
    repeat split; try done; constructor.
  - intros s1 _. by apply requested_ok_same.
  - intros s1 _. apply requested_ok_loop_head.
  - intros s1 _. apply requested_ok_drain_wait.
  - intros s1 u d st Hpc H. apply requested_ok_report; [|done].
    left. split; [done|]. destruct H as [H1 _]. eauto.
  - intros s1 u d _.
    by apply (requested_ok_grow s1 _ [Emit_error (ErrFetch u)]).
  - intros s1 u d _. by apply (requested_ok_grow s1 _ [Sleep 500]).
  - intros s1 u d _ _. by apply (requested_ok_grow s1 _ [Html_load u d]).
  - intros s1 u d a _ _ _. by apply requested_ok_same.
  - intros s1 u d a _ _ _ _ _. by apply requested_ok_same.
  - intros s1 u d a Hpc _ (H1 & H2 & H3 & H4).
    apply requested_ok_processExternalQueue. unfold requested_ok. cbn.
    split; [done|]. split; [done|]. split; [|done].
    apply Forall_app. split; [done|]. repeat constructor. cbn. eauto.
  - intros s1. apply requested_ok_processExternalQueue.
  - intros s1 i r s2 H Hl. by eapply requested_ok_link_done.
  - intros s1 i s2 H Hl. by eapply requested_ok_finally_run.
  - intros s1. by apply requested_ok_same.
  - intros s1 _. by apply (requested_ok_grow s1 _ [Emit_log LogStopped]).
Qed.

(** X16.  Every record of [brokenLinks] is for something the crawler
    requested: either its source is ["seed"] and its URL is a page the
    loop fetched, or a HEAD request was sent for its URL and its source
    is a page the loop fetched. *)
Theorem X16_reports_are_for_requested_urls {U : UrlLib} (startUrl : string)
    (opts : loc) (h : heap) (s0 s : state) (ls : list label) :
  session startUrl opts h = Some s0 -> run s0 ls = Some s ->
  Forall (fun b => (b_source b = "seed"%string
                    /\ b_url b ∈ page_gets (trace s))
                   \/ (b_url b ∈ link_heads (trace s)
                       /\ b_source b ∈ page_gets (trace s)))
         (brokenLinks s).
Proof.
  intros Hs Hr.
  destruct (finished_ok_session _ _ _ _ _ _ Hs Hr) as [-> _].
  by destruct (requested_ok_session _ _ _ _ _ _ Hs Hr) as (_ & _ & _ & H).
Qed.

(** X16 on the demo session. *)
Lemma X16_witness :
  exists s0 s,
    Demo.crawl Demo.defaults = Some s0 /\
    run (U := SampleUrl.lib) s0 Demo.deliveries = Some s /\
    Forall (fun b => (b_source b = "seed"%string
                      /\ b_url b ∈ page_gets (trace s))
                     \/ (b_url b ∈ link_heads (trace s)
                         /\ b_source b ∈ page_gets (trace s)))
           (brokenLinks s).
Proof.
  eexists _, _. split; [vm_compute; reflexivity|].
  split; [vm_compute; reflexivity|].
  eapply (X16_reports_are_for_requested_urls (U := SampleUrl.lib) Demo.home
            1%positive (Demo.store Demo.defaults) _ _ Demo.deliveries).
  - vm_compute; reflexivity.
  - vm_compute; reflexivity.
Defined.

(** ** Breadth first *)

Lemma bfs_ok_same (s s' : state) :
  progress_depths (trace s') = progress_depths (trace s) ->
  (exists skipped, queue s = skipped ++ queue s') ->
  (forall u d, pc s' = AtFetch u d -> pc s = AtFetch u d) ->
  bfs_ok s -> bfs_ok s'.
Proof.
  intros Ep [sk Eq] Hpc (lo & H1 & H2 & H3 & H4 & H5). exists lo.
  rewrite Ep. rewrite Eq in H3, H4. rewrite fmap_app in H3.
  apply StronglySorted_app_1_r in H3.
  apply Forall_app in H4 as [_ H4].
  split; [done|]. split; [done|]. split; [done|]. split; [done|].
  intros u d Hd. eapply H5, Hpc, Hd.
Qed.

Lemma bfs_ok_drain_wait (s : state) : bfs_ok s -> bfs_ok (drain_wait s).
Proof.
  destruct (drain_wait_cases s) as [->|[_ ->]]; apply bfs_ok_same;
    cbn; rewrite ?progress_depths_app, ?app_nil_r; try done; by exists [].
Qed.

Lemma bfs_ok_loop_head (s : state) : bfs_ok s -> bfs_ok (loop_head s).
Proof.
  intros H.
  destruct (loop_head_cases s)
    as [(sk & item & rest & Hq & _ & _ & _ & ->)|(sk & rest & Hq & _ & ->)].
  - destruct H as (lo & H1 & H2 & H3 & H4 & _).
    rewrite Hq in H3, H4. rewrite fmap_app, fmap_cons in H3.
    apply StronglySorted_app_1_r in H3.
    apply StronglySorted_inv in H3 as [H3 Hge].
    apply Forall_app in H4 as [_ H4]. apply Forall_cons in H4 as [Hi H4].
    exists (depth item). unfold visit. cbn.
    rewrite !progress_depths_app. cbn. rewrite !app_nil_r.
    split; [|split; [|split; [|split]]].
    + apply StronglySorted_app_2; [|done|repeat constructor].
      intros x1 x2 Hx1 ->%list_elem_of_singleton.
      rewrite Forall_forall in H2. specialize (H2 x1 Hx1). lia.
    + apply Forall_app. split; [|repeat constructor; lia].
      eapply Forall_impl; [exact H2|]. cbn. intros. lia.
    + done.
    + apply Forall_forall. intros t Ht.
      rewrite Forall_forall in H4. specialize (H4 t Ht).
      rewrite Forall_forall in Hge.
      specialize (Hge (depth t) (list_elem_of_fmap_2 depth _ _ Ht)). lia.
    + by intros u d [= _ <-].
  - apply bfs_ok_drain_wait. revert H. apply bfs_ok_same; try done.
    by exists sk.
Qed.

Lemma bfs_ok_session {U : UrlLib} (startUrl : string) (opts : loc)
    (h : heap) (s0 s : state) (ls : list label) :
  session startUrl opts h = Some s0 -> run s0 ls = Some s -> bfs_ok s.
Proof.
  assert (forall s1 s2, (forall d, extends d s1 s2) ->
            bfs_ok s1 -> bfs_ok s2) as Hext.
  { intros s1 s2 He.
    destruct (frame_of_extends _ _ He) as (Eq & _ & Ep & _ & _ & Ed & _).
    apply bfs_ok_same; [done|exists []; by rewrite Eq|by rewrite Ep]. }
  assert (forall s1 a, progress_depths [a] = [] -> bfs_ok s1 ->
            bfs_ok (emit a s1)) as Hemit.
  { intros s1 a Ha. apply bfs_ok_same; cbn;
      [by rewrite progress_depths_app, Ha, app_nil_r|by exists []|done]. }
  apply (operations_session bfs_ok).
  - intros s1 Hf. exists 0.
    destruct (fc_trace _ Hf) as (a & Ht & Hq & _).
    pose proof (proj2 (proj2 (proj2 (proj2
      (quiet_observations [a] ltac:(by repeat constructor)))))) as Hp.
    rewrite Ht, Hp, (fc_pc _ Hf). split; [constructor|].
    split; [constructor|]. split; [|split; [|done]].
    + pose proof (fc_queue _ Hf).
      destruct (queue s1) as [|t [|t' q]]; cbn in *;
        [constructor|repeat constructor|lia].
    + eapply Forall_impl; [exact (fc_depth _ Hf)|]. cbn. intros. lia.
  - intros s1 _. apply bfs_ok_same; try done. by exists [].
  - intros s1 _. apply bfs_ok_loop_head.
  - intros s1 _. apply bfs_ok_drain_wait.
  - intros s1 u d st _. apply Hext. intros d'. auto with ext.
  - intros s1 u d _. by apply Hemit.
  - intros s1 u d _ H. apply (bfs_ok_same (emit (Sleep 500) s1));
      [done|by exists []|done|by apply Hemit].
  - intros s1 u d _ _. by apply Hemit.
  - intros s1 u d a _ _ _. apply bfs_ok_same; try done. by exists [].
  - intros s1 u d a Hpc _ _ _ _ (lo & H1 & H2 & H3 & H4 & H5).
    specialize (H5 u d Hpc). subst lo. exists d. cbn.
    rewrite fmap_app. split; [done|]. split; [done|].
    split; [|split; [|intros u' d' E; rewrite Hpc in E; congruence]].
    + apply StronglySorted_app_2; [|done|repeat constructor].
      intros x1 x2 (t & -> & Ht)%list_elem_of_fmap ->%list_elem_of_singleton.
      rewrite Forall_forall in H4. specialize (H4 t Ht). cbn. lia.
    + apply Forall_app. split; [done|]. repeat constructor; cbn; lia.
  - intros s1 u d a _ _. apply Hext. intros d'. apply extends_submit.
  - intros s1. apply Hext. intros d'. auto with ext.
  - intros s1 i r s2 H Hl. revert H. apply Hext. intros d'.
    by eapply extends_link_done.
  - intros s1 i s2 H Hl. revert H. apply Hext. intros d'.
    by eapply extends_finally_run.
  - intros s1. apply bfs_ok_same; try done. by exists [].
  - intros s1 _. by apply Hemit.
Qed.

(** X17.  A session crawls breadth first: the depths of the progress
    events never decrease, the frontier is ordered by depth, every page
    of the frontier is at least as deep as every page dequeued so far,
    and two pages of the frontier differ in depth by one at most. *)
Theorem X17_breadth_first_order {U : UrlLib} (startUrl : string)
    (opts : loc) (h : heap) (s0 s : state) (ls : list label) :
  session startUrl opts h = Some s0 -> run s0 ls = Some s ->
  StronglySorted Z.le (progress_depths (trace s)) /\
  StronglySorted Z.le (depth <$> queue s) /\
  (forall d t, d ∈ progress_depths (trace s) -> t ∈ queue s ->
               d <= depth t) /\
  (forall t t', t ∈ queue s -> t' ∈ queue s -> depth t' <= depth t + 1).
Proof.
  intros Hs Hr.
  destruct (bfs_ok_session _ _ _ _ _ _ Hs Hr) as (lo & H1 & H2 & H3 & H4 & _).
  rewrite Forall_forall in H2. rewrite Forall_forall in H4.
  repeat split; try done.
  - intros d t Hd Ht. specialize (H2 d Hd). specialize (H4 t Ht). lia.
  - intros t t' Ht Ht'. pose proof (H4 t Ht). pose proof (H4 t' Ht'). lia.
Qed.

(** X17 on the demo session, when the loop has reached [/a]. *)
Lemma X17_witness :
  exists s0 s,
    Demo.crawl Demo.defaults = Some s0 /\
    run (U := SampleUrl.lib) s0 Demo.until_a = Some s /\
    (StronglySorted Z.le (progress_depths (trace s)) /\
     StronglySorted Z.le (depth <$> queue s) /\
     (forall d t, d ∈ progress_depths (trace s) -> t ∈ queue s ->
                  d <= depth t) /\
     (forall t t', t ∈ queue s -> t' ∈ queue s ->
                   depth t' <= depth t + 1)).
Proof.
  eexists _, _. split; [vm_compute; reflexivity|].
  split; [vm_compute; reflexivity|].
  eapply (X17_breadth_first_order (U := SampleUrl.lib) Demo.home
            1%positive (Demo.store Demo.defaults) _ _ Demo.until_a).
  - vm_compute; reflexivity.
  - vm_compute; reflexivity.
Defined.

(** ** Only http URLs *)

Lemma requests_app (tr1 tr2 : list action) :
  requests (tr1 ++ tr2) = requests tr1 ++ requests tr2.
Proof. apply omap_app. Qed.

Lemma page_gets_requests (tr : list action) (u : string) :
  u ∈ page_gets tr -> u ∈ requests tr.
Proof.
  unfold page_gets, requests. rewrite !list_elem_of_omap.
  intros (a & Ha & E). exists a. split; [done|]. by destruct a.
Qed.

Lemma link_heads_requests (tr : list action) (u : string) :
  u ∈ link_heads tr -> u ∈ requests tr.
Proof.
  unfold link_heads, requests. rewrite !list_elem_of_omap.
  intros (a & Ha & E). exists a. split; [done|]. by destruct a.
Qed.

Lemma http_ok_grow (s s' : state) (acts : list action) :
  trace s' = trace s ++ acts -> Forall http (requests acts) ->
  checkedLinks s' = checkedLinks s ->
  (exists skipped, queue s = skipped ++ queue s') ->
  tasks s' = tasks s -> externalCheckQueue s' = externalCheckQueue s ->
  http_ok s -> http_ok s'.
Proof.
  intros Ht Ha Hc [sk Hq] Hta Hx (H1 & H2 & H3 & H4 & H5). unfold http_ok.
  rewrite Ht, Hc, Hta, Hx, requests_app. rewrite Hq in H2.
  apply Forall_app in H2 as [_ H2].
  repeat split; try done. by apply Forall_app.
Qed.

Lemma http_ok_same (s s' : state) :
  trace s' = trace s -> checkedLinks s' = checkedLinks s ->
  (exists skipped, queue s = skipped ++ queue s') ->
  tasks s' = tasks s -> externalCheckQueue s' = externalCheckQueue s ->
  http_ok s -> http_ok s'.
Proof.
  intros Ht. apply (http_ok_grow s s' []); [by rewrite app_nil_r|constructor].
Qed.

Lemma http_ok_dispatch (s : state) (item : ext_item) (rest : list ext_item) :
  externalCheckQueue s = item :: rest -> http_ok s ->
  http_ok
    (checkExternalLink (e_url item) (e_source item)
       (set_activeRequests (activeRequests s + 1)
          (set_externalCheckQueue rest s))).
Proof.
  intros Hq (H1 & H2 & H3 & H4 & H5). rewrite Hq in H3.
  apply Forall_cons in H3 as [Hi H3].
  unfold http_ok, checkExternalLink. cbn. rewrite requests_app. cbn.
  repeat split; try done.
  - apply Forall_app. split; [done|]. by repeat constructor.
  - apply Forall_app. split; [done|]. by repeat constructor.
Qed.

Lemma http_ok_drain_loop (pending : list ext_item) (s : state) :
  externalCheckQueue s = pending -> http_ok s ->
  http_ok (drain_loop pending s).
Proof.
  revert s. induction pending as [|item rest IH]; intros s Hq H; cbn; [done|].
  case_match; [|done]. apply IH; [done|].
  by apply (http_ok_dispatch s item rest).
Qed.

Lemma http_ok_processExternalQueue (s : state) :
  http_ok s -> http_ok (processExternalQueue s).
Proof.
  intros H. unfold processExternalQueue. case_match; [done|].
  match goal with |- context [drain_loop ?q ?x] =>
    pose proof (http_ok_drain_loop q x eq_refl) as Hd end.
  eapply http_ok_same; [..|apply Hd]; try done. by exists [].
Qed.

Lemma http_ok_drain_wait (s : state) : http_ok s -> http_ok (drain_wait s).
Proof.
  destruct (drain_wait_cases s) as [->|[_ ->]].
  - unfold finish.
    apply (http_ok_grow s _
             [Emit_finished (brokenLinks s); Emit_log LogDone]);
      try done; try (by exists []). cbn. by rewrite <- app_assoc.
  - apply (http_ok_grow s _ [Sleep 500]); try done; by exists [].
Qed.

Lemma http_ok_loop_head (s : state) : http_ok s -> http_ok (loop_head s).
Proof.
  intros H.
  destruct (loop_head_cases s)
    as [(sk & item & rest & Hq & _ & _ & _ & ->)|(sk & rest & Hq & _ & ->)].
  - assert (http (url item)) as Hi.
    { destruct H as (_ & H2 & _). rewrite Hq in H2.
      apply Forall_app in H2 as [_ H2]. by apply Forall_cons in H2 as [? _]. }
    eapply (http_ok_grow s);
      [unfold visit; cbn; rewrite <- !app_assoc; reflexivity| |done| |done
      |done|exact H].
    + cbn. by repeat constructor.
    + exists (sk ++ [item]). unfold visit. cbn.
      by rewrite Hq, <- app_assoc.
  - apply http_ok_drain_wait. revert H. apply http_ok_same; try done.
    by exists sk.
Qed.

Lemma http_ok_check_resume (s : state) (t : task) (r : http_result) :
  http (t_url t) -> http_ok s ->
  http_ok (check_resume t r s).1
  /\ tasks (check_resume t r s).1 = tasks s.
Proof.
  intros Hu H. unfold check_resume, check_verdict, reportBroken.
  destruct (t_pc t), r as [st|]; cbn; repeat case_match; cbn;
    (split; [|done]); try done;
    try (by eapply (http_ok_grow s _ [Emit_broken _]);
           [reflexivity|constructor|done|by exists []|done|done|done]);
    try (by apply (http_ok_grow s _ [Link_get (t_url t)]);
           [reflexivity|by repeat constructor|done|by exists []|done|done
           |done]).
Qed.

Lemma http_ok_link_done (s s' : state) (i : nat) (r : http_result) :
  link_done i r s = Some s' -> http_ok s -> http_ok s'.
Proof.
  unfold link_done. intros H Hok.
  destruct (tasks s !! i) as [t|] eqn:Hi; [|done].
  assert (http (t_url t)) as Hu.
  { destruct Hok as (_ & _ & _ & H4 & _). rewrite Forall_forall in H4.
    apply H4. by eapply list_elem_of_lookup_2. }
  destruct (http_ok_check_resume s t r Hu Hok) as [Hres Hta].
  destruct (check_resume t r s) as [s1 next]. cbn in Hres, Hta.
  assert (http_ok
            (set_tasks (<[i := {| t_url := t_url t; t_source := t_source t;
                                  t_pc := next |}]> (tasks s1)) s1)) as Hfin.
  { destruct Hres as (H1 & H2 & H3 & H4 & H5). unfold http_ok. cbn.
    repeat split; try done. by apply Forall_insert. }
  destruct (t_pc t); inversion H; by subst.
Qed.

Lemma http_ok_finally_run (s s' : state) (i : nat) :
  finally_run i s = Some s' -> http_ok s -> http_ok s'.
Proof.
  unfold finally_run, finally_callback. intros H (H1 & H2 & H3 & H4 & H5).
  destruct (tasks s !! i) as [t|]; [|done].
  destruct (t_pc t); try done. injection H as <-.
  apply http_ok_processExternalQueue. unfold http_ok. cbn.
  repeat split; try done. by apply Forall_delete.
Qed.

Lemma http_ok_run {U : UrlLib} (ls : list label) (s s' : state) :
  http_ok s -> run s ls = Some s' -> http_ok s'.
Proof.
  assert (forall s1 a, requests [a] = [] -> http_ok s1 ->
            http_ok (emit a s1)) as Hemit.
  { intros s1 a Ha. apply (http_ok_grow s1 _ [a]); try done;
      try (by exists []). rewrite Ha. constructor. }
  apply (operations_run http_ok).
  - intros s1 _. apply http_ok_loop_head.
  - intros s1 _. apply http_ok_drain_wait.
  - intros s1 u d st _. unfold reportBroken.
    eapply (http_ok_grow s1 _ [Emit_broken _]); try done; by exists [].
  - intros s1 u d _. by apply Hemit.
  - intros s1 u d _ H. apply (http_ok_same (emit (Sleep 500) s1));
      try done; [by exists []|by apply Hemit].
  - intros s1 u d _ _. by apply Hemit.
  - intros s1 u d a _ Ha _ (H1 & H2 & H3 & H4 & H5). unfold http_ok. cbn.
    repeat split; try done.
    intros b [->%elem_of_singleton|Hb]%elem_of_union; auto.
  - intros s1 u d a _ _ Ha _ _ (H1 & H2 & H3 & H4 & H5). unfold http_ok. cbn.
    repeat split; try done. apply Forall_app. split; [done|].
    repeat constructor. cbn. auto.
  - intros s1 u d a _ Ha (H1 & H2 & H3 & H4 & H5).
    apply http_ok_processExternalQueue. unfold http_ok. cbn.
    repeat split; try done. apply Forall_app. split; [done|].
    repeat constructor. cbn. auto.
  - intros s1. apply http_ok_processExternalQueue.
  - intros s1 i r s2 H Hl. by eapply http_ok_link_done.
  - intros s1 i s2 H Hl. by eapply http_ok_finally_run.
  - intros s1. apply http_ok_same; try done. by exists [].
  - intros s1 _. by apply Hemit.
Qed.

(** X18.  If the normalised seed begins with [http], every request of
    the session (the pages fetched, the HEAD and GET requests of the
    link checks) is for a URL that begins with [http], and so is every
    record of [brokenLinks]. *)
Theorem X18_only_http_urls_are_requested {U : UrlLib} (startUrl : string)
    (opts : loc) (h : heap) (s0 s : state) (ls : list label) :
  (forall u, normalizeUrl startUrl = Some u ->
             Js.startsWith "http" u = true) ->
  session startUrl opts h = Some s0 -> run s0 ls = Some s ->
  Forall (fun u => Js.startsWith "http" u = true) (requests (trace s)) /\
  Forall (fun b => Js.startsWith "http" (b_url b) = true) (brokenLinks s).
Proof.
  intros Hseed Hs Hr.
  assert (http_ok s) as (_ & _ & _ & _ & H5).
  { eapply http_ok_run; [|exact Hr].
    apply session_entry in Hs
      as (this & h' & _ & -> & Eu & Eq & Ev & Eb & Ec & Ea & Ex & Er & Eg
          & Ek & Em).
    assert (http_ok (enter this h')) as He.
    { unfold http_ok, enter. cbn. rewrite Eq, Ek, Ex. cbn.
      repeat split; try done; try constructor.
      destruct (normalizeUrl startUrl) as [u|] eqn:En; cbn;
        repeat constructor. cbn. by apply Hseed. }
    unfold start. destruct (falsy (Crawler.startUrl this)).
    - revert He. eapply (http_ok_grow _ _ [Emit_error ErrInvalidStart]);
        try done; by exists [].
    - apply http_ok_loop_head. revert He.
      eapply (http_ok_grow _ _ [Emit_log _]); try done; by exists []. }
  split; [exact H5|].
  destruct (finished_ok_session _ _ _ _ _ _ Hs Hr) as [-> _].
  pose proof (requested_ok_session _ _ _ _ _ _ Hs Hr) as (_ & _ & _ & H).
  rewrite Forall_forall in H5. eapply Forall_impl; [exact H|]. cbn.
  intros b [[_ Hb]|[Hb _]]; apply H5.
  - by apply page_gets_requests.
  - by apply link_heads_requests.
Qed.

(** X18 on the demo session. *)
Lemma X18_witness :
  exists s0 s,
    Demo.crawl Demo.defaults = Some s0 /\
    run (U := SampleUrl.lib) s0 Demo.deliveries = Some s /\
    (Forall (fun u => Js.startsWith "http" u = true) (requests (trace s)) /\
     Forall (fun b => Js.startsWith "http" (b_url b) = true) (brokenLinks s)).
Proof.
  eexists _, _. split; [vm_compute; reflexivity|].
  split; [vm_compute; reflexivity|].
  eapply (X18_only_http_urls_are_requested (U := SampleUrl.lib) Demo.home
            1%positive (Demo.store Demo.defaults) _ _ Demo.deliveries).
  - intros u E. vm_compute in E. injection E as <-. reflexivity.
  - vm_compute; reflexivity.
  - vm_compute; reflexivity.
Defined.

(** ** The connection *)

Lemma isRunning_drain_wait (s : state) :
  isRunning (drain_wait s) = isRunning s.
Proof. by destruct (drain_wait_cases s) as [->|[_ ->]]. Qed.

Lemma isRunning_loop_head (s : state) :
  isRunning (loop_head s) = isRunning s.
Proof.
  destruct (loop_head_cases s)
    as [(sk & item & rest & _ & _ & _ & _ & ->)|(sk & rest & _ & _ & ->)];
    [done|by rewrite isRunning_drain_wait].
Qed.

(** Nothing but the handlers writes [isRunning] once [start] is under
    way. *)
Lemma isRunning_step {U : UrlLib} (s s' : state) (l : label) :
  delivery l = true -> step s l = Some s' -> isRunning s' = isRunning s.
Proof.
  intros Hl Hs. apply step_shape in Hs.
  destruct l; try done.
  - destruct Hs as [s1 _ He|u d s1 _ He|u d s1 _ _ He|s1 _ He].
    + rewrite isRunning_loop_head. apply (ext_running 0 _ _ (He 0)).
    + apply (ext_running 0 _ _ (He 0)).
    + apply (ext_running _ _ _ He).
    + rewrite isRunning_drain_wait. apply (ext_running 0 _ _ (He 0)).
  - destruct Hs as [s1 _ He|u d s1 _ He|u d s1 _ _ He|s1 _ He].
    + rewrite isRunning_loop_head. apply (ext_running 0 _ _ (He 0)).
    + apply (ext_running 0 _ _ (He 0)).
    + apply (ext_running _ _ _ He).
    + rewrite isRunning_drain_wait. apply (ext_running 0 _ _ (He 0)).
  - apply (ext_running 0 _ _ (Hs 0)).
  - apply (ext_running 0 _ _ (Hs 0)).
Qed.

Lemma stop_current_length (c : connection) :
  length (stop_current c) = length (crawlers c).
Proof. unfold stop_current. case_match; [apply length_alter|done]. Qed.

Lemma stop_current_stopped (c : connection) :
  one_runs c ->
  Forall (fun s => isRunning s = false) (stop_current c).
Proof.
  intros H. apply Forall_lookup. intros i s Hi. unfold stop_current in Hi.
  destruct (isRunning s) eqn:Hr; [exfalso|done].
  destruct (crawler c) as [j|] eqn:Hc.
  - destruct (decide (i = j)) as [->|Hne].
    + rewrite list_lookup_alter, decide_True in Hi by done.
      destruct (crawlers c !! j); cbn in Hi; [|done].
      injection Hi as Hi. subst s. by cbn in Hr.
    + rewrite list_lookup_alter_ne in Hi by done.
      specialize (H i s Hi Hr). congruence.
  - specialize (H i s Hi Hr). congruence.
Qed.

Lemma one_runs_stopped (c : connection) :
  Forall (fun s => isRunning s = false) (crawlers c) -> one_runs c.
Proof.
  intros H i s Hi Hr. rewrite Forall_lookup in H.
  specialize (H i s Hi). congruence.
Qed.

Lemma one_runs_handle {U : UrlLib} (c c' : connection) (e : event) :
  one_runs c -> handle c e = Some c' -> one_runs c'.
Proof.
  intros H He. pose proof (stop_current_stopped c H) as Hst.
  destruct e as [data| | |i l]; cbn in He.
  - unfold start_crawl in He.
    destruct (read_payload data) as [[url [l h]]|];
      [|by injection He as <-].
    assert (forall ns, one_runs {| crawler := crawler c;
                                   crawlers := stop_current c;
                                   notices := ns |}) as Hstop.
    { intros ns. by apply one_runs_stopped. }
    destruct url as [|u|]; [|simpl in He|by injection He as <-].
    + simpl in He. by injection He as <-.
    + case_match; [by injection He as <-|].
      destruct (session _ l h) as [s0|]; [|done]. injection He as <-.
      intros i s Hi Hr. cbn in *.
      apply lookup_app_Some in Hi as [Hi1|[Hge Hi2]].
      * rewrite Forall_lookup in Hst. specialize (Hst i s Hi1). congruence.
      * f_equal. apply lookup_lt_Some in Hi2. cbn in Hi2. lia.
  - injection He as <-. by apply one_runs_stopped.
  - injection He as <-. by apply one_runs_stopped.
  - destruct (delivery l) eqn:Hl; [|done].
    destruct (crawlers c !! i) as [s|] eqn:Hi; [|done].
    destruct (step s l) as [s'|] eqn:Hs; [|done]. injection He as <-.
    intros j t Hj Hr. cbn in *.
    destruct (decide (j = i)) as [->|Hne].
    + rewrite list_lookup_insert_eq in Hj by (by eapply lookup_lt_Some).
      injection Hj as <-. apply (H i s Hi).
      by rewrite <- (isRunning_step _ _ _ Hl Hs).
    + rewrite list_lookup_insert_ne in Hj by done. by apply (H j t).
Qed.

Lemma one_runs_serve {U : UrlLib} (es : list event) (c c' : connection) :
  one_runs c -> serve c es = Some c' -> one_runs c'.
Proof.
  revert c. induction es as [|e es IH]; intros c H Hs; cbn in Hs.
  - by injection Hs as <-.
  - destruct (handle c e) as [c1|] eqn:He; [|done].
    eapply IH; [|exact Hs]. by eapply one_runs_handle.
Qed.

Lemma one_runs_connect : one_runs connect.
Proof. intros j t Hj. cbn in Hj. by rewrite lookup_nil in Hj. Qed.

(** The payload [null] makes the handler throw before it stops the
    current crawler, which goes on running; the payload [{url: 42}]
    makes it throw after. *)
Example start_crawl_throws :
  exists c c1 c2 s,
    serve (U := SampleUrl.lib) connect Visit.events = Some c /\
    crawlers c !! 1%nat = Some s /\ isRunning s = true /\
    start_crawl (U := SampleUrl.lib) Nullish c = Some c1 /\
    crawlers c1 = crawlers c /\ notices c1 = [Uncaught] /\
    start_crawl (U := SampleUrl.lib) Visit.number_url c = Some c2 /\
    isRunning <$> crawlers c2 = [false; false] /\ notices c2 = [Uncaught].
Proof.
  eexists _, _, _, _. split; [vm_compute; reflexivity|].
  split; [vm_compute; reflexivity|]. split; [vm_compute; reflexivity|].
  split; [vm_compute; reflexivity|]. split; [vm_compute; reflexivity|].
  split; [vm_compute; reflexivity|]. split; [vm_compute; reflexivity|].
  split; vm_compute; reflexivity.
Qed.

(** X19.  Whatever happens on a connection, at most one crawler is
    running, and it is the current one: every crawler that a later
    [start-crawl] replaced has been stopped. *)
Theorem X19_at_most_one_crawler_runs {U : UrlLib} (es : list event)
    (c : connection) (i : nat) (s : state) :
  serve connect es = Some c ->
  crawlers c !! i = Some s -> isRunning s = true ->
  crawler c = Some i.
Proof.
  intros Hs. apply (one_runs_serve es connect c); [|done].
  apply one_runs_connect.
Qed.

(** X19 on a connection with two requests: the second crawler runs. *)
Lemma X19_witness :
  exists c s,
    serve (U := SampleUrl.lib) connect Visit.events = Some c /\
    crawlers c !! 1%nat = Some s /\ isRunning s = true /\
    crawler c = Some 1%nat.
Proof.
  eexists _, _. split; [vm_compute; reflexivity|].
  split; [vm_compute; reflexivity|]. split; [vm_compute; reflexivity|].
  eapply (X19_at_most_one_crawler_runs (U := SampleUrl.lib) Visit.events
            _ 1%nat _).
  - vm_compute; reflexivity.
  - vm_compute; reflexivity.
  - vm_compute; reflexivity.
Defined.

(** X20.  A [start-crawl] request that carries no string beginning with
    [http] as its URL creates no crawler and leaves the current one in
    place.  What else it does depends on the payload.  If the URL is
    falsy or a string (missing, empty, without the prefix), the crawl in
    progress is stopped, so that no crawler of the connection is running
    afterwards, and one error is emitted.  If the URL is a truthy value
    that is no string, the crawl in progress is stopped as well, but the
    handler throws and emits nothing.  If the payload is [null] or
    [undefined], the handler throws at once: nothing is emitted and the
    crawlers are as they were, the current one still running if it
    was. *)
Theorem X20_request_without_http_url {U : UrlLib} (es : list event)
    (c : connection) (data : payload) :
  serve connect es = Some c -> start_url data = None ->
  exists c',
    handle c (OnStartCrawl data) = Some c' /\
    crawler c' = crawler c /\
    length (crawlers c') = length (crawlers c) /\
    match read_payload data with
    | None =>
        crawlers c' = crawlers c /\ notices c' = notices c ++ [Uncaught]
    | Some (NoText, _) =>
        Forall (fun s => isRunning s = false) (crawlers c') /\
        notices c' = notices c ++ [Uncaught]
    | Some (_, _) =>
        Forall (fun s => isRunning s = false) (crawlers c') /\
        notices c' = notices c ++ [InvalidUrl]
    end.
Proof.
  intros Hs Hbad.
  assert (Forall (fun s => isRunning s = false) (stop_current c)) as Hst.
  { apply stop_current_stopped. apply (one_runs_serve es connect c); [|done].
    apply one_runs_connect. }
  pose proof (stop_current_length c) as Hlen.
  cbn [handle]. unfold start_crawl. unfold start_url in Hbad.
  destruct (read_payload data) as [[url [l h]]|].
  - destruct url as [|u|].
    + eexists. split; [reflexivity|]. by cbn.
    + destruct (Js.startsWith "http" u) eqn:Hu; [done|].
      cbn [as_text]. change (default ""%string (Some u)) with u.
      rewrite Hu, orb_true_r. eexists. split; [reflexivity|]. by cbn.
    + eexists. split; [reflexivity|]. by cbn.
  - eexists. split; [reflexivity|]. by cbn.
Qed.

(** X20 on the request [{}] on that connection. *)
Lemma X20_witness :
  exists c,
    serve (U := SampleUrl.lib) connect Visit.events = Some c /\
    exists c',
      handle (U := SampleUrl.lib) c (OnStartCrawl Visit.no_url) = Some c' /\
      crawler c' = crawler c /\
      length (crawlers c') = length (crawlers c) /\
      match read_payload Visit.no_url with
      | None =>
          crawlers c' = crawlers c /\ notices c' = notices c ++ [Uncaught]
      | Some (NoText, _) =>
          Forall (fun s => isRunning s = false) (crawlers c') /\
          notices c' = notices c ++ [Uncaught]
      | Some (_, _) =>
          Forall (fun s => isRunning s = false) (crawlers c') /\
          notices c' = notices c ++ [InvalidUrl]
      end.
Proof.
  eexists. split; [vm_compute; reflexivity|].
  eapply (X20_request_without_http_url (U := SampleUrl.lib)
            Visit.events _ Visit.no_url).
  - vm_compute; reflexivity.
  - vm_compute; reflexivity.
Defined.

(** X21.  A crawl requested with a bare URL string that begins with
    [http] and parses is started with the default budgets (50 pages,
    depth 3) and is confined to the host of the start URL and its
    subdomains; it becomes the current crawler. *)
Theorem X21_bare_url_gets_the_defaults {U : UrlLib} (c : connection)
    (url u : string) (p : parsed) :
  Js.startsWith "http" url = true ->
  normalizeUrl url = Some u -> URL_new u = Some p ->
  exists c' s0,
    start_crawl (UrlString url) c = Some c' /\
    crawlers c' = stop_current c ++ [s0] /\
    crawler c' = Some (length (crawlers c)) /\
    maxPages s0 = 50%Q /\ maxDepth s0 = 3%Q /\
    allowedDomains s0 = [URL_hostname p].
Proof.
  intros Hh Hn Hp. unfold start_crawl, read_payload, options_or_new.
  cbv beta iota zeta. cbn [as_text].
  change (default ""%string (Some url)) with url.
  assert (falsy (Some url) = false) as ->.
  { cbn. apply bool_decide_eq_false_2. intros ->. by destruct url. }
  rewrite Hh. cbn [negb orb].
  unfold session, Crawler.constructor. rewrite lookup_insert_eq.
  unfold Crawler.domains_or_new. cbn [opt_allowedDomains no_options].
  rewrite Hn. eexists _, _. split; [reflexivity|].
  cbn [crawlers crawler]. split; [done|].
  split; [by rewrite stop_current_length|].
  match goal with |- context [start ?t ?hp] =>
    destruct (start_config t hp) as (-> & -> & _ & ->) end.
  cbn [Crawler.maxPages Crawler.maxDepth Crawler.allowedDomains].
  split; [done|]. split; [done|].
  unfold Crawler.add_start_host. rewrite Hp, lookup_insert_eq.
  rewrite bool_decide_eq_false_2 by apply not_elem_of_nil.
  unfold read_domains. by rewrite lookup_insert_eq.
Qed.

(** X21 on the first request of a connection. *)
Lemma X21_witness :
  exists u p,
    normalizeUrl (U := SampleUrl.lib) Demo.home = Some u /\
    URL_new (UrlLib := SampleUrl.lib) u = Some p /\
    exists c' s0,
      start_crawl (U := SampleUrl.lib) (UrlString Demo.home) connect
      = Some c' /\
      crawlers c' = stop_current connect ++ [s0] /\
      crawler c' = Some (length (crawlers connect)) /\
      maxPages s0 = 50%Q /\ maxDepth s0 = 3%Q /\
      allowedDomains s0 = [URL_hostname (UrlLib := SampleUrl.lib) p].
Proof.
  eexists _, _. split; [vm_compute; reflexivity|].
  split; [vm_compute; reflexivity|].
  eapply (X21_bare_url_gets_the_defaults (U := SampleUrl.lib) connect
            Demo.home).
  - vm_compute; reflexivity.
  - vm_compute; reflexivity.
  - vm_compute; reflexivity.
Defined.
